(** * LiteSpeedTest, [web/profile.go]: parsing of batch messages and the
      test orchestration engine.

    The development follows the Go source function by function.  Go values
    are modelled as follows:
    - [string] is a sequence of bytes: Rocq's [string] (a list of [ascii]);
    - [int], [int64] and [time.Duration] are 64-bit integers: [Z] with the
      wrap-around of the arithmetic written out ([wrap64]);
    - slices are lists, an index out of range is a run-time panic;
    - a function returning [(T, error)] returns a [result T];
    - the packages the file imports ([encoding/json], [net/http], the probe
      and download primitives) are section variables: every theorem holds
      for whatever these collaborators answer. *)

From Stdlib Require Import ZArith List String Ascii Bool Arith Lia.
Import ListNotations.

Local Open Scope string_scope.
Local Open Scope list_scope.
Local Open Scope Z_scope.

(** ** Errors and results *)

Inductive error : Type :=
| ErrInvalidData                  (* var ErrInvalidData = errors.New("invalid data") *)
| ErrorsNew (msg : string)        (* errors.New / fmt.Errorf at the place of use *)
| NumErrSyntax                    (* strconv.ErrSyntax *)
| NumErrRange                     (* strconv.ErrRange *)
| ErrLib (msg : string).          (* an error of an imported package *)

Inductive result (A : Type) : Type :=
| Ok (a : A)
| Err (e : error).
Arguments Ok {A} a.
Arguments Err {A} e.

(** ** Machine integers *)

Definition minInt64 : Z := - 2 ^ 63.
Definition maxInt64 : Z := 2 ^ 63 - 1.

Definition inInt64 (z : Z) : Prop := minInt64 <= z <= maxInt64.

(** Two's complement wrap-around of a 64-bit signed operation. *)
Definition wrap64 (z : Z) : Z := (z + 2 ^ 63) mod 2 ^ 64 - 2 ^ 63.

(** [time.Second], in nanoseconds. *)
Definition Second : Z := 1000000000.

(** ** The functions of package [strings] and [strconv] the file calls *)

Module GoStrings.

(** The text before the first [sep], and the text after it when there is one. *)
Fixpoint cut (sep : ascii) (s : string) : string * option string :=
  match s with
  | EmptyString => (EmptyString, None)
  | String c s' =>
      if Ascii.eqb c sep then (EmptyString, Some s')
      else let (a, r) := cut sep s' in (String c a, r)
  end.

(** [strings.SplitN(s, sep, 2)] for a one-byte separator. *)
Definition SplitN2 (sep : ascii) (s : string) : list string :=
  match cut sep s with
  | (a, None) => [a]
  | (a, Some r) => [a; r]
  end.

(** [strings.Split(s, sep)] for a one-byte separator: one field more than
    there are separators. *)
Fixpoint Split (sep : ascii) (s : string) : list string :=
  match s with
  | EmptyString => [EmptyString]
  | String c s' =>
      if Ascii.eqb c sep then EmptyString :: Split sep s'
      else match Split sep s' with
           | h :: t => String c h :: t
           | [] => [String c EmptyString]
           end
  end.

Definition digit_val (c : ascii) : option Z :=
  let n := nat_of_ascii c in
  if ((48 <=? n) && (n <=? 57))%nat then Some (Z.of_nat n - 48) else None.

Fixpoint parse_digits (acc : Z) (s : string) : option Z :=
  match s with
  | EmptyString => Some acc
  | String c s' =>
      match digit_val c with
      | Some d => parse_digits (10 * acc + d) s'
      | None => None
      end
  end.

(** [strconv.Atoi] on a 64-bit platform: an optional sign, then one or more
    decimal digits; a value outside [int] is a range error. *)
Definition Atoi (s : string) : result Z :=
  let '(neg, body) :=
    match s with
    | String "+"%char r => (false, r)
    | String "-"%char r => (true, r)
    | _ => (false, s)
    end in
  match body with
  | EmptyString => Err NumErrSyntax
  | _ =>
      match parse_digits 0 body with
      | None => Err NumErrSyntax
      | Some n =>
          let v := if neg then - n else n in
          if (minInt64 <=? v) && (v <=? maxInt64) then Ok v else Err NumErrRange
      end
  end.

End GoStrings.

(** ** Package [regexp]: leftmost-first matching

    Go's regexp package returns the match that begins as early as possible
    and, among those, the one a backtracking engine would find first.  The
    matcher below lists, for a pattern and a text, the texts left over after
    every way the pattern matches a prefix, in the order a backtracking
    engine tries them: the head of the list is the match Go reports.

    Patterns are over bytes.  The patterns of [profile.go] only name ASCII
    characters, negated ASCII classes and [.], so matching bytes and matching
    UTF-8 runes select the same substrings; the two non-ASCII runes that the
    flag [(?i)] folds onto ASCII letters are written as their UTF-8 bytes. *)

Module Regexp.

Inductive regex : Type :=
| Eps
| Class (p : ascii -> bool)
| Seq (a b : regex)
| Alt (a b : regex)
| Opt (a : regex)                    (* a?, greedy *)
| Plus (greedy : bool) (a : regex).  (* a+ when greedy, a+? otherwise *)

(** Repetition of [step], one or more times.  An iteration that consumes
    nothing is not repeated; each other iteration shortens the text, so
    [fuel] larger than the length of the text is never used up. *)
Fixpoint iter (greedy : bool) (step : string -> list string)
    (fuel : nat) (s : string) : list string :=
  match fuel with
  | O => []
  | S fuel' =>
      flat_map
        (fun s' =>
           if (String.length s' <? String.length s)%nat
           then if greedy then iter greedy step fuel' s' ++ [s']
                else s' :: iter greedy step fuel' s'
           else [s'])
        (step s)
  end.

Fixpoint rmatch (r : regex) (s : string) : list string :=
  match r with
  | Eps => [s]
  | Class p =>
      match s with
      | String c s' => if p c then [s'] else []
      | EmptyString => []
      end
  | Seq a b => flat_map (rmatch b) (rmatch a s)
  | Alt a b => rmatch a s ++ rmatch b s
  | Opt a => rmatch a s ++ [s]
  | Plus g a => iter g (rmatch a) (S (String.length s)) s
  end.

(** The first [length s - length rest] bytes of [s]. *)
Definition matched (s rest : string) : string :=
  substring 0 (String.length s - String.length rest) s.

(** The leftmost-first match in [s]: the text skipped before it, the match,
    and the text after it. *)
Fixpoint find (r : regex) (s : string) : option (string * string * string) :=
  match rmatch r s with
  | rest :: _ => Some (EmptyString, matched s rest, rest)
  | [] =>
      match s with
      | EmptyString => None
      | String c s' =>
          match find r s' with
          | Some (skipped, m, rest) => Some (String c skipped, m, rest)
          | None => None
          end
      end
  end.

(** [Regexp.FindAllString(s, -1)]: successive non-overlapping matches.  After
    a non-empty match the search resumes where it ended; an empty match is
    dropped when it abuts the match before it ([abut]) and the search resumes
    one byte further. *)
Fixpoint FindAll_from (r : regex) (fuel : nat) (abut : bool) (s : string)
    : list string :=
  match fuel with
  | O => []
  | S fuel' =>
      match find r s with
      | None => []
      | Some (skipped, EmptyString, rest) =>
          let tl :=
            match rest with
            | EmptyString => []
            | String _ rest' => FindAll_from r fuel' false rest'
            end in
          match abut, skipped with
          | true, EmptyString => tl
          | _, _ => EmptyString :: tl
          end
      | Some (_, m, rest) => m :: FindAll_from r fuel' true rest
      end
  end.

Definition FindAllString (r : regex) (s : string) : list string :=
  FindAll_from r (S (String.length s)) false s.

(** [regexp.MatchString] for a pattern [^r]: the pattern matches at the
    beginning of the text. *)
Definition MatchAnchored (r : regex) (s : string) : bool :=
  match rmatch r s with
  | [] => false
  | _ :: _ => true
  end.

(** *** Building patterns *)

Definition chr (c : ascii) : regex := Class (Ascii.eqb c).

Fixpoint lit (s : string) : regex :=
  match s with
  | EmptyString => Eps
  | String c EmptyString => chr c
  | String c s' => Seq (chr c) (lit s')
  end.

Definition code (c : ascii) : nat := nat_of_ascii c.

Definition between (lo hi : nat) (c : ascii) : bool :=
  ((lo <=? code c) && (code c <=? hi))%nat.

Definition is_upper : ascii -> bool := between 65 90.
Definition is_lower : ascii -> bool := between 97 122.
Definition is_digit : ascii -> bool := between 48 57.

Definition to_lower (c : ascii) : ascii :=
  if is_upper c then ascii_of_nat (code c + 32) else c.

(** U+017F (long s) and U+212A (Kelvin sign), which simple case folding
    puts in the orbits of [s] and [k]. *)
Definition long_s : string :=
  String (ascii_of_nat 197) (String (ascii_of_nat 191) EmptyString).
Definition kelvin : string :=
  String (ascii_of_nat 226)
    (String (ascii_of_nat 132) (String (ascii_of_nat 170) EmptyString)).

(** One literal character under [(?i)]. *)
Definition fold_char (c : ascii) : regex :=
  let l := to_lower c in
  let same := Class (fun x => Ascii.eqb (to_lower x) l) in
  if Ascii.eqb l "s" then Alt same (lit long_s)
  else if Ascii.eqb l "k" then Alt same (lit kelvin)
  else same.

(** A literal under [(?i)]. *)
Fixpoint ilit (s : string) : regex :=
  match s with
  | EmptyString => Eps
  | String c EmptyString => fold_char c
  | String c s' => Seq (fold_char c) (ilit s')
  end.

(** [a{2,5}], greedy. *)
Definition rep_2_5 (a : regex) : regex :=
  Seq a (Seq a (Opt (Seq a (Opt (Seq a (Opt a)))))).

(** *** What a pattern denotes *)

Inductive lang : regex -> string -> Prop :=
| L_eps : lang Eps EmptyString
| L_class p c : p c = true -> lang (Class p) (String c EmptyString)
| L_seq a b u v : lang a u -> lang b v -> lang (Seq a b) (u ++ v)%string
| L_alt_l a b u : lang a u -> lang (Alt a b) u
| L_alt_r a b u : lang b u -> lang (Alt a b) u
| L_opt_none a : lang (Opt a) EmptyString
| L_opt_some a u : lang a u -> lang (Opt a) u
| L_plus_one g a u : lang a u -> lang (Plus g a) u
| L_plus_more g a u v :
    lang a u -> lang (Plus g a) v -> lang (Plus g a) (u ++ v)%string.

End Regexp.

(** ** Package [web], file [profile.go] *)

Module Web.

Import GoStrings.
Import Regexp.

(** *** Constants and the options record

    [ALLTEST = iota] is the third constant of its block, so [ALLTEST] is 2
    and [RETEST], which repeats the expression, is 3. *)

Definition SpeedOnly : string := "speedonly".
Definition PingOnly : string := "pingonly".
Definition ALLTEST : Z := 2.
Definition RETEST : Z := 3.

Record ProfileTestOptions : Type := {
  GroupName : string;
  SpeedTestMode : string;
  PingMethod : string;
  SortMethod : string;
  Concurrency : Z;
  TestMode : Z;
  TestIDs : list Z;
  Timeout : Z;              (* time.Duration: nanoseconds *)
  Links : list string
}.

(** *** The two patterns of [parseLinks] *)

Definition nl : ascii := "010"%char.

Definition none_of (cs : list ascii) (c : ascii) : bool :=
  negb (existsb (Ascii.eqb c) cs).

Definition one_of (cs : list ascii) (c : ascii) : bool :=
  existsb (Ascii.eqb c) cs.

(** [^(?:https?:\/\/)(?:[^@\/\n]+@)?(?:www\.)?([^:\/\n]+)], without the [^]. *)
Definition url_re : regex :=
  Seq (lit "http")
   (Seq (Opt (chr "s"))
     (Seq (lit "://")
       (Seq (Opt (Seq (Plus true (Class (none_of ["@"; "/"; nl]%char))) (chr "@")))
         (Seq (Opt (lit "www."))
           (Plus true (Class (none_of [":"; "/"; nl]%char))))))).

(** [[a-zA-Z0-9+_/=-]] *)
Definition token_char (c : ascii) : bool :=
  is_lower c || is_upper c || is_digit c
  || one_of ["+"; "_"; "/"; "="; "-"]%char c.

(** The same class under [(?i)]: the letters bring in the two runes that
    fold onto [s] and [k]. *)
Definition token_char_fold : regex :=
  Alt (Class token_char) (Alt (lit long_s) (lit kelvin)).

(** [.]: any character but a newline. *)
Definition dot : regex := Class (none_of [nl]).

(** [[^\s]]: Go's [\s] is tab, newline, form feed, carriage return, space. *)
Definition nonspace (c : ascii) : bool :=
  none_of ["009"; "010"; "012"; "013"; " "]%char c.

(** [(?i)(vmess|ssr)://[a-zA-Z0-9+_/=-]+] *)
Definition token_re : regex :=
  Seq (Alt (ilit "vmess") (ilit "ssr"))
    (Seq (lit "://") (Plus true token_char_fold)).

(** [(?i)(ss|trojan)://(.+?)@(.+?):([0-9]{2,5})([?#][^\s]+)] *)
Definition cred_re : regex :=
  Seq (Alt (ilit "ss") (ilit "trojan"))
    (Seq (lit "://")
      (Seq (Plus false dot)
        (Seq (chr "@")
          (Seq (Plus false dot)
            (Seq (chr ":")
              (Seq (rep_2_5 (Class is_digit))
                (Seq (Class (one_of ["?"; "#"]%char))
                  (Plus true (Class nonspace))))))))).

Definition link_re : regex := Alt token_re cred_re.

(** *** Parsing *)

Section Parsing.

(** [json.Unmarshal(message, options)] into a zero [ProfileTestOptions]. *)
Variable json_Unmarshal : string -> result ProfileTestOptions.
(** [c.Get(link)] followed by [io.ReadAll(resp.Body)]. *)
Variable http_Get : string -> result string.
(** [common.DecodeB64]. *)
Variable DecodeB64 : string -> result string.

(** [getSubscriptionLinks] and [parseLinks] call each other; how often is up
    to the servers that answer, so [parseLinks] takes the number of calls it
    may make and returns [None] when it would need more. *)
Definition getSubscriptionLinks_with
    (parseLinks : string -> option (result (list string))) (link : string)
    : option (result (list string)) :=
  match http_Get link with
  | Err e => Some (Err e)
  | Ok data =>
      match DecodeB64 data with
      | Err e => Some (Err e)
      | Ok msg => parseLinks msg
      end
  end.

Fixpoint parseLinks (fuel : nat) (message : string)
    : option (result (list string)) :=
  match fuel with
  | O => None
  | S fuel' =>
      if MatchAnchored url_re message
      then getSubscriptionLinks_with (parseLinks fuel') message
      else
        let links := FindAllString link_re message in
        if (List.length links <? 1)%nat then Some (Err ErrInvalidData)
        else Some (Ok links)
  end.

Definition getSubscriptionLinks (fuel : nat) (link : string)
    : option (result (list string)) :=
  getSubscriptionLinks_with (parseLinks fuel) link.

Definition default_group (groupName : string) : string :=
  if String.eqb groupName "?empty?" || String.eqb groupName EmptyString
  then "Default Group" else groupName.

Definition parseOptions (message : string) : result ProfileTestOptions :=
  let opts := Split "^" message in
  if (List.length opts <? 7)%nat then Err ErrInvalidData
  else
    let groupName := default_group (nth 0 opts EmptyString) in
    match Atoi (nth 5 opts EmptyString) with
    | Err e => Err e
    | Ok concurrency =>
        let concurrency := if concurrency <? 1 then 1 else concurrency in
        match Atoi (nth 6 opts EmptyString) with
        | Err e => Err e
        | Ok timeout =>
            let timeout := if timeout <? 20 then 20 else timeout in
            Ok {| GroupName := groupName;
                  SpeedTestMode := nth 1 opts EmptyString;
                  PingMethod := nth 2 opts EmptyString;
                  SortMethod := nth 3 opts EmptyString;
                  Concurrency := concurrency;
                  TestMode := ALLTEST;
                  TestIDs := [];
                  Timeout := wrap64 (timeout * Second);
                  Links := [] |}
        end
    end.

Definition parseRetestMessage (message : string)
    : result (list string * ProfileTestOptions) :=
  match json_Unmarshal message with
  | Err e => Err e
  | Ok options =>
      if negb (TestMode options =? RETEST)
      then Err (ErrorsNew "not retest mode")
      else
        let timeout := wrap64 (Timeout options * Second) in
        let timeout := if timeout <? 20 then 20 else timeout in
        let concurrency :=
          if Concurrency options <? 1 then 1 else Concurrency options in
        let options :=
          {| GroupName := default_group (GroupName options);
             SpeedTestMode := SpeedTestMode options;
             PingMethod := PingMethod options;
             SortMethod := SortMethod options;
             Concurrency := concurrency;
             TestMode := RETEST;
             TestIDs := TestIDs options;
             Timeout := timeout;
             Links := Links options |} in
        Ok (Links options, options)
  end.

Definition parseMessage (fuel : nat) (message : string)
    : option (result (list string * ProfileTestOptions)) :=
  match parseRetestMessage message with
  | Ok r => Some (Ok r)
  | Err _ =>
      match SplitN2 "^" message with
      | [linktext; params] =>
          match parseLinks fuel linktext with
          | None => None
          | Some (Err e) => Some (Err e)
          | Some (Ok links) =>
              match parseOptions params with
              | Err e => Some (Err e)
              | Ok options => Some (Ok (links, options))
              end
          end
      | _ => Some (Err ErrInvalidData)
      end
  end.

End Parsing.

(** *** Frames written to the connection *)

Inductive frame : Type :=
| MsgByte (id : Z) (typ : string) (option : list Z)
    (* getMsgByte(id, typ, option...) *)
| GotserverMsg (id : Z) (link groupName : string)
    (* gotserverMsg(id, link, groupName) *)
| Text (data : string).
    (* the bytes of a string, as WriteString sends them *)

Definition is_eof (f : frame) : bool :=
  match f with
  | MsgByte _ typ _ => String.eqb typ "eof"
  | _ => false
  end.

(** *** The batch

    [Conn] and [MessageType] only say where frames go; [mu] makes every write
    one atomic step; [wg] is the counter of the run-time state below. *)

Module ProfileTest.
Record t : Type := {
  Options : ProfileTestOptions;
  Links : list string
}.
End ProfileTest.

(** [l[i]] for a Go [int] index: [None] is the out-of-range panic. *)
Definition elem {A : Type} (l : list A) (i : Z) : option A :=
  if i <? 0 then None else nth_error l (Z.to_nat i).

(** *** The goroutines, as sequences of atomic actions *)

Inductive action : Type :=
| Write (f : frame)
    (* p.WriteMessage, p.WriteString *)
| WgAdd
    (* p.wg.Add(1) *)
| WgDone
    (* p.wg.Done() *)
| WgWait
    (* p.wg.Wait() *)
| Acquire (i : Z)
    (* select: guard <- i, or <-ctx.Done() and return nil *)
| GoTest (id : Z) (link : string)
    (* go func(id, link, c) { ... }(id, link, guard) *)
| Release
    (* <-c *)
| GoConsume (index : Z) (samples : list Z)
    (* go func(ch) { ... }(ch), with the samples ch will carry *)
| Recv (f : frame)
    (* select: a sample from ch, then its frame; or <-ctx.Done() and return *)
| CallPing (link : string) (attempts : Z)
    (* request.PingLink(link, attempts) *)
| CallDownload (link : string) (timeout : Z)
    (* download.Download(link, timeout, timeout, ch) *)
| Panic
    (* a run-time panic: the process stops *)
| Return (err : option error).
    (* testAll returns err *)

(** How a call ends. *)
Inductive ret : Type :=
| Returned (err : option error)
| Panicked.

Definition sentinel (index : Z) : frame := MsgByte index "gotspeed" [-1; -1; 0].

(** The frames a sequence of actions writes when it runs to its end. *)
Fixpoint frames (prog : list action) : list frame :=
  match prog with
  | [] => []
  | Write f :: prog' => f :: frames prog'
  | Recv f :: prog' => f :: frames prog'
  | _ :: prog' => frames prog'
  end.

(** The links a sequence of actions hands to the probe and to the download. *)
Fixpoint probed (prog : list action) : list string :=
  match prog with
  | [] => []
  | CallPing link _ :: prog' => link :: probed prog'
  | CallDownload link _ :: prog' => link :: probed prog'
  | _ :: prog' => probed prog'
  end.

(** *** The consumer of samples (the goroutine started by [testOne])

    [received] is what the channel delivers before it is closed.  The calls
    to [getRemarks] and [log.Printf] write to the log only. *)

Definition average (speeds : list Z) : Z :=
  fold_left
    (fun avg s => wrap64 (avg + Z.quot s (Z.of_nat (List.length speeds))))
    speeds 0.

Fixpoint consume (index max : Z) (speeds received : list Z) : list frame :=
  match received with
  | [] => []
  | speed :: received' =>
      if speed <? 0 then []
      else
        let speeds := speeds ++ [speed] in
        let avg := average speeds in
        let max := if max <? speed then speed else max in
        MsgByte index "gotspeed" [avg; max; speed]
          :: consume index max speeds received'
  end.

Section Orchestration.

(** The constant [SPEEDTEST_ERROR_NONODES], declared in another file of the
    package. *)
Variable SPEEDTEST_ERROR_NONODES : string.
(** [request.PingLink(link, attempts)]: the elapsed time and the error. *)
Variable PingLink : string -> Z -> Z * option error.
(** [download.Download(link, timeout, timeout, ch)]: the samples it sends on
    [ch], the speed and the error it returns. *)
Variable Download : string -> Z -> list Z * Z * option error.

Variable p : ProfileTest.t.

Definition pingLink (index : Z) (link : string) : list action * ret :=
  if String.eqb (SpeedTestMode (ProfileTest.Options p)) SpeedOnly
  then ([], Returned None)
  else
    let resolved :=
      if String.eqb link EmptyString then elem (ProfileTest.Links p) index
      else Some link in
    match resolved with
    | None => ([], Panicked)
    | Some link =>
        let (elapse, err) := PingLink link 2 in
        let head :=
          [Write (MsgByte index "startping" []);
           CallPing link 2;
           Write (MsgByte index "gotping" [elapse])] in
        if elapse <? 1
        then (head ++ [Write (sentinel index)], Returned err)
        else if String.eqb (SpeedTestMode (ProfileTest.Options p)) PingOnly
        then (head ++ [Write (sentinel index)],
              Returned (Some (ErrorsNew PingOnly)))
        else (head, Returned err)
    end.

(** The deferred [p.wg.Done()] runs when [testOne] returns or panics, and is
    registered only when [link] is empty. *)
Definition testOne (index : Z) (link : string) : list action * ret :=
  let deferred := if String.eqb link EmptyString then [WgDone] else [] in
  let resolved :=
    if String.eqb link EmptyString
    then match elem (ProfileTest.Links p) index with
         | Some link => Some (nth 0 (SplitN2 "^" link) EmptyString)
         | None => None
         end
    else Some link in
  match resolved with
  | None => (deferred ++ [Panic], Panicked)
  | Some link =>
      match pingLink index link with
      | (acts, Panicked) => (acts ++ deferred ++ [Panic], Panicked)
      | (acts, Returned (Some err)) => (acts ++ deferred, Returned (Some err))
      | (acts, Returned None) =>
          let timeout := Timeout (ProfileTest.Options p) in
          let '(samples, speed, err) := Download link timeout in
          (acts
             ++ [Write (MsgByte index "startspeed" []);
                 GoConsume index samples;
                 CallDownload link timeout]
             ++ (if speed <? 1 then [Write (sentinel index)] else [])
             ++ deferred,
           Returned err)
      end
  end.

(** The goroutine [testAll] starts for one link. *)
Definition worker (id : Z) (link : string) : list action :=
  match testOne id link with
  | (acts, Panicked) => acts
  | (acts, Returned _) => acts ++ [Write (MsgByte id "endone" []); Release]
  end.

(** The goroutine [testOne] starts to consume the samples. *)
Definition consumer (index : Z) (samples : list Z) : list action :=
  map Recv (consume index 0 [] samples).

(** [id] and [link] for the [i]-th round of the dispatch loop. *)
Definition dispatchArgs (i : Z) : option (Z * string) :=
  let o := ProfileTest.Options p in
  if (0 <? List.length (TestIDs o))%nat && (0 <? List.length (Links o))%nat
  then match elem (TestIDs o) i with
       | None => None
       | Some id =>
           match elem (Links o) i with
           | None => None
           | Some link => Some (id, link)
           end
       end
  else Some (i, EmptyString).

Fixpoint gotservers (i : Z) (links : list string) : list action :=
  match links with
  | [] => []
  | link :: links' =>
      Write (GotserverMsg i link (GroupName (ProfileTest.Options p)))
        :: gotservers (i + 1) links'
  end.

(** The second loop of [testAll], from round [i] on, and what follows it. *)
Fixpoint dispatch (i : Z) (links : list string) : list action :=
  match links with
  | [] => [WgWait; Write (MsgByte (-1) "eof" []); Return None]
  | _ :: links' =>
      WgAdd ::
      match dispatchArgs i with
      | None => [Panic]
      | Some (id, link) => Acquire i :: GoTest id link :: dispatch (i + 1) links'
      end
  end.

(** [make(chan int, n)] panics when [n] is negative. *)
Definition testAll : list action :=
  let links := ProfileTest.Links p in
  if (List.length links <? 1)%nat
  then [Write (Text SPEEDTEST_ERROR_NONODES);
        Return (Some (ErrorsNew "no profile found"))]
  else
    Write (MsgByte (-1) "started" [])
      :: gotservers 0 links
      ++ (if Concurrency (ProfileTest.Options p) <? 0 then [Panic]
          else dispatch 0 links).

(** *** The run-time state and its steps *)

Record shared : Type := {
  wg : Z;                         (* the counter of p.wg *)
  guard : Z;                      (* how many values the channel guard holds *)
  cancelled : bool;               (* ctx.Done() is closed *)
  crashed : bool;                 (* a goroutine has panicked *)
  sent : list frame;              (* the frames written, oldest first *)
  called : list string;           (* the links handed to the primitives *)
  returned : option (option error) (* what testAll returned *)
}.

Record state : Type := {
  threads : list (list action);
  mem : shared
}.

Definition with_wg (m : shared) (n : Z) : shared :=
  {| wg := n; guard := guard m; cancelled := cancelled m;
     crashed := crashed m; sent := sent m; called := called m;
     returned := returned m |}.

Definition with_guard (m : shared) (n : Z) : shared :=
  {| wg := wg m; guard := n; cancelled := cancelled m;
     crashed := crashed m; sent := sent m; called := called m;
     returned := returned m |}.

Definition with_cancelled (m : shared) : shared :=
  {| wg := wg m; guard := guard m; cancelled := true;
     crashed := crashed m; sent := sent m; called := called m;
     returned := returned m |}.

Definition with_crashed (m : shared) : shared :=
  {| wg := wg m; guard := guard m; cancelled := cancelled m;
     crashed := true; sent := sent m; called := called m;
     returned := returned m |}.

Definition with_frame (m : shared) (f : frame) : shared :=
  {| wg := wg m; guard := guard m; cancelled := cancelled m;
     crashed := crashed m; sent := sent m ++ [f]; called := called m;
     returned := returned m |}.

Definition with_call (m : shared) (link : string) : shared :=
  {| wg := wg m; guard := guard m; cancelled := cancelled m;
     crashed := crashed m; sent := sent m; called := called m ++ [link];
     returned := returned m |}.

Definition with_returned (m : shared) (err : option error) : shared :=
  {| wg := wg m; guard := guard m; cancelled := cancelled m;
     crashed := crashed m; sent := sent m; called := called m;
     returned := Some err |}.

(** [exec a rest m rest' new m']: a goroutine about to run [a] and then
    [rest] takes one step in memory [m]; it goes on with [rest'], the
    goroutines [new] are started and the memory becomes [m']. *)
Inductive exec : action -> list action -> shared ->
                 list action -> list (list action) -> shared -> Prop :=
| exec_write f rest m :
    exec (Write f) rest m rest [] (with_frame m f)
| exec_add rest m :
    exec WgAdd rest m rest [] (with_wg m (wg m + 1))
| exec_done rest m :
    1 <= wg m ->
    exec WgDone rest m rest [] (with_wg m (wg m - 1))
| exec_done_negative rest m :
    wg m < 1 ->
    exec WgDone rest m [] [] (with_crashed m)
| exec_wait rest m :
    wg m = 0 ->
    exec WgWait rest m rest [] m
| exec_acquire i rest m :
    guard m < Concurrency (ProfileTest.Options p) ->
    exec (Acquire i) rest m rest [] (with_guard m (guard m + 1))
| exec_acquire_cancelled i rest m :
    cancelled m = true ->
    exec (Acquire i) rest m [] [] (with_returned m None)
| exec_go id link rest m :
    exec (GoTest id link) rest m rest [worker id link] m
| exec_release rest m :
    1 <= guard m ->
    exec Release rest m rest [] (with_guard m (guard m - 1))
| exec_consume index samples rest m :
    exec (GoConsume index samples) rest m rest [consumer index samples] m
| exec_recv f rest m :
    exec (Recv f) rest m rest [] (with_frame m f)
| exec_recv_cancelled f rest m :
    cancelled m = true ->
    exec (Recv f) rest m [] [] m
| exec_ping link attempts rest m :
    exec (CallPing link attempts) rest m rest [] (with_call m link)
| exec_download link timeout rest m :
    exec (CallDownload link timeout) rest m rest [] (with_call m link)
| exec_panic rest m :
    exec Panic rest m [] [] (with_crashed m)
| exec_return err rest m :
    exec (Return err) rest m [] [] (with_returned m err).

(** One step of the whole: some goroutine takes a step, or the context is
    cancelled.  Nothing runs once a goroutine has panicked. *)
Inductive step : state -> state -> Prop :=
| step_thread before a rest after m rest' new m' :
    crashed m = false ->
    exec a rest m rest' new m' ->
    step {| threads := before ++ (a :: rest) :: after; mem := m |}
         {| threads := before ++ rest' :: after ++ new; mem := m' |}
| step_cancel ts m :
    crashed m = false ->
    step {| threads := ts; mem := m |}
         {| threads := ts; mem := with_cancelled m |}.

Inductive steps : state -> state -> Prop :=
| steps_refl s : steps s s
| steps_step s1 s2 s3 : steps s1 s2 -> step s2 s3 -> steps s1 s3.

(** The state in which [testAll] is called. *)
Definition init : state :=
  {| threads := [testAll];
     mem := {| wg := 0; guard := 0; cancelled := false; crashed := false;
               sent := []; called := []; returned := None |} |}.

Definition reachable (s : state) : Prop := steps init s.

(** *** Running a schedule

    [exec_fn] is the step a goroutine takes when the context is left alone;
    [run] lets the goroutines named by a schedule take one step each, in
    turn. *)

Definition exec_fn (a : action) (rest : list action) (m : shared)
    : option (list action * list (list action) * shared) :=
  match a with
  | Write f => Some (rest, [], with_frame m f)
  | WgAdd => Some (rest, [], with_wg m (wg m + 1))
  | WgDone =>
      if 1 <=? wg m then Some (rest, [], with_wg m (wg m - 1))
      else Some ([], [], with_crashed m)
  | WgWait => if wg m =? 0 then Some (rest, [], m) else None
  | Acquire _ =>
      if guard m <? Concurrency (ProfileTest.Options p)
      then Some (rest, [], with_guard m (guard m + 1))
      else None
  | GoTest id link => Some (rest, [worker id link], m)
  | Release =>
      if 1 <=? guard m then Some (rest, [], with_guard m (guard m - 1))
      else None
  | GoConsume index samples => Some (rest, [consumer index samples], m)
  | Recv f => Some (rest, [], with_frame m f)
  | CallPing link _ => Some (rest, [], with_call m link)
  | CallDownload link _ => Some (rest, [], with_call m link)
  | Panic => Some ([], [], with_crashed m)
  | Return err => Some ([], [], with_returned m err)
  end.

(** Goroutine number [k] takes a step. *)
Definition run_thread (k : nat) (s : state) : option state :=
  if crashed (mem s) then None
  else
    match nth_error (threads s) k with
    | Some (a :: rest) =>
        match exec_fn a rest (mem s) with
        | Some (rest', new, m') =>
            Some {| threads := firstn k (threads s) ++ rest'
                                 :: skipn (S k) (threads s) ++ new;
                    mem := m' |}
        | None => None
        end
    | _ => None
    end.

Fixpoint run (schedule : list nat) (s : state) : option state :=
  match schedule with
  | [] => Some s
  | k :: schedule' =>
      match run_thread k s with
      | Some s' => run schedule' s'
      | None => None
      end
  end.

(** No goroutine can take a step and the context is not cancelled. *)
Definition stuck (s : state) : Prop :=
  crashed (mem s) = false
  /\ forall k, run_thread k s = None.

End Orchestration.

(** *** Reading the [gotspeed] frames *)

(** [avg] and [max] of a [gotspeed] frame. *)
Definition gotspeed_args (f : frame) : option (Z * Z) :=
  match f with
  | MsgByte _ typ [avg; max; _] =>
      if String.eqb typ "gotspeed" then Some (avg, max) else None
  | _ => None
  end.

Fixpoint gotspeeds (fs : list frame) : list (Z * Z) :=
  match fs with
  | [] => []
  | f :: fs' =>
      match gotspeed_args f with
      | Some am => am :: gotspeeds fs'
      | None => gotspeeds fs'
      end
  end.

Fixpoint nondecreasing (l : list Z) : Prop :=
  match l with
  | x :: ((y :: _) as l') => x <= y /\ nondecreasing l'
  | _ => True
  end.

(** The maxima never go down and every average is between 0 and the
    maximum of its frame. *)
Definition speeds_ordered (fs : list frame) : Prop :=
  nondecreasing (map snd (gotspeeds fs))
  /\ Forall (fun am => 0 <= fst am <= snd am) (gotspeeds fs).

(** The quotient of the sum: [(s_1 + ... + s_n) / n]. *)
Definition quotient_of_sum (speeds : list Z) : Z :=
  fold_right Z.add 0 speeds / Z.of_nat (List.length speeds).

(** The sum of the quotients: [s_1 / n + ... + s_n / n], each rounded down. *)
Definition sum_of_quotients (speeds : list Z) : Z :=
  fold_right Z.add 0
    (map (fun s => s / Z.of_nat (List.length speeds)) speeds).

(** The [n]-th frame of the consumer carries [avg] computed by [f] from the
    first [n] samples. *)
Definition nth_avg_is (f : list Z -> Z) (index : Z) (samples : list Z)
    (n : nat) : Prop :=
  exists max,
    nth_error (consume index 0 [] samples) (n - 1)
    = Some (MsgByte index "gotspeed"
              [f (firstn n samples); max; nth (n - 1) samples 0]).

(** *** Collaborators and batches used as examples *)

(** A probe that times out. *)
Definition ping_fails : string -> Z -> Z * option error :=
  fun _ _ => (0, Some (ErrLib "i/o timeout")).

(** A probe that answers in less than a millisecond. *)
Definition ping_instant : string -> Z -> Z * option error :=
  fun _ _ => (0, None).

(** A probe that answers in 42 milliseconds. *)
Definition ping_42 : string -> Z -> Z * option error :=
  fun _ _ => (42, None).

(** A download that transfers nothing. *)
Definition download_nothing : string -> Z -> list Z * Z * option error :=
  fun _ _ => ([], 0, Some (ErrLib "i/o timeout")).

Definition example_options (mode : string) : ProfileTestOptions :=
  {| GroupName := "Default Group";
     SpeedTestMode := mode;
     PingMethod := "googleping";
     SortMethod := "rspeed";
     Concurrency := 1;
     TestMode := ALLTEST;
     TestIDs := [];
     Timeout := 20 * Second;
     Links := [] |}.

(** A batch of the given links, as the legacy message produces it. *)
Definition example_batch (mode : string) (links : list string)
    : ProfileTest.t :=
  {| ProfileTest.Options := example_options mode;
     ProfileTest.Links := links |}.

(** A server that cannot be reached. *)
Definition offline : string -> result string :=
  fun _ => Err (ErrLib "no route to host").

(** The first byte of a JSON text, white space apart, opens an object, an
    array or a string, or begins a number or one of true, false and null;
    [json.Unmarshal] checks the syntax of the whole text before it stores
    anything. *)
Fixpoint json_value_start (m : string) : bool :=
  match m with
  | EmptyString => false
  | String c m' =>
      if one_of [" "; "009"; "010"; "013"]%char c then json_value_start m'
      else one_of ["{"; "["; "034"; "-"; "t"; "f"; "n"]%char c || is_digit c
  end.

Definition json_syntax_checked
    (json_Unmarshal : string -> result ProfileTestOptions) : Prop :=
  forall m, json_value_start m = false -> exists e, json_Unmarshal m = Err e.

Definition quote : string := String "034"%char EmptyString.

(** A RETEST envelope with the fields testMode 3, concurrency 0, timeout 5,
    testids [0] and links [vmess://abc], and the record [json.Unmarshal]
    stores for it. *)
Definition retest_message : string :=
  ("{" ++ quote ++ "testMode" ++ quote ++ ":3,"
       ++ quote ++ "concurrency" ++ quote ++ ":0,"
       ++ quote ++ "timeout" ++ quote ++ ":5,"
       ++ quote ++ "testids" ++ quote ++ ":[0],"
       ++ quote ++ "links" ++ quote ++ ":[" ++ quote ++ "vmess://abc" ++ quote
       ++ "]}")%string.

Definition retest_envelope : ProfileTestOptions :=
  {| GroupName := EmptyString;
     SpeedTestMode := EmptyString;
     PingMethod := EmptyString;
     SortMethod := EmptyString;
     Concurrency := 0;
     TestMode := 3;
     TestIDs := [0];
     Timeout := 5;
     Links := ["vmess://abc"] |}.

(** A decoder that knows this one envelope. *)
Definition json_example (m : string) : result ProfileTestOptions :=
  if String.eqb m retest_message then Ok retest_envelope
  else Err (ErrLib "invalid character").

(** The example of a legacy message: one link and the options named. *)
Definition legacy_example_parses
    (json_Unmarshal : string -> result ProfileTestOptions)
    (http_Get DecodeB64 : string -> result string)
    (fuel : nat) (message : string) : Prop :=
  exists options,
    parseMessage json_Unmarshal http_Get DecodeB64 fuel message
    = Some (Ok (["vmess://abc"], options))
    /\ GroupName options = "Group1"
    /\ Concurrency options = 3
    /\ Timeout options = 30 * Second
    /\ TestMode options = ALLTEST.

(** *** Statements about one pipeline *)

(** The frames of a pipeline cut short after the probe. *)
Definition ping_only_frames (index elapse : Z) : list frame :=
  [MsgByte index "startping" [];
   MsgByte index "gotping" [elapse];
   sentinel index;
   MsgByte index "endone" []].

(** Every link that [testOne], called without a link, hands to the probe or
    to the download is the stored link up to its first [^]. *)
Definition probes_only_prefix
    (PingLink : string -> Z -> Z * option error)
    (Download : string -> Z -> list Z * Z * option error)
    (p : ProfileTest.t) (index : Z) : Prop :=
  forall stored,
    elem (ProfileTest.Links p) index = Some stored ->
    Forall (fun link => link = fst (cut "^" stored))
      (probed (fst (testOne PingLink Download p index EmptyString))).

(** Every round of the dispatch loop finds its id and its link. *)
Definition dispatch_in_bounds (p : ProfileTest.t) : Prop :=
  forall i, 0 <= i < Z.of_nat (List.length (ProfileTest.Links p)) ->
            dispatchArgs p i <> None.

(** A RETEST envelope with two links and one id, as decoded. *)
Definition short_ids_envelope : ProfileTestOptions :=
  {| GroupName := "G";
     SpeedTestMode := PingOnly;
     PingMethod := EmptyString;
     SortMethod := EmptyString;
     Concurrency := 2;
     TestMode := 3;
     TestIDs := [7];
     Timeout := 30;
     Links := ["ss://a@h:80#x"; "ss://b@h:80#y"] |}.

(** The batch made of that envelope once parsed. *)
Definition short_ids_batch : ProfileTest.t :=
  {| ProfileTest.Options :=
       {| GroupName := "G"; SpeedTestMode := PingOnly;
          PingMethod := EmptyString; SortMethod := EmptyString;
          Concurrency := 2; TestMode := RETEST; TestIDs := [7];
          Timeout := 30 * Second;
          Links := ["ss://a@h:80#x"; "ss://b@h:80#y"] |};
     ProfileTest.Links := ["ss://a@h:80#x"; "ss://b@h:80#y"] |}.

(** The text of that envelope, and a decoder that knows it. *)
Definition short_ids_message : string :=
  ("{" ++ quote ++ "group" ++ quote ++ ":" ++ quote ++ "G" ++ quote ++ ","
       ++ quote ++ "speedtestMode" ++ quote ++ ":"
       ++ quote ++ "pingonly" ++ quote ++ ","
       ++ quote ++ "concurrency" ++ quote ++ ":2,"
       ++ quote ++ "testMode" ++ quote ++ ":3,"
       ++ quote ++ "testids" ++ quote ++ ":[7],"
       ++ quote ++ "timeout" ++ quote ++ ":30,"
       ++ quote ++ "links" ++ quote ++ ":["
       ++ quote ++ "ss://a@h:80#x" ++ quote ++ ","
       ++ quote ++ "ss://b@h:80#y" ++ quote ++ "]}")%string.

Definition json_short_ids (m : string) : result ProfileTestOptions :=
  if String.eqb m short_ids_message then Ok short_ids_envelope
  else Err (ErrLib "invalid character").

(** *** Invariants of a run *)

Definition eof : frame := MsgByte (-1) "eof" [].

Definition no_eof (fs : list frame) : Prop := existsb is_eof fs = false.

(** An action that neither writes [eof] nor lowers the counter of [p.wg],
    and starts pipelines for explicit links only. *)
Definition clean_action (a : action) : Prop :=
  match a with
  | WgDone => False
  | Write f => is_eof f = false
  | Recv f => is_eof f = false
  | GoTest _ link => link <> EmptyString
  | _ => True
  end.

Definition clean (t : list action) : Prop := Forall clean_action t.

(** The end of [testAll]. *)
Definition closing : list action := [WgWait; Write eof; Return None].

(** With the counter at [n], the goroutine [t] writes [eof] only after a
    [p.wg.Wait()] that finds the counter at 1 or more. *)
Definition guarded (n : Z) (t : list action) : Prop :=
  clean t
  \/ exists pre, t = pre ++ closing /\ clean pre /\ (1 <= n \/ In WgAdd pre).

(** What holds all along a run that never writes [eof]. *)
Definition never_eof_inv (s : state) : Prop :=
  no_eof (sent (mem s))
  /\ 0 <= wg (mem s)
  /\ Forall (guarded (wg (mem s))) (threads s).

(** A RETEST batch: two links, addressed by the ids 2 and 5. *)
Definition retest_batch : ProfileTest.t :=
  {| ProfileTest.Options :=
       {| GroupName := "Default Group";
          SpeedTestMode := PingOnly;
          PingMethod := EmptyString;
          SortMethod := EmptyString;
          Concurrency := 2;
          TestMode := RETEST;
          TestIDs := [2; 5];
          Timeout := 20 * Second;
          Links := ["ss://x"; "trojan://y"] |};
     ProfileTest.Links := ["ss://x"; "trojan://y"] |}.

(** The scheduler first, then each pipeline to its end. *)
Definition retest_schedule : list nat :=
  [0; 0; 0; 0; 0; 0; 0; 0; 0; 1; 1; 1; 1; 1; 1; 2; 2; 2; 2; 2; 2]%nat.

(** Where that schedule leaves the RETEST batch: both pipelines are over,
    the counter of [p.wg] is still 2 and [testAll] waits. *)
Definition retest_blocked : state :=
  {| threads := [closing; []; []];
     mem :=
       {| wg := 2; guard := 0; cancelled := false; crashed := false;
          sent :=
            [MsgByte (-1) "started" [];
             GotserverMsg 0 "ss://x" "Default Group";
             GotserverMsg 1 "trojan://y" "Default Group";
             MsgByte 2 "startping" [];
             MsgByte 2 "gotping" [42];
             sentinel 2;
             MsgByte 2 "endone" [];
             MsgByte 5 "startping" [];
             MsgByte 5 "gotping" [42];
             sentinel 5;
             MsgByte 5 "endone" []];
          called := ["ss://x"; "trojan://y"];
          returned := None |} |}.

(** A schedule for a batch of one link without explicit ids, in which
    [testAll] goes on as soon as [testOne] has returned. *)
Definition racy_schedule : list nat :=
  [0; 0; 0; 0; 0; 1; 1; 1; 1; 1; 1; 1; 1; 0; 0; 0; 1; 1]%nat.

(** *** The shape of the links [parseLinks] returns *)

Fixpoint all_chars (q : ascii -> bool) (s : string) : bool :=
  match s with
  | EmptyString => true
  | String c s' => q c && all_chars q s'
  end.

Fixpoint any_char (q : ascii -> bool) (s : string) : bool :=
  match s with
  | EmptyString => false
  | String c s' => q c || any_char q s'
  end.

(** [scheme://credential@host:port] followed by [?] or [#] and a non-empty
    run of characters that are not white space; the scheme is ss or trojan,
    in any case; the port has 2 to 5 digits. *)
Definition cred_form (l : string) : Prop :=
  exists scheme cred host port c rest,
    l = (scheme ++ "://" ++ cred ++ "@" ++ host ++ ":" ++ port
           ++ String c rest)%string
    /\ lang (Alt (ilit "ss") (ilit "trojan")) scheme
    /\ cred <> EmptyString
    /\ host <> EmptyString
    /\ (2 <= String.length port <= 5)%nat
    /\ all_chars is_digit port = true
    /\ (c = "?"%char \/ c = "#"%char)
    /\ rest <> EmptyString
    /\ all_chars nonspace rest = true.

(** A vmess or ssr link: the scheme, in any case, [://] and a token. *)
Definition token_form (l : string) : Prop := lang token_re l.

(** *** Fields of a legacy message *)

Fixpoint count_char (c : ascii) (s : string) : nat :=
  match s with
  | EmptyString => 0%nat
  | String x s' => ((if Ascii.eqb x c then 1 else 0) + count_char c s')%nat
  end.

Definition no_caret (s : string) : bool :=
  all_chars (fun c => negb (Ascii.eqb c "^")) s.

(** The fields, with a [^] between two of them. *)
Definition join (fields : list string) : string := String.concat "^" fields.

(** The options [parseOptions] builds from its fields. *)
Definition legacy_options (group mode ping sort : string) (concurrency timeout : Z)
    : ProfileTestOptions :=
  {| GroupName := default_group group;
     SpeedTestMode := mode;
     PingMethod := ping;
     SortMethod := sort;
     Concurrency := Z.max 1 concurrency;
     TestMode := ALLTEST;
     TestIDs := [];
     Timeout := wrap64 (Z.max 20 timeout * Second);
     Links := [] |}.

(** The options [parseRetestMessage] builds from a decoded envelope. *)
Definition retest_options (decoded : ProfileTestOptions) : ProfileTestOptions :=
  {| GroupName := default_group (GroupName decoded);
     SpeedTestMode := SpeedTestMode decoded;
     PingMethod := PingMethod decoded;
     SortMethod := SortMethod decoded;
     Concurrency := Z.max 1 (Concurrency decoded);
     TestMode := RETEST;
     TestIDs := TestIDs decoded;
     Timeout := Z.max 20 (wrap64 (Timeout decoded * Second));
     Links := Links decoded |}.

(** A decoder that takes nothing for a RETEST envelope. *)
Definition json_rejects : string -> result ProfileTestOptions :=
  fun _ => Err (ErrLib "invalid character").

(** A decoder that reads every text as the envelope [decoded]. *)
Definition json_reads (decoded : ProfileTestOptions)
    : string -> result ProfileTestOptions :=
  fun _ => Ok decoded.

(** The links occur in the text one after the other, without overlap. *)
Inductive in_order : list string -> string -> Prop :=
| in_order_nil s : in_order [] s
| in_order_cons gap m rest ms :
    in_order ms rest -> in_order (m :: ms) (gap ++ m ++ rest)%string.

(** The text [s] begins with [pre]. *)
Fixpoint starts_with (pre s : string) : bool :=
  match pre with
  | EmptyString => true
  | String c pre' =>
      match s with
      | EmptyString => false
      | String d s' => Ascii.eqb c d && starts_with pre' s'
      end
  end.

(** *** The frames of the consumer, one by one *)

(** The samples up to the first negative one. *)
Fixpoint nonneg_prefix (samples : list Z) : list Z :=
  match samples with
  | [] => []
  | s :: samples' => if s <? 0 then [] else s :: nonneg_prefix samples'
  end.

(** The largest of the samples, or 0. *)
Definition running_max (speeds : list Z) : Z := fold_left Z.max speeds 0.

(** The frame written after the samples [speeds], the last one being the
    current one. *)
Definition consumer_frame (index : Z) (speeds : list Z) : frame :=
  MsgByte index "gotspeed"
    [average speeds; running_max speeds; last speeds 0].

(** *** The actions of one pipeline *)

(** What [testOne] may do for the pipeline [id]: write one of its four kinds
    of frames, start the consumer, call the probe twice at most or the
    download with the timeout of the batch, and lower the counter. *)
Definition pipeline_action (p : ProfileTest.t) (id : Z) (a : action) : Prop :=
  match a with
  | Write (MsgByte i typ _) =>
      i = id
      /\ (typ = "startping" \/ typ = "gotping" \/ typ = "gotspeed"
          \/ typ = "startspeed")
  | GoConsume i _ => i = id
  | CallPing _ attempts => attempts = 2
  | CallDownload _ timeout => timeout = Timeout (ProfileTest.Options p)
  | WgDone => True
  | _ => False
  end.

Definition is_done (a : action) : bool :=
  match a with
  | WgDone => true
  | _ => false
  end.

Definition typ_of (f : frame) : string :=
  match f with
  | MsgByte _ typ _ => typ
  | GotserverMsg _ _ _ => "gotserver"
  | Text _ => "error"
  end.

(** [l] is [order] with some of its elements left out. *)
Fixpoint subseq (l order : list string) : bool :=
  match l, order with
  | [], _ => true
  | _ :: _, [] => false
  | x :: l', y :: order' =>
      if String.eqb x y then subseq l' order' else subseq l order'
  end.

(** The kinds of frames of a pipeline, in the order in which they can come. *)
Definition pipeline_order : list string :=
  ["startping"; "gotping"; "gotspeed"; "startspeed"; "gotspeed"; "endone"].

(** A download that sends three samples and ends at 250 bytes a second. *)
Definition download_three : string -> Z -> list Z * Z * option error :=
  fun _ _ => ([100; 300; 200], 250, None).

(** *** Counting along a run

    Each action still to be run is given a weight; the weights of a thread
    and of all threads are added up. *)

Definition total (weight : action -> Z) (t : list action) : Z :=
  fold_right (fun a acc => weight a + acc) 0 t.

Definition total_all (weight : action -> Z) (ts : list (list action)) : Z :=
  fold_right (fun t acc => total weight t + acc) 0 ts.

(** Whatever is left of [t] after some steps has a total of 0 or more. *)
Fixpoint covered (weight : action -> Z) (t : list action) : Prop :=
  match t with
  | [] => True
  | a :: t' => 0 <= total weight (a :: t') /\ covered weight t'
  end.

Definition is_endone (f : frame) : bool :=
  match f with
  | MsgByte _ typ _ => String.eqb typ "endone"
  | _ => false
  end.

Definition count_frames (q : frame -> bool) (fs : list frame) : Z :=
  Z.of_nat (List.length (filter q fs)).

(** An [eof] frame still to be written. *)
Definition eof_weight (a : action) : Z :=
  match a with
  | Write f => if is_eof f then 1 else 0
  | Recv f => if is_eof f then 1 else 0
  | _ => 0
  end.

(** An [endone] frame still to be written, or a pipeline still to be
    started. *)
Definition endone_weight (a : action) : Z :=
  match a with
  | Write f => if is_endone f then 1 else 0
  | Recv f => if is_endone f then 1 else 0
  | GoTest _ _ => 1
  | _ => 0
  end.

(** A token of the channel [guard] still to be given back, or held for a
    pipeline still to be started; an acquisition still to come owes one. *)
Definition token_weight (a : action) : Z :=
  match a with
  | Release => 1
  | GoTest _ _ => 1
  | Acquire _ => -1
  | _ => 0
  end.

(** A [p.wg.Done()] still to come, from a pipeline running or still to be
    started without a link; a [p.wg.Add(1)] still to come owes one. *)
Definition done_weight (a : action) : Z :=
  match a with
  | WgDone => 1
  | WgAdd => -1
  | GoTest _ link => if String.eqb link EmptyString then 1 else 0
  | _ => 0
  end.

Definition has_release (t : list action) : bool :=
  existsb (fun a => match a with Release => true | _ => false end) t.

(** The pipelines that hold a token of [guard]. *)
Definition active (s : state) : Z :=
  Z.of_nat (List.length (filter has_release (threads s))).

(** A thread that acquires no token and starts no pipeline, or one that gives
    no token back. *)
Definition one_sided (t : list action) : Prop :=
  Forall (fun a => match a with Acquire _ | GoTest _ _ => False | _ => True end) t
  \/ Forall (fun a => match a with Release => False | _ => True end) t.

(** A thread that does not panic and starts pipelines without a link only,
    for ids inside the batch. *)
Definition calm (p : ProfileTest.t) (t : list action) : Prop :=
  Forall (fun a =>
            match a with
            | Panic => False
            | GoTest id link =>
                link = EmptyString /\ elem (ProfileTest.Links p) id <> None
            | _ => True
            end) t.

(** The frames every run of a non-empty batch begins with: [started], then
    one [gotserver] for each link, in the order of the links. *)
Fixpoint gotserver_frames (group : string) (i : Z) (links : list string)
    : list frame :=
  match links with
  | [] => []
  | link :: links' =>
      GotserverMsg i link group :: gotserver_frames group (i + 1) links'
  end.

Definition header (p : ProfileTest.t) : list frame :=
  MsgByte (-1) "started" []
    :: gotserver_frames (GroupName (ProfileTest.Options p)) 0
         (ProfileTest.Links p).

(** *** What is left to do once eof is written *)

(** Nothing is left but to write [endone], give the token back, take samples
    or return. *)
Definition settled (t : list action) : Prop :=
  Forall (fun a =>
            match a with
            | Write f => is_endone f = true
            | Recv f => is_eof f = false
            | Release => True
            | Return _ => True
            | _ => False
            end) t.

(** An action of a pipeline or of a consumer. *)
Definition quiet (a : action) : Prop :=
  match a with
  | Write f => is_eof f = false
  | Recv f => is_eof f = false
  | WgAdd => False
  | WgWait => False
  | Acquire _ => False
  | GoTest _ _ => False
  | _ => True
  end.

(** Every action is quiet and what follows a [p.wg.Done()] is settled. *)
Fixpoint winding (t : list action) : Prop :=
  match t with
  | [] => True
  | a :: t' => quiet a /\ winding t' /\ (a = WgDone -> settled t')
  end.

(** A pipeline started without a link, or a consumer: it still has to lower
    the counter, or it is settled. *)
Definition pipeline_thread (t : list action) : Prop :=
  winding t /\ (existsb is_done t = true \/ settled t).

(** An action of [testAll] before it waits, when it starts pipelines without
    a link only, for ids inside the batch. *)
Definition quiet_main (p : ProfileTest.t) (a : action) : Prop :=
  match a with
  | Write f => is_eof f = false
  | Recv f => is_eof f = false
  | WgWait => False
  | GoTest id link =>
      link = EmptyString /\ elem (ProfileTest.Links p) id <> None
  | _ => True
  end.

(** The batch of one link without explicit ids, when [testAll] has written
    eof and returned and the pipeline has still to write endone. *)
Definition eof_written : state :=
  {| threads := [[]; [Write (MsgByte 0 "endone" []); Release]; []];
     mem :=
       {| wg := 0;
          guard := 1;
          cancelled := false;
          crashed := false;
          sent := [MsgByte (-1) "started" [];
                   GotserverMsg 0 "vmess://abc" "Default Group";
                   MsgByte 0 "startping" [];
                   MsgByte 0 "gotping" [42];
                   MsgByte 0 "startspeed" [];
                   sentinel 0;
                   eof];
          called := ["vmess://abc"; "vmess://abc"];
          returned := Some None |} |}.

(** *** A run in which the pipelines take turns *)

(** The frames a goroutine writes when it runs to its end and each consumer
    it starts takes all its samples as soon as it is started. *)
Fixpoint served (t : list action) : list frame :=
  match t with
  | [] => []
  | Write f :: t' => f :: served t'
  | Recv f :: t' => f :: served t'
  | GoConsume index samples :: t' => consume index 0 [] samples ++ served t'
  | _ :: t' => served t'
  end.

(** The frames of the pipelines of [links], numbered from [i] and started
    without a link, one pipeline after the other. *)
Fixpoint serial (PingLink : string -> Z -> Z * option error)
    (Download : string -> Z -> list Z * Z * option error)
    (p : ProfileTest.t) (i : Z) (links : list string) : list frame :=
  match links with
  | [] => []
  | _ :: links' =>
      served (worker PingLink Download p i EmptyString)
        ++ serial PingLink Download p (i + 1) links'
  end.

(** An action of a pipeline that returns, or of a consumer. *)
Definition pipeline_step (a : action) : Prop :=
  match a with
  | Write _ => True
  | Recv _ => True
  | CallPing _ _ => True
  | CallDownload _ _ => True
  | GoConsume _ _ => True
  | WgDone => True
  | Release => True
  | _ => False
  end.

(** From [m] to [m'] the counter has been lowered [dones] times, [tokens]
    tokens have been given back and the frames [fs] have been written. *)
Definition extends (m m' : shared) (dones tokens : Z) (fs : list frame)
    : Prop :=
  wg m' = wg m - dones
  /\ guard m' = guard m - tokens
  /\ crashed m' = crashed m
  /\ returned m' = returned m
  /\ sent m' = sent m ++ fs.

End Web.

(** * Properties *)

Import GoStrings.
Import Regexp.
Import Web.

(** ** The consumer of samples *)

Lemma sum_quot_bounds (n m : Z) (l : list Z) :
  1 <= n -> 0 <= m ->
  Forall (fun s => 0 <= s <= m) l ->
  0 <= fold_right Z.add 0 (map (fun s => s / n) l)
    <= Z.of_nat (List.length l) * (m / n).
Proof.
  intros Hn Hm H. induction H as [|s l [Hs0 Hsm] _ IH].
  - simpl. lia.
  - cbn [map fold_right List.length].
    assert (0 <= s / n) by (apply Z.div_pos; lia).
    assert (s / n <= m / n) by (apply Z.div_le_mono; lia).
    lia.
Qed.

Lemma fold_avg_exact (n : Z) (l : list Z) :
  1 <= n ->
  forall acc,
    Forall (fun s => 0 <= s) l ->
    0 <= acc ->
    acc + fold_right Z.add 0 (map (fun s => s / n) l) <= maxInt64 ->
    fold_left (fun avg s => wrap64 (avg + Z.quot s n)) l acc
    = acc + fold_right Z.add 0 (map (fun s => s / n) l).
Proof.
  intros Hn. induction l as [|s l IH]; intros acc Hl Hacc Hsum.
  - simpl. lia.
  - inversion Hl as [|? ? Hs Hl']; subst.
    cbn [map fold_right] in *. cbn [fold_left].
    assert (Hq : Z.quot s n = s / n) by (apply Z.quot_div_nonneg; lia).
    assert (0 <= s / n) by (apply Z.div_pos; lia).
    assert (Hrest : 0 <= fold_right Z.add 0 (map (fun s => s / n) l)).
    { clear - Hl' Hn. induction Hl'; simpl; [lia|].
      assert (0 <= x / n) by (apply Z.div_pos; lia). lia. }
    rewrite Hq.
    assert (Hw : wrap64 (acc + s / n) = acc + s / n).
    { unfold wrap64. unfold maxInt64 in Hsum.
      rewrite Z.mod_small; lia. }
    rewrite Hw, IH; try assumption; lia.
Qed.

Lemma average_sum_of_quotients (speeds : list Z) :
  Forall (fun s => 0 <= s <= maxInt64) speeds ->
  average speeds = sum_of_quotients speeds.
Proof.
  intros H. unfold average, sum_of_quotients.
  destruct speeds as [|s0 l0] eqn:E; [reflexivity|]. rewrite <- E in *.
  assert (Hn : 1 <= Z.of_nat (List.length speeds)) by (subst; simpl; lia).
  pose proof (sum_quot_bounds (Z.of_nat (List.length speeds)) maxInt64 speeds
                Hn ltac:(unfold maxInt64; lia) H) as [_ Hb].
  assert (Z.of_nat (List.length speeds)
          * (maxInt64 / Z.of_nat (List.length speeds)) <= maxInt64)
    by (apply Z.mul_div_le; lia).
  rewrite fold_avg_exact; try lia.
  eapply Forall_impl; [|exact H]. simpl. lia.
Qed.

Lemma consume_nth (received : list Z) :
  forall index max speeds k,
    Forall (fun s => 0 <= s) received ->
    (k < List.length received)%nat ->
    exists max',
      nth_error (consume index max speeds received) k
      = Some (MsgByte index "gotspeed"
                [average (speeds ++ firstn (S k) received); max';
                 nth k received 0]).
Proof.
  induction received as [|s received IH]; intros index max speeds k Hpos Hk.
  - simpl in Hk. lia.
  - inversion Hpos as [|? ? Hs Hpos']; subst.
    cbn [consume]. destruct (s <? 0) eqn:E; [apply Z.ltb_lt in E; lia|].
    destruct k as [|k].
    + eexists. reflexivity.
    + cbn [nth_error nth]. simpl in Hk.
      destruct (IH index (if max <? s then s else max) (speeds ++ [s]) k Hpos'
                  ltac:(lia)) as [max' Hn].
      exists max'. rewrite Hn. cbn [firstn].
      rewrite <- app_assoc. reflexivity.
Qed.

Lemma Forall_firstn_le {A : Type} (P : A -> Prop) (n : nat) (l : list A) :
  Forall P l -> Forall P (firstn n l).
Proof.
  intros H. rewrite <- (firstn_skipn n l) in H.
  apply Forall_app in H. tauto.
Qed.

(** C3, as amended: for samples that are non-negative 64-bit integers, the
    avg of the n-th gotspeed frame is the sum of the quotients
    s_1 / n + ... + s_n / n, each term rounded down on its own. *)
Theorem consumer_avg_sum_of_quotients (index : Z) (samples : list Z) (n : nat) :
  Forall (fun s => 0 <= s <= maxInt64) samples ->
  (1 <= n <= List.length samples)%nat ->
  nth_avg_is sum_of_quotients index samples n.
Proof.
  intros Hs Hn. unfold nth_avg_is.
  destruct (consume_nth samples index 0 [] (n - 1)) as [max Hk].
  - eapply Forall_impl; [|exact Hs]. simpl. lia.
  - lia.
  - exists max. rewrite Hk.
    replace (S (n - 1)) with n by lia. cbn [app].
    rewrite average_sum_of_quotients by (apply Forall_firstn_le; exact Hs).
    reflexivity.
Qed.

Lemma consumer_avg_sum_of_quotients_witness :
  Forall (fun s => 0 <= s <= maxInt64) [1; 1]
  /\ (1 <= 2 <= List.length [1; 1])%nat
  /\ nth_avg_is sum_of_quotients 0 [1; 1] 2.
Proof.
  assert (H1 : Forall (fun s => 0 <= s <= maxInt64) [1; 1])
    by (repeat constructor; unfold maxInt64; lia).
  assert (H2 : (1 <= 2 <= List.length [1; 1])%nat) by (simpl; lia).
  split; [exact H1|]. split; [exact H2|].
  exact (consumer_avg_sum_of_quotients 0 [1; 1] 2 H1 H2).
Defined.

(** C3, as stated, fails: after the samples 1 and 1 the second gotspeed frame
    carries avg 0, and the quotient of the sum (1 + 1) / 2 is 1. *)
Lemma consumer_avg_not_quotient_of_sum :
  ~ nth_avg_is quotient_of_sum 0 [1; 1] 2.
Proof.
  intros [max H]. vm_compute in H. inversion H.
Qed.

(** ** Order of the gotspeed frames *)

Lemma sum_of_quotients_le_max (m : Z) (speeds : list Z) :
  0 <= m ->
  Forall (fun s => 0 <= s <= m) speeds ->
  0 <= sum_of_quotients speeds <= m.
Proof.
  intros Hm H. unfold sum_of_quotients.
  destruct speeds as [|s0 l0] eqn:E; [simpl; lia|]. rewrite <- E in *.
  assert (Hn : 1 <= Z.of_nat (List.length speeds)) by (subst; simpl; lia).
  pose proof (sum_quot_bounds _ m speeds Hn Hm H) as [H0 Hb].
  assert (Z.of_nat (List.length speeds)
          * (m / Z.of_nat (List.length speeds)) <= m)
    by (apply Z.mul_div_le; lia).
  lia.
Qed.

Lemma consume_ordered (received : list Z) :
  forall index max speeds,
    0 <= max <= maxInt64 ->
    Forall (fun s => 0 <= s <= max) speeds ->
    Forall inInt64 received ->
    nondecreasing (max :: map snd (gotspeeds (consume index max speeds received)))
    /\ Forall (fun am => 0 <= fst am <= snd am)
         (gotspeeds (consume index max speeds received)).
Proof.
  induction received as [|s received IH]; intros index max speeds Hmax Hsp Hrec.
  - simpl. split; [exact I | constructor].
  - inversion Hrec as [|? ? [_ Hs] Hrec']; subst.
    cbn [consume]. destruct (s <? 0) eqn:E.
    + simpl. split; [exact I | constructor].
    + apply Z.ltb_ge in E.
      set (max' := if max <? s then s else max).
      assert (Hmax' : 0 <= max' <= maxInt64 /\ max <= max' /\ s <= max').
      { unfold max'. destruct (max <? s) eqn:L;
          [apply Z.ltb_lt in L | apply Z.ltb_ge in L]; lia. }
      assert (Hsp' : Forall (fun x => 0 <= x <= max') (speeds ++ [s])).
      { apply Forall_app. split.
        - eapply Forall_impl; [|exact Hsp]. simpl. lia.
        - repeat constructor; lia. }
      destruct (IH index max' (speeds ++ [s]) ltac:(lia) Hsp' Hrec')
        as [Hnd Hav].
      cbn [gotspeeds gotspeed_args]. cbn [String.eqb Ascii.eqb Bool.eqb].
      cbn [map snd]. split.
      * split; [lia | exact Hnd].
      * constructor; [|exact Hav]. cbn [fst snd].
        rewrite average_sum_of_quotients.
        -- apply sum_of_quotients_le_max; [lia | exact Hsp'].
        -- eapply Forall_impl; [|exact Hsp']. simpl. lia.
Qed.

(** C5, as amended: in the gotspeed frames the consumer writes for the
    samples of one link, the max values never decrease and every avg lies
    between 0 and the max of its frame; the sentinel frame is left aside. *)
Theorem consumer_speeds_ordered (index : Z) (samples : list Z) :
  Forall inInt64 samples ->
  speeds_ordered (consume index 0 [] samples).
Proof.
  intros H.
  destruct (consume_ordered samples index 0 [] ltac:(unfold maxInt64; lia)
              ltac:(constructor) H) as [Hnd Hav].
  split; [|exact Hav].
  destruct (map snd (gotspeeds (consume index 0 [] samples))); [exact I|].
  apply Hnd.
Qed.

Lemma consumer_speeds_ordered_witness :
  Forall inInt64 [3; 10; 4]
  /\ speeds_ordered (consume 7 0 [] [3; 10; 4]).
Proof.
  assert (H : Forall inInt64 [3; 10; 4])
    by (repeat constructor; unfold minInt64, maxInt64; lia).
  split; [exact H|].
  exact (consumer_speeds_ordered 7 [3; 10; 4] H).
Defined.

(** C5, as stated, fails: the pipeline of a link whose probe times out writes
    the sentinel gotspeed frame, whose avg is -1. *)
Lemma pipeline_sentinel_not_ordered :
  ~ speeds_ordered
      (frames (worker ping_fails download_nothing
                 (example_batch EmptyString ["vmess://abc"]) 0 EmptyString)).
Proof.
  intros [_ H]. vm_compute in H. inversion H as [|? ? [H0 _] _]; subst.
  apply H0. reflexivity.
Qed.

(** ** Parsing *)

Section ParsingFacts.

Variable json_Unmarshal : string -> result ProfileTestOptions.
Variables http_Get DecodeB64 : string -> result string.

Lemma parseRetestMessage_floors (message : string) links options :
  parseRetestMessage json_Unmarshal message = Ok (links, options) ->
  TestMode options = RETEST
  /\ links = Links options
  /\ 1 <= Concurrency options
  /\ 20 <= Timeout options.
Proof.
  unfold parseRetestMessage.
  destruct (json_Unmarshal message) as [o|e]; [|discriminate].
  destruct (negb (TestMode o =? RETEST)); [discriminate|].
  intros H. inversion H; subst; clear H. cbn.
  repeat split.
  - destruct (Concurrency o <? 1) eqn:E;
      [lia | apply Z.ltb_ge in E; lia].
  - destruct (wrap64 (Timeout o * Second) <? 20) eqn:E;
      [lia | apply Z.ltb_ge in E; lia].
Qed.

(** A requested timeout of 1 to 19 seconds survives the RETEST path. *)
Lemma parseRetestMessage_keeps_short_timeout (message : string) decoded :
  json_Unmarshal message = Ok decoded ->
  TestMode decoded = RETEST ->
  1 <= Timeout decoded < 20 ->
  exists options,
    parseRetestMessage json_Unmarshal message = Ok (Links decoded, options)
    /\ Timeout options = Timeout decoded * Second
    /\ Timeout options < 20 * Second.
Proof.
  intros Hjson Hmode Ht. unfold parseRetestMessage. rewrite Hjson, Hmode.
  cbn [Z.eqb RETEST negb].
  assert (Hw : wrap64 (Timeout decoded * Second) = Timeout decoded * Second).
  { unfold wrap64, Second. rewrite Z.mod_small; lia. }
  rewrite Hw.
  assert (Hge : (Timeout decoded * Second <? 20) = false)
    by (apply Z.ltb_ge; unfold Second; lia).
  rewrite Hge. eexists. split; [reflexivity|]. cbn. unfold Second. lia.
Qed.

Lemma parseOptions_floors (message : string) options :
  parseOptions message = Ok options ->
  TestMode options = ALLTEST
  /\ 1 <= Concurrency options
  /\ exists timeout, 20 <= timeout <= maxInt64
                     /\ Timeout options = wrap64 (timeout * Second).
Proof.
  unfold parseOptions.
  destruct (List.length (Split "^" message) <? 7)%nat; [discriminate|].
  destruct (Atoi (nth 5 (Split "^" message) EmptyString)) as [c|] eqn:Ec;
    [|discriminate].
  destruct (Atoi (nth 6 (Split "^" message) EmptyString)) as [t|] eqn:Et;
    [|discriminate].
  intros H. inversion H; subst; clear H. cbn.
  assert (Ht : t <= maxInt64).
  { revert Et. unfold Atoi.
    destruct (match nth 6 (Split "^" message) EmptyString with
              | String "+"%char r => (false, r)
              | String "-"%char r => (true, r)
              | _ => (false, nth 6 (Split "^" message) EmptyString)
              end) as [neg body].
    destruct body; [discriminate|].
    destruct (parse_digits 0 (String a body)); [|discriminate].
    destruct ((minInt64 <=? (if neg then - z else z))
              && ((if neg then - z else z) <=? maxInt64)) eqn:E;
      [|discriminate].
    intros H. inversion H; subst.
    apply andb_prop in E. destruct E as [_ E]. apply Z.leb_le in E. exact E. }
  repeat split.
  - destruct (c <? 1) eqn:E; [lia | apply Z.ltb_ge in E; lia].
  - exists (if t <? 20 then 20 else t). split; [|reflexivity].
    unfold maxInt64 in *.
    destruct (t <? 20) eqn:E; [lia | apply Z.ltb_ge in E; lia].
Qed.

Lemma parseLinks_vmess_abc (fuel : nat) :
  parseLinks http_Get DecodeB64 (S fuel) "vmess://abc"
  = Some (Ok ["vmess://abc"]).
Proof. reflexivity. Qed.

Lemma parseOptions_six_fields :
  parseOptions "Group1^^^^3^30" = Err ErrInvalidData.
Proof. reflexivity. Qed.

Lemma parseOptions_seven_fields :
  parseOptions "Group1^^^^^3^30"
  = Ok {| GroupName := "Group1"; SpeedTestMode := EmptyString;
          PingMethod := EmptyString; SortMethod := EmptyString;
          Concurrency := 3; TestMode := ALLTEST; TestIDs := [];
          Timeout := 30 * Second; Links := [] |}.
Proof. reflexivity. Qed.

(** C4, as amended: with a decoder that rejects what is not JSON, the message
    "vmess://abc^Group1^^^^3^30" is refused as invalid data, its parameter
    segment having six fields; with seven fields,
    "vmess://abc^Group1^^^^^3^30", parseMessage yields exactly the link
    "vmess://abc" and groupName "Group1", concurrency 3, timeout 30 seconds,
    testMode ALL. *)
Theorem parseMessage_legacy_example (fuel : nat) :
  json_syntax_checked json_Unmarshal ->
  parseMessage json_Unmarshal http_Get DecodeB64 (S fuel)
    "vmess://abc^Group1^^^^3^30" = Some (Err ErrInvalidData)
  /\ legacy_example_parses json_Unmarshal http_Get DecodeB64 (S fuel)
       "vmess://abc^Group1^^^^^3^30".
Proof.
  intros Hjson. split.
  - destruct (Hjson "vmess://abc^Group1^^^^3^30" eq_refl) as [e He].
    unfold parseMessage, parseRetestMessage. rewrite He.
    change (SplitN2 "^" "vmess://abc^Group1^^^^3^30")
      with ["vmess://abc"; "Group1^^^^3^30"].
    cbv beta iota.
    rewrite parseLinks_vmess_abc, parseOptions_six_fields. reflexivity.
  - destruct (Hjson "vmess://abc^Group1^^^^^3^30" eq_refl) as [e He].
    unfold legacy_example_parses, parseMessage, parseRetestMessage.
    rewrite He.
    change (SplitN2 "^" "vmess://abc^Group1^^^^^3^30")
      with ["vmess://abc"; "Group1^^^^^3^30"].
    cbv beta iota.
    rewrite parseLinks_vmess_abc, parseOptions_seven_fields.
    eexists. split; [reflexivity|]. repeat split.
Qed.

End ParsingFacts.

Lemma json_example_syntax_checked : json_syntax_checked json_example.
Proof.
  intros m Hm. unfold json_example.
  destruct (String.eqb m retest_message) eqn:E.
  - apply String.eqb_eq in E. subst m. discriminate Hm.
  - eexists. reflexivity.
Qed.

Lemma parseMessage_legacy_example_witness :
  json_syntax_checked json_example
  /\ parseMessage json_example offline offline 1
       "vmess://abc^Group1^^^^3^30" = Some (Err ErrInvalidData)
  /\ legacy_example_parses json_example offline offline 1
       "vmess://abc^Group1^^^^^3^30".
Proof.
  split; [exact json_example_syntax_checked|].
  exact (parseMessage_legacy_example json_example offline offline 0
           json_example_syntax_checked).
Defined.

(** C4, as stated, fails: whatever the decoder, the servers and the number
    of fetches allowed, parseMessage does not yield the link and the options
    of the example for "vmess://abc^Group1^^^^3^30". *)
Lemma parseMessage_legacy_example_fails :
  ~ exists json_Unmarshal http_Get DecodeB64 fuel,
      legacy_example_parses json_Unmarshal http_Get DecodeB64 fuel
        "vmess://abc^Group1^^^^3^30".
Proof.
  intros (json & http & b64 & fuel & options & H & _ & _ & _ & Hmode).
  unfold parseMessage in H.
  destruct (parseRetestMessage json "vmess://abc^Group1^^^^3^30")
    as [[links o]|e] eqn:R.
  - apply parseRetestMessage_floors in R. destruct R as [Hr _].
    inversion H; subst. rewrite Hr in Hmode. discriminate Hmode.
  - change (SplitN2 "^" "vmess://abc^Group1^^^^3^30")
      with ["vmess://abc"; "Group1^^^^3^30"] in H.
    cbv beta iota in H.
    destruct fuel as [|fuel]; [discriminate H|].
    rewrite parseLinks_vmess_abc, parseOptions_six_fields in H.
    discriminate H.
Qed.

(** C1, on the RETEST path: the envelope that asks for concurrency 0 and
    timeout 5 is parsed to concurrency 1 and to a timeout of 5 seconds,
    which is less than 20 seconds. *)
Theorem retest_timeout_not_floored :
  exists options,
    parseMessage json_example offline offline 1 retest_message
    = Some (Ok (["vmess://abc"], options))
    /\ Concurrency options = 1
    /\ Timeout options = 5 * Second
    /\ Timeout options < 20 * Second.
Proof.
  eexists. split; [reflexivity|]. cbn. repeat split.
Qed.

(** ** One pipeline *)

Section PipelineFacts.

Variable PingLink : string -> Z -> Z * option error.
Variable Download : string -> Z -> list Z * Z * option error.
Variable p : ProfileTest.t.

Lemma SplitN2_head (sep : ascii) (s : string) :
  nth 0 (SplitN2 sep s) EmptyString = fst (cut sep s).
Proof.
  unfold SplitN2. destruct (cut sep s) as [a [r|]]; reflexivity.
Qed.

(** The link [testOne] goes on with. *)
Lemma testOne_explicit (index : Z) (link : string) :
  link <> EmptyString ->
  testOne PingLink Download p index link
  = match pingLink PingLink p index link with
    | (acts, Panicked) => (acts ++ [Panic], Panicked)
    | (acts, Returned (Some err)) => (acts ++ [], Returned (Some err))
    | (acts, Returned None) =>
        let timeout := Timeout (ProfileTest.Options p) in
        let '(samples, speed, err) := Download link timeout in
        (acts
           ++ [Write (MsgByte index "startspeed" []);
               GoConsume index samples;
               CallDownload link timeout]
           ++ (if speed <? 1 then [Write (sentinel index)] else [])
           ++ [],
         Returned err)
    end.
Proof.
  intros H. unfold testOne.
  destruct (String.eqb link EmptyString) eqn:E;
    [apply String.eqb_eq in E; contradiction|].
  reflexivity.
Qed.

(** When the probe reports less than a millisecond together with an error,
    or the mode is ping-only and the probe succeeds, an explicitly given
    link yields the four frames of a pipeline cut short. *)
Lemma ping_short_circuit (id : Z) (link : string) (elapse : Z) err :
  link <> EmptyString ->
  SpeedTestMode (ProfileTest.Options p) <> SpeedOnly ->
  PingLink link 2 = (elapse, err) ->
  (elapse < 1 /\ err <> None)
  \/ (1 <= elapse /\ SpeedTestMode (ProfileTest.Options p) = PingOnly) ->
  frames (worker PingLink Download p id link) = ping_only_frames id elapse.
Proof.
  intros Hl Hmode Hping Hcase.
  unfold worker. rewrite testOne_explicit by exact Hl.
  unfold pingLink.
  destruct (String.eqb (SpeedTestMode (ProfileTest.Options p)) SpeedOnly) eqn:E;
    [apply String.eqb_eq in E; contradiction|].
  destruct (String.eqb link EmptyString) eqn:El;
    [apply String.eqb_eq in El; contradiction|].
  rewrite Hping.
  destruct Hcase as [[Hlt Herr]|[Hge Hpo]].
  - apply Z.ltb_lt in Hlt. rewrite Hlt.
    destruct err as [e|]; [|contradiction]. reflexivity.
  - assert (Hnlt : (elapse <? 1) = false) by (apply Z.ltb_ge; lia).
    rewrite Hnlt, Hpo. reflexivity.
Qed.

(** The same for a link taken from the batch, when the part before its first
    [^] is not empty. *)
Lemma ping_short_circuit_stored (index : Z) (stored : string) (elapse : Z) err :
  elem (ProfileTest.Links p) index = Some stored ->
  fst (cut "^" stored) <> EmptyString ->
  SpeedTestMode (ProfileTest.Options p) <> SpeedOnly ->
  PingLink (fst (cut "^" stored)) 2 = (elapse, err) ->
  (elapse < 1 /\ err <> None)
  \/ (1 <= elapse /\ SpeedTestMode (ProfileTest.Options p) = PingOnly) ->
  frames (worker PingLink Download p index EmptyString)
  = ping_only_frames index elapse.
Proof.
  intros Hst Hne Hmode Hping Hcase.
  unfold worker, testOne. cbn [String.eqb]. rewrite Hst, SplitN2_head.
  unfold pingLink.
  destruct (String.eqb (SpeedTestMode (ProfileTest.Options p)) SpeedOnly) eqn:E;
    [apply String.eqb_eq in E; contradiction|].
  destruct (String.eqb (fst (cut "^" stored)) EmptyString) eqn:El;
    [apply String.eqb_eq in El; contradiction|].
  rewrite Hping.
  destruct Hcase as [[Hlt Herr]|[Hge Hpo]].
  - apply Z.ltb_lt in Hlt. rewrite Hlt.
    destruct err as [e|]; [|contradiction]. reflexivity.
  - assert (Hnlt : (elapse <? 1) = false) by (apply Z.ltb_ge; lia).
    rewrite Hnlt, Hpo. reflexivity.
Qed.

End PipelineFacts.

(** C6, at the input where it fails: in ping-only mode, a probe that returns
    an elapsed time of 0 and no error does not end the pipeline; startspeed
    is written after the sentinel frame. *)
Theorem ping_only_instant_probe_starts_speed :
  frames (worker ping_instant download_nothing
            (example_batch PingOnly ["vmess://abc"]) 0 EmptyString)
  = [MsgByte 0 "startping" [];
     MsgByte 0 "gotping" [0];
     sentinel 0;
     MsgByte 0 "startspeed" [];
     sentinel 0;
     MsgByte 0 "endone" []].
Proof. reflexivity. Qed.

(** ** The link that reaches the primitives *)

Lemma cut_prefix_no_sep (sep : ascii) (s : string) :
  forall c, In c (list_ascii_of_string (fst (cut sep s))) -> c <> sep.
Proof.
  induction s as [|a s IH]; intros c Hin.
  - simpl in Hin. contradiction.
  - simpl in Hin. destruct (Ascii.eqb a sep) eqn:E.
    + simpl in Hin. contradiction.
    + destruct (cut sep s) as [pre r]. simpl in Hin, IH.
      destruct Hin as [<-|Hin]; [|exact (IH c Hin)].
      intros ->. rewrite Ascii.eqb_refl in E. discriminate.
Qed.




(** ** Indexing in the dispatch loop *)

Lemma elem_Some {A : Type} (l : list A) (i : Z) :
  0 <= i < Z.of_nat (List.length l) -> exists x, elem l i = Some x.
Proof.
  intros H. unfold elem.
  destruct (i <? 0) eqn:E; [apply Z.ltb_lt in E; lia|].
  destruct (nth_error l (Z.to_nat i)) as [x|] eqn:N; [eauto|].
  apply nth_error_None in N. lia.
Qed.

Lemma elem_None {A : Type} (l : list A) (i : Z) :
  Z.of_nat (List.length l) <= i -> elem l i = None.
Proof.
  intros H. unfold elem.
  destruct (i <? 0); [reflexivity|].
  apply nth_error_None. lia.
Qed.

Lemma elem_In {A : Type} (l : list A) (i : Z) (x : A) :
  elem l i = Some x -> In x l.
Proof.
  unfold elem. destruct (i <? 0); [discriminate|].
  apply nth_error_In.
Qed.

Lemma dispatchArgs_explicit (p : ProfileTest.t) (i : Z) :
  TestIDs (ProfileTest.Options p) <> [] ->
  Links (ProfileTest.Options p) <> [] ->
  dispatchArgs p i
  = match elem (TestIDs (ProfileTest.Options p)) i with
    | None => None
    | Some id =>
        match elem (Links (ProfileTest.Options p)) i with
        | None => None
        | Some link => Some (id, link)
        end
    end.
Proof.
  intros Hi Hl. unfold dispatchArgs.
  destruct (TestIDs (ProfileTest.Options p)); [contradiction|].
  destruct (Links (ProfileTest.Options p)); [contradiction|].
  reflexivity.
Qed.



(** For that batch the second round of the dispatch loop is the end of the
    process. *)
Lemma short_ids_batch_panics :
  option_map (fun s => (crashed (mem s), sent (mem s)))
    (run ping_42 download_nothing short_ids_batch
       [0; 0; 0; 0; 0; 0; 0; 0]%nat (init "no nodes" short_ids_batch))
  = Some (true,
          [MsgByte (-1) "started" [];
           GotserverMsg 0 "ss://a@h:80#x" "G";
           GotserverMsg 1 "ss://b@h:80#y" "G"]).
Proof. vm_compute. reflexivity. Qed.

(** ** Runs of the batch scheduler *)

Section RunFacts.

Variable SPEEDTEST_ERROR_NONODES : string.
Variable PingLink : string -> Z -> Z * option error.
Variable Download : string -> Z -> list Z * Z * option error.
Variable p : ProfileTest.t.

Local Abbreviation step := (Web.step PingLink Download p).
Local Abbreviation steps := (Web.steps PingLink Download p).
Local Abbreviation exec := (Web.exec PingLink Download p).
Local Abbreviation run := (Web.run PingLink Download p).
Local Abbreviation run_thread := (Web.run_thread PingLink Download p).
Local Abbreviation init := (Web.init SPEEDTEST_ERROR_NONODES p).
Local Abbreviation reachable :=
  (Web.reachable SPEEDTEST_ERROR_NONODES PingLink Download p).
Local Abbreviation testAll := (Web.testAll SPEEDTEST_ERROR_NONODES p).

Lemma steps_trans s1 s2 s3 : steps s1 s2 -> steps s2 s3 -> steps s1 s3.
Proof.
  intros H12 H23. induction H23 as [|s2 s3 s4 _ IH Hst].
  - exact H12.
  - eapply steps_step; [apply IH; exact H12 | exact Hst].
Qed.

Lemma exec_fn_exec a rest m rest' new m' :
  exec_fn PingLink Download p a rest m = Some (rest', new, m') ->
  exec a rest m rest' new m'.
Proof.
  destruct a; cbn [exec_fn]; intros H.
  - inversion H; subst. constructor.
  - inversion H; subst. constructor.
  - destruct (1 <=? wg m) eqn:E; inversion H; subst.
    + apply exec_done. apply Z.leb_le. exact E.
    + apply exec_done_negative. apply Z.leb_gt. exact E.
  - destruct (wg m =? 0) eqn:E; inversion H; subst.
    apply exec_wait. apply Z.eqb_eq. exact E.
  - destruct (guard m <? Concurrency (ProfileTest.Options p)) eqn:E;
      inversion H; subst.
    apply exec_acquire. apply Z.ltb_lt. exact E.
  - inversion H; subst. constructor.
  - destruct (1 <=? guard m) eqn:E; inversion H; subst.
    apply exec_release. apply Z.leb_le. exact E.
  - inversion H; subst. constructor.
  - inversion H; subst. constructor.
  - inversion H; subst. constructor.
  - inversion H; subst. constructor.
  - inversion H; subst. constructor.
  - inversion H; subst. constructor.
Qed.

Lemma nth_error_cut {A : Type} (l : list A) (k : nat) (x : A) :
  nth_error l k = Some x -> l = firstn k l ++ x :: skipn (S k) l.
Proof.
  revert k. induction l as [|y l IH]; intros [|k] H; try discriminate.
  - inversion H. reflexivity.
  - simpl in H. cbn [firstn skipn app]. f_equal. exact (IH k H).
Qed.

Lemma run_thread_step k s s' : run_thread k s = Some s' -> step s s'.
Proof.
  unfold Web.run_thread. destruct s as [ts m]. cbn [threads mem].
  destruct (crashed m) eqn:C; [discriminate|].
  destruct (nth_error ts k) as [[|a rest]|] eqn:N; try discriminate.
  destruct (exec_fn PingLink Download p a rest m) as [[[rest' new] m']|] eqn:E;
    [|discriminate].
  intros H. inversion H; subst; clear H.
  rewrite (nth_error_cut ts k _ N) at 1.
  apply step_thread; [exact C | apply exec_fn_exec; exact E].
Qed.

Lemma run_steps schedule : forall s s', run schedule s = Some s' -> steps s s'.
Proof.
  induction schedule as [|k schedule IH]; intros s s' H.
  - inversion H. constructor.
  - cbn [Web.run] in H. destruct (run_thread k s) as [s1|] eqn:R; [|discriminate].
    eapply steps_trans; [|apply IH; exact H].
    eapply steps_step; [apply steps_refl | exact (run_thread_step k s s1 R)].
Qed.

Lemma app_cons_single {A : Type} (before after : list A) (x y : A) :
  before ++ x :: after = [y] -> before = [] /\ x = y /\ after = [].
Proof.
  destruct before as [|b before]; intros H.
  - inversion H. auto.
  - inversion H as [[Hb Hr]]. destruct before; discriminate Hr.
Qed.

(** *** The empty batch *)

Lemma empty_batch_states :
  ProfileTest.Links p = [] ->
  forall s, reachable s ->
    (threads s = [testAll] /\ sent (mem s) = [] /\ returned (mem s) = None)
    \/ (threads s = [[Return (Some (ErrorsNew "no profile found"))]]
        /\ sent (mem s) = [Text SPEEDTEST_ERROR_NONODES]
        /\ returned (mem s) = None)
    \/ (threads s = [[]]
        /\ sent (mem s) = [Text SPEEDTEST_ERROR_NONODES]
        /\ returned (mem s) = Some (Some (ErrorsNew "no profile found"))).
Proof.
  intros Hempty s Hs. unfold Web.reachable in Hs.
  remember init as s0 eqn:E0.
  induction Hs as [s|s1 s2 s3 _ IH Hst]; subst.
  - left. cbn. auto.
  - specialize (IH eq_refl).
    assert (Hprog : testAll
                    = [Write (Text SPEEDTEST_ERROR_NONODES);
                       Return (Some (ErrorsNew "no profile found"))]).
    { unfold Web.testAll. rewrite Hempty. reflexivity. }
    rewrite Hprog in *.
    inversion Hst as [before a rest after m rest' new m' Hc Hex Hs2 Hs3
                     | ts m Hc Hs2 Hs3]; subst; cbn [threads mem] in *.
    + destruct IH as [(Ht & Hsent & Hret)|[(Ht & Hsent & Hret)|(Ht & Hsent & Hret)]];
        apply app_cons_single in Ht; destruct Ht as (-> & Ht & ->);
        inversion Ht; subst; clear Ht.
      * inversion Hex; subst. right. left. cbn. rewrite Hsent. auto.
      * inversion Hex; subst. right. right. cbn. auto.
    + destruct IH as [IH|[IH|IH]]; [left | right; left | right; right];
        cbn; exact IH.
Qed.

(** C7: when the list of links is empty, a run writes the error frame and
    nothing else, at most once; testAll returns with the error
    "no profile found" right after; the two first steps of the run reach
    that end. *)
Theorem empty_batch_one_error :
  ProfileTest.Links p = [] ->
  (forall s, reachable s ->
     (sent (mem s) = [] \/ sent (mem s) = [Text SPEEDTEST_ERROR_NONODES])
     /\ (forall r, returned (mem s) = Some r ->
           r = Some (ErrorsNew "no profile found")
           /\ sent (mem s) = [Text SPEEDTEST_ERROR_NONODES]))
  /\ exists s,
       run [0; 0]%nat init = Some s
       /\ reachable s
       /\ threads s = [[]]
       /\ sent (mem s) = [Text SPEEDTEST_ERROR_NONODES]
       /\ returned (mem s) = Some (Some (ErrorsNew "no profile found")).
Proof.
  intros Hempty. split.
  - intros s Hs.
    destruct (empty_batch_states Hempty s Hs)
      as [(_ & Hsent & Hret)|[(_ & Hsent & Hret)|(_ & Hsent & Hret)]];
      rewrite Hsent, Hret; (split; [auto|]); intros r Hr; inversion Hr; auto.
  - assert (Hrun : exists s, run [0; 0]%nat init = Some s
                   /\ threads s = [[]]
                   /\ sent (mem s) = [Text SPEEDTEST_ERROR_NONODES]
                   /\ returned (mem s)
                      = Some (Some (ErrorsNew "no profile found"))).
    { unfold Web.init, Web.testAll. rewrite Hempty. cbn. eexists. eauto. }
    destruct Hrun as (s & Hrun & H).
    exists s. split; [exact Hrun|]. split; [|exact H].
    apply run_steps in Hrun. exact Hrun.
Qed.

End RunFacts.

Lemma empty_batch_one_error_witness :
  ProfileTest.Links (example_batch EmptyString []) = []
  /\ exists s,
       run ping_42 download_nothing (example_batch EmptyString [])
         [0; 0]%nat (init "no nodes" (example_batch EmptyString [])) = Some s
       /\ sent (mem s) = [Text "no nodes"].
Proof.
  split; [reflexivity|].
  destruct (empty_batch_one_error "no nodes" ping_42 download_nothing
              (example_batch EmptyString []) eq_refl)
    as (_ & s & Hrun & _ & _ & Hsent & _).
  exists s. split; [exact Hrun | exact Hsent].
Defined.

(** ** A batch with explicit links never reaches eof *)

Ltac solve_clean :=
  unfold clean in *;
  repeat first [assumption | apply Forall_nil | apply Forall_app; split
               | apply Forall_cons];
  cbn; auto.

Section RetestFacts.

Variable SPEEDTEST_ERROR_NONODES : string.
Variable PingLink : string -> Z -> Z * option error.
Variable Download : string -> Z -> list Z * Z * option error.
Variable p : ProfileTest.t.

Local Abbreviation step := (Web.step PingLink Download p).
Local Abbreviation exec := (Web.exec PingLink Download p).
Local Abbreviation reachable :=
  (Web.reachable SPEEDTEST_ERROR_NONODES PingLink Download p).
Local Abbreviation worker := (Web.worker PingLink Download p).

Lemma consume_no_eof (received : list Z) :
  forall index max speeds,
    Forall (fun f => is_eof f = false) (consume index max speeds received).
Proof.
  induction received as [|s received IH]; intros index max speeds.
  - constructor.
  - cbn [consume]. destruct (s <? 0); constructor; [reflexivity | apply IH].
Qed.

Lemma consumer_clean (index : Z) (samples : list Z) :
  clean (consumer index samples).
Proof.
  unfold clean, consumer. apply Forall_map.
  eapply Forall_impl; [|apply consume_no_eof]. auto.
Qed.

Lemma pingLink_clean (index : Z) (link : string) :
  clean (fst (pingLink PingLink p index link)).
Proof.
  unfold pingLink.
  destruct (String.eqb (SpeedTestMode (ProfileTest.Options p)) SpeedOnly);
    [solve_clean|].
  destruct (if String.eqb link EmptyString
            then elem (ProfileTest.Links p) index else Some link) as [l|];
    [|solve_clean].
  destruct (PingLink l 2) as [elapse err].
  destruct (elapse <? 1); [solve_clean|].
  destruct (String.eqb (SpeedTestMode (ProfileTest.Options p)) PingOnly);
    solve_clean.
Qed.

Lemma worker_clean (id : Z) (link : string) :
  link <> EmptyString -> clean (worker id link).
Proof.
  intros Hl. unfold Web.worker. rewrite testOne_explicit by exact Hl.
  pose proof (pingLink_clean id link) as Hp.
  destruct (pingLink PingLink p id link) as [acts [[err|]|]]; cbn [fst] in Hp.
  - solve_clean.
  - cbv zeta.
    destruct (Download link (Timeout (ProfileTest.Options p)))
      as [[samples speed] err].
    destruct (speed <? 1); solve_clean.
  - solve_clean.
Qed.

Lemma gotservers_clean (links : list string) :
  forall i, clean (gotservers p i links).
Proof.
  induction links as [|l links IH]; intros i; cbn [gotservers].
  - constructor.
  - constructor; [reflexivity | apply IH].
Qed.

Hypothesis explicit_ids : TestIDs (ProfileTest.Options p) <> [].
Hypothesis explicit_links : Links (ProfileTest.Options p) <> [].
Hypothesis links_not_empty :
  Forall (fun l => l <> EmptyString) (Links (ProfileTest.Options p)).
Hypothesis batch_not_empty : ProfileTest.Links p <> [].

Lemma dispatch_shape (links : list string) :
  forall i,
    clean (dispatch p i links)
    \/ exists pre, dispatch p i links = pre ++ closing
                   /\ clean pre /\ (links <> [] -> In WgAdd pre).
Proof.
  induction links as [|l links IH]; intros i; cbn [dispatch].
  - right. exists []. split; [reflexivity|]. split; [constructor|].
    intros H. contradiction.
  - rewrite dispatchArgs_explicit by assumption.
    destruct (elem (TestIDs (ProfileTest.Options p)) i) as [id|];
      [|left; solve_clean].
    destruct (elem (Links (ProfileTest.Options p)) i) as [link|] eqn:El;
      [|left; solve_clean].
    assert (Hlink : link <> EmptyString).
    { apply elem_In in El.
      exact (proj1 (Forall_forall _ _) links_not_empty link El). }
    destruct (IH (i + 1)) as [Hc|(pre & E & Hpre & _)].
    + left. solve_clean.
    + right. exists (WgAdd :: Acquire i :: GoTest id link :: pre).
      split; [rewrite E; reflexivity|]. split; [solve_clean|].
      intros _. left. reflexivity.
Qed.

Lemma testAll_guarded : guarded 0 (testAll SPEEDTEST_ERROR_NONODES p).
Proof.
  unfold Web.testAll.
  destruct (ProfileTest.Links p) as [|l links] eqn:E; [contradiction|].
  cbn [List.length Nat.ltb Nat.leb].
  pose proof (gotservers_clean (l :: links) 0) as Hg.
  destruct (Concurrency (ProfileTest.Options p) <? 0).
  - left. solve_clean.
  - destruct (dispatch_shape (l :: links) 0) as [Hc|(pre & Ed & Hpre & Hadd)].
    + left. solve_clean.
    + right.
      exists (Write (MsgByte (-1) "started" [])
                :: gotservers p 0 (l :: links) ++ pre).
      split; [rewrite Ed, app_comm_cons, app_assoc; reflexivity|].
      split; [solve_clean|].
      right. right. apply in_or_app. right. apply Hadd. discriminate.
Qed.

Lemma guarded_mono (n n' : Z) (t : list action) :
  n <= n' -> guarded n t -> guarded n' t.
Proof.
  intros Hle [Hc|(pre & E & Hpre & Hn)]; [left; exact Hc|].
  right. exists pre. repeat split; try assumption.
  destruct Hn; [left; lia | right; assumption].
Qed.

Lemma guarded_head (n : Z) (a : action) (rest : list action) :
  guarded n (a :: rest) ->
  (clean_action a
   /\ forall n', n <= n' -> (a = WgAdd -> 1 <= n') -> guarded n' rest)
  \/ (a = WgWait /\ 1 <= n).
Proof.
  intros [Hc|(pre & E & Hpre & Hn)].
  - left. inversion Hc; subst. split; [assumption|].
    intros n' _ _. left. assumption.
  - destruct pre as [|b pre]; cbn in E; inversion E; subst.
    + right. split; [reflexivity|]. destruct Hn as [Hn|[]]. exact Hn.
    + left. inversion Hpre; subst. split; [assumption|].
      intros n' Hle Hadd. right. exists pre.
      split; [reflexivity|]. split; [assumption|].
      destruct Hn as [Hn|[Hb|Hin]].
      * left. lia.
      * left. apply Hadd. exact Hb.
      * right. exact Hin.
Qed.

Lemma no_eof_snoc (fs : list frame) (f : frame) :
  no_eof fs -> is_eof f = false -> no_eof (fs ++ [f]).
Proof.
  unfold no_eof. intros H Hf. rewrite existsb_app, H. cbn. rewrite Hf.
  reflexivity.
Qed.

Lemma threads_rebuild (n n' : Z) before (t : list action) after rest' new :
  n <= n' ->
  Forall (guarded n) (before ++ t :: after) ->
  guarded n' rest' ->
  Forall clean new ->
  Forall (guarded n') (before ++ rest' :: after ++ new).
Proof.
  intros Hle Hall Hrest Hnew.
  apply Forall_app in Hall. destruct Hall as [Hb Hta].
  inversion Hta as [|? ? _ Ha]; subst.
  apply Forall_app. split.
  - eapply Forall_impl; [|exact Hb]. intros t0. apply guarded_mono. exact Hle.
  - constructor; [exact Hrest|]. apply Forall_app. split.
    + eapply Forall_impl; [|exact Ha]. intros t0. apply guarded_mono. exact Hle.
    + eapply Forall_impl; [|exact Hnew]. intros t0 Ht. left. exact Ht.
Qed.

Lemma never_eof_step (s s' : state) :
  never_eof_inv s -> step s s' -> never_eof_inv s'.
Proof.
  intros (Hsent & Hwg & Hall) Hst.
  inversion Hst as [before a rest after m rest' new m' Hc Hex Hs Hs'
                   | ts m Hc Hs Hs']; subst; cbn [threads mem] in *.
  2: { repeat split; assumption. }
  assert (Hg : guarded (wg m) (a :: rest)).
  { apply Forall_app in Hall. destruct Hall as [_ Hta].
    inversion Hta; assumption. }
  apply guarded_head in Hg.
  destruct Hg as [[Hca Hrest]|[-> Hn]].
  2: { inversion Hex; subst. lia. }
  assert (Hnil : forall n, guarded n []) by (intros n; left; constructor).
  inversion Hex; subst; cbn [clean_action] in Hca;
    try contradiction;
    unfold never_eof_inv; cbn;
    (split; [first [exact Hsent | apply no_eof_snoc; assumption]|]);
    (split; [lia|]);
    (eapply threads_rebuild;
     [ | exact Hall
       | first [apply Hnil | apply Hrest; [lia | first [discriminate | lia]]]
       | first [apply Forall_nil
               | apply Forall_cons;
                 [first [apply worker_clean; exact Hca | apply consumer_clean]
                 | apply Forall_nil]]]);
    lia.
Qed.

Lemma explicit_batch_never_eof (s : state) :
  reachable s -> no_eof (sent (mem s)).
Proof.
  intros Hs. unfold Web.reachable in Hs.
  assert (H : never_eof_inv s).
  { remember (Web.init SPEEDTEST_ERROR_NONODES p) as s0 eqn:E0.
    induction Hs as [s|s1 s2 s3 _ IH Hst]; subst.
    - split; [reflexivity|]. split; [cbn; lia|].
      cbn. constructor; [apply testAll_guarded | constructor].
    - eapply never_eof_step; [apply IH; reflexivity | exact Hst]. }
  exact (proj1 H).
Qed.

End RetestFacts.

Lemma retest_blocked_reached :
  run ping_42 download_nothing retest_batch retest_schedule
    (init "no nodes" retest_batch) = Some retest_blocked.
Proof. vm_compute. reflexivity. Qed.

Lemma retest_blocked_stuck :
  stuck ping_42 download_nothing retest_batch retest_blocked.
Proof.
  split; [reflexivity|]. intros k.
  do 3 (destruct k as [|k]; [vm_compute; reflexivity|]).
  destruct k; vm_compute; reflexivity.
Qed.

(** C2, at the input where it fails: for the RETEST batch of two links with
    the ids 2 and 5, no run ever writes eof, whatever the probe and the
    download answer and whether the context is cancelled or not. *)
Theorem retest_batch_never_eof
    (SPEEDTEST_ERROR_NONODES : string)
    (PingLink : string -> Z -> Z * option error)
    (Download : string -> Z -> list Z * Z * option error)
    (s : state) :
  reachable SPEEDTEST_ERROR_NONODES PingLink Download retest_batch s ->
  no_eof (sent (mem s)).
Proof.
  apply explicit_batch_never_eof.
  - discriminate.
  - discriminate.
  - repeat constructor; discriminate.
  - discriminate.
Qed.

Lemma retest_batch_never_eof_witness :
  reachable "no nodes" ping_42 download_nothing retest_batch retest_blocked
  /\ stuck ping_42 download_nothing retest_batch retest_blocked
  /\ no_eof (sent (mem retest_blocked)).
Proof.
  assert (H : reachable "no nodes" ping_42 download_nothing retest_batch
                retest_blocked)
    by (apply (run_steps _ _ _ retest_schedule); vm_compute; reflexivity).
  split; [exact H|]. split; [exact retest_blocked_stuck|].
  exact (retest_batch_never_eof "no nodes" ping_42 download_nothing
           retest_blocked H).
Defined.

(** Without explicit links the counter is lowered when testOne returns,
    before endone is written: in this run of a batch of one link eof comes
    before endone. *)
Lemma default_batch_eof_before_endone :
  option_map (fun s => sent (mem s))
    (run ping_42 download_nothing (example_batch EmptyString ["vmess://abc"])
       racy_schedule
       (init "no nodes" (example_batch EmptyString ["vmess://abc"])))
  = Some [MsgByte (-1) "started" [];
          GotserverMsg 0 "vmess://abc" "Default Group";
          MsgByte 0 "startping" [];
          MsgByte 0 "gotping" [42];
          MsgByte 0 "startspeed" [];
          sentinel 0;
          eof;
          MsgByte 0 "endone" []].
Proof. vm_compute. reflexivity. Qed.

(** ** The matcher finds what the pattern denotes *)

Lemma str_app_assoc (a b c : string) :
  ((a ++ b) ++ c = a ++ (b ++ c))%string.
Proof. induction a as [|x a IH]; cbn; [reflexivity | rewrite IH; reflexivity]. Qed.

Lemma str_length_app (a b : string) :
  String.length (a ++ b) = (String.length a + String.length b)%nat.
Proof. induction a as [|x a IH]; cbn; [reflexivity | rewrite IH; reflexivity]. Qed.

Lemma substring_prefix (w rest : string) :
  substring 0 (String.length w) (w ++ rest) = w.
Proof.
  induction w as [|x w IH]; cbn.
  - destruct rest; reflexivity.
  - rewrite IH. reflexivity.
Qed.

Lemma matched_app (w rest : string) : matched (w ++ rest) rest = w.
Proof.
  unfold matched. rewrite str_length_app.
  replace (String.length w + String.length rest - String.length rest)%nat
    with (String.length w) by lia.
  apply substring_prefix.
Qed.

Lemma matched_split (s w rest : string) :
  s = (w ++ rest)%string -> matched s rest = w.
Proof. intros ->. apply matched_app. Qed.

Lemma iter_sound (g : bool) (a : regex) (step : string -> list string) :
  (forall s rest, In rest (step s) ->
                  exists w, s = (w ++ rest)%string /\ lang a w) ->
  forall fuel s rest,
    In rest (iter g step fuel s) ->
    exists w, s = (w ++ rest)%string /\ lang (Plus g a) w.
Proof.
  intros Hstep. induction fuel as [|fuel IH]; intros s rest Hin.
  - contradiction.
  - cbn [iter] in Hin. apply in_flat_map in Hin.
    destruct Hin as (s' & Hs' & Hin).
    destruct (Hstep s s' Hs') as (u & -> & Hu).
    assert (Hone : rest = s' ->
                   exists w, (u ++ s' = w ++ rest)%string /\ lang (Plus g a) w).
    { intros ->. exists u. split; [reflexivity | apply L_plus_one; exact Hu]. }
    assert (Hmore : In rest (iter g step fuel s') ->
                    exists w, (u ++ s' = w ++ rest)%string
                              /\ lang (Plus g a) w).
    { intros Hr. destruct (IH s' rest Hr) as (v & -> & Hv).
      exists (u ++ v)%string. split; [symmetry; apply str_app_assoc|].
      apply L_plus_more; assumption. }
    destruct (String.length s' <? String.length (u ++ s'))%nat.
    + destruct g.
      * apply in_app_or in Hin. destruct Hin as [Hr|[Hr|[]]]; auto.
      * destruct Hin as [Hr|Hr]; auto.
    + destruct Hin as [Hr|[]]. auto.
Qed.

Lemma rmatch_sound (r : regex) :
  forall s rest,
    In rest (rmatch r s) -> exists w, s = (w ++ rest)%string /\ lang r w.
Proof.
  induction r as [|q|a IHa b IHb|a IHa b IHb|a IHa|g a IHa];
    intros s rest Hin; cbn [rmatch] in Hin.
  - destruct Hin as [<-|[]]. exists EmptyString. split; [reflexivity|constructor].
  - destruct s as [|c s]; [contradiction|].
    destruct (q c) eqn:E; [|contradiction].
    destruct Hin as [<-|[]]. exists (String c EmptyString).
    split; [reflexivity | constructor; exact E].
  - apply in_flat_map in Hin. destruct Hin as (mid & Hmid & Hin).
    destruct (IHa s mid Hmid) as (u & -> & Hu).
    destruct (IHb mid rest Hin) as (v & -> & Hv).
    exists (u ++ v)%string. split; [symmetry; apply str_app_assoc|].
    constructor; assumption.
  - apply in_app_or in Hin. destruct Hin as [Hin|Hin].
    + destruct (IHa s rest Hin) as (w & -> & Hw).
      exists w. split; [reflexivity | apply L_alt_l; exact Hw].
    + destruct (IHb s rest Hin) as (w & -> & Hw).
      exists w. split; [reflexivity | apply L_alt_r; exact Hw].
  - apply in_app_or in Hin. destruct Hin as [Hin|[<-|[]]].
    + destruct (IHa s rest Hin) as (w & -> & Hw).
      exists w. split; [reflexivity | apply L_opt_some; exact Hw].
    + exists EmptyString. split; [reflexivity | apply L_opt_none].
  - eapply iter_sound; [exact IHa | exact Hin].
Qed.

Lemma find_sound (r : regex) (s : string) :
  forall skipped m rest,
    find r s = Some (skipped, m, rest) ->
    s = (skipped ++ m ++ rest)%string /\ lang r m.
Proof.
  induction s as [|c s IH]; intros skipped m rest H; cbn [find] in H.
  - destruct (rmatch r EmptyString) as [|rest0 l] eqn:E; [discriminate|].
    inversion H; subst; clear H.
    destruct (rmatch_sound r EmptyString rest) as (w & Hs & Hw);
      [rewrite E; left; reflexivity|].
    rewrite (matched_split _ _ _ Hs). split; [exact Hs | exact Hw].
  - destruct (rmatch r (String c s)) as [|rest0 l] eqn:E.
    + destruct (find r s) as [[[sk m0] rest0]|] eqn:F; [|discriminate].
      inversion H; subst; clear H.
      destruct (IH sk m rest eq_refl) as (-> & Hm).
      split; [reflexivity | exact Hm].
    + inversion H; subst; clear H.
      destruct (rmatch_sound r (String c s) rest) as (w & Hs & Hw);
        [rewrite E; left; reflexivity|].
      rewrite (matched_split _ _ _ Hs). split; [exact Hs | exact Hw].
Qed.

Lemma FindAll_from_sound (r : regex) (fuel : nat) :
  forall abut s m,
    In m (FindAll_from r fuel abut s) ->
    lang r m /\ exists a b, s = (a ++ m ++ b)%string.
Proof.
  induction fuel as [|fuel IH]; intros abut s m Hin; [contradiction|].
  cbn [FindAll_from] in Hin.
  destruct (find r s) as [[[skipped m0] rest]|] eqn:F; [|contradiction].
  apply find_sound in F. destruct F as (-> & Hm0).
  destruct m0 as [|c0 m0].
  - assert (Htl : In m match rest with
                       | EmptyString => []
                       | String _ rest' => FindAll_from r fuel false rest'
                       end ->
                  lang r m
                  /\ exists a b, (skipped ++ EmptyString ++ rest
                                  = a ++ m ++ b)%string).
    { destruct rest as [|c rest']; [contradiction|]. intros Hr.
      destruct (IH false rest' m Hr) as (Hm & a & b & ->).
      split; [exact Hm|].
      exists (skipped ++ String c a)%string, b.
      rewrite str_app_assoc. reflexivity. }
    assert (Hhd : EmptyString = m ->
                  lang r m
                  /\ exists a b, (skipped ++ EmptyString ++ rest
                                  = a ++ m ++ b)%string).
    { intros <-. split; [exact Hm0|]. exists skipped, rest. reflexivity. }
    destruct abut; [destruct skipped|]; cbn in Hin; intuition.
  - destruct Hin as [<-|Hr].
    + split; [exact Hm0|]. exists skipped, rest. reflexivity.
    + destruct (IH true rest m Hr) as (Hm & a & b & ->).
      split; [exact Hm|].
      exists (skipped ++ String c0 m0 ++ a)%string, b.
      rewrite !str_app_assoc. reflexivity.
Qed.

Lemma find_none (r : regex) (s : string) :
  find r s = None ->
  rmatch r s = []
  /\ match s with
     | EmptyString => True
     | String _ s' => find r s' = None
     end.
Proof.
  destruct s as [|c s]; cbn [find].
  - destruct (rmatch r EmptyString); [auto | discriminate].
  - destruct (rmatch r (String c s)); [|discriminate].
    destruct (find r s) as [[[sk m] rest]|]; [discriminate | auto].
Qed.

Lemma find_none_alt (a b : regex) (s : string) :
  find a s = None -> find b s = None -> find (Alt a b) s = None.
Proof.
  induction s as [|c s IH]; intros Ha Hb;
    apply find_none in Ha; apply find_none in Hb;
    destruct Ha as [Ha Ha']; destruct Hb as [Hb Hb'];
    cbn [find rmatch]; rewrite Ha, Hb; cbn [app].
  - reflexivity.
  - rewrite (IH Ha' Hb'). reflexivity.
Qed.

Lemma FindAllString_nil_find (r : regex) (s : string) :
  FindAllString r s = [] -> find r s = None.
Proof.
  unfold FindAllString. cbn [FindAll_from].
  destruct (find r s) as [[[skipped m] rest]|]; [|reflexivity].
  destruct m; discriminate.
Qed.

Lemma find_none_FindAllString (r : regex) (s : string) :
  find r s = None -> FindAllString r s = [].
Proof.
  intros H. unfold FindAllString. cbn [FindAll_from]. rewrite H. reflexivity.
Qed.

(** ** What the pattern of the ss and trojan links denotes *)

Lemma lang_seq_inv (a b : regex) (w : string) :
  lang (Seq a b) w ->
  exists u v, w = (u ++ v)%string /\ lang a u /\ lang b v.
Proof. intros H. inversion H; subst. eauto. Qed.

Lemma lang_alt_inv (a b : regex) (w : string) :
  lang (Alt a b) w -> lang a w \/ lang b w.
Proof. intros H. inversion H; subst; auto. Qed.

Lemma lang_opt_inv (a : regex) (w : string) :
  lang (Opt a) w -> w = EmptyString \/ lang a w.
Proof. intros H. inversion H; subst; auto. Qed.

Lemma lang_class_inv (q : ascii -> bool) (w : string) :
  lang (Class q) w -> exists c, w = String c EmptyString /\ q c = true.
Proof. intros H. inversion H; subst. eauto. Qed.

Ltac lang_step :=
  match goal with
  | H : lang (Seq _ _) _ |- _ =>
      apply lang_seq_inv in H; destruct H as (? & ? & -> & ? & ?)
  | H : lang (Class _) _ |- _ =>
      apply lang_class_inv in H; destruct H as (? & -> & ?)
  | H : lang (Opt _) _ |- _ =>
      apply lang_opt_inv in H; destruct H as [-> | H]
  end.

Lemma lang_lit (s w : string) : lang (lit s) w -> w = s.
Proof.
  revert w. induction s as [|c s IH]; intros w H.
  - inversion H. reflexivity.
  - destruct s as [|c' s].
    + cbn in H. apply lang_class_inv in H. destruct H as (x & -> & Hx).
      apply Ascii.eqb_eq in Hx. subst. reflexivity.
    + change (lit (String c (String c' s)))
        with (Seq (chr c) (lit (String c' s))) in H.
      apply lang_seq_inv in H. destruct H as (u & v & -> & Hu & Hv).
      apply lang_class_inv in Hu. destruct Hu as (x & -> & Hx).
      apply Ascii.eqb_eq in Hx. subst. rewrite (IH v Hv). reflexivity.
Qed.

Lemma lang_plus_class (g : bool) (q : ascii -> bool) (w : string) :
  lang (Plus g (Class q)) w -> w <> EmptyString /\ all_chars q w = true.
Proof.
  intros H. remember (Plus g (Class q)) as r eqn:E.
  induction H as [| | | | | | |g0 a u Hu _|g0 a u v Hu _ Hv IHv];
    try discriminate; inversion E; subst.
  - apply lang_class_inv in Hu. destruct Hu as (c & -> & Hc).
    split; [discriminate | cbn; rewrite Hc; reflexivity].
  - apply lang_class_inv in Hu. destruct Hu as (c & -> & Hc).
    destruct (IHv eq_refl) as [_ Hall].
    split; [discriminate | cbn; rewrite Hc, Hall; reflexivity].
Qed.

Lemma lang_rep_2_5 (q : ascii -> bool) (w : string) :
  lang (rep_2_5 (Class q)) w ->
  (2 <= String.length w <= 5)%nat /\ all_chars q w = true.
Proof.
  unfold rep_2_5. intros H. repeat lang_step; cbn;
    repeat match goal with
           | Hq : q _ = true |- _ => rewrite Hq; clear Hq
           end;
    (split; [lia | reflexivity]).
Qed.

Lemma one_of_marks (c : ascii) :
  one_of ["?"; "#"]%char c = true -> c = "?"%char \/ c = "#"%char.
Proof.
  unfold one_of. cbn. intros H.
  apply orb_true_iff in H. destruct H as [H|H].
  - left. apply Ascii.eqb_eq. exact H.
  - right. rewrite orb_false_r in H. apply Ascii.eqb_eq. exact H.
Qed.

Lemma cred_lang_form (m : string) : lang cred_re m -> cred_form m.
Proof.
  unfold cred_re. intros H.
  apply lang_seq_inv in H. destruct H as (scheme & r1 & -> & Hscheme & H).
  apply lang_seq_inv in H. destruct H as (sep & r2 & -> & Hsep & H).
  apply lang_lit in Hsep. subst sep.
  apply lang_seq_inv in H. destruct H as (cred & r3 & -> & Hcred & H).
  apply lang_plus_class in Hcred. destruct Hcred as [Hcred _].
  apply lang_seq_inv in H. destruct H as (at_ & r4 & -> & Hat & H).
  apply (lang_lit "@") in Hat. subst at_.
  apply lang_seq_inv in H. destruct H as (host & r5 & -> & Hhost & H).
  apply lang_plus_class in Hhost. destruct Hhost as [Hhost _].
  apply lang_seq_inv in H. destruct H as (colon & r6 & -> & Hcolon & H).
  apply (lang_lit ":") in Hcolon. subst colon.
  apply lang_seq_inv in H. destruct H as (port & r7 & -> & Hport & H).
  apply lang_rep_2_5 in Hport. destruct Hport as [Hlen Hdigits].
  apply lang_seq_inv in H. destruct H as (mark & rest & -> & Hmark & Hrest).
  apply lang_class_inv in Hmark. destruct Hmark as (c & -> & Hc).
  apply one_of_marks in Hc.
  apply lang_plus_class in Hrest. destruct Hrest as [Hrest Hnonspace].
  exists scheme, cred, host, port, c, rest.
  repeat split; try assumption; lia.
Qed.

Lemma any_char_app (q : ascii -> bool) (a b : string) :
  any_char q (a ++ b) = any_char q a || any_char q b.
Proof.
  induction a as [|x a IH]; cbn; [reflexivity|].
  rewrite IH, orb_assoc. reflexivity.
Qed.

Lemma cred_form_has_mark (m : string) :
  cred_form m -> any_char (one_of ["?"; "#"]%char) m = true.
Proof.
  intros (scheme & cred & host & port & c & rest & -> & _ & _ & _ & _ & _
          & Hc & _).
  assert (Hq : one_of ["?"; "#"]%char c = true)
    by (destruct Hc as [-> | ->]; reflexivity).
  rewrite any_char_app.
  change ("://" ++ cred ++ "@" ++ host ++ ":" ++ port ++ String c rest)%string
    with (String ":" (String "/" (String "/"
            (cred ++ "@" ++ host ++ ":" ++ port ++ String c rest))))%string.
  cbn [any_char]. rewrite any_char_app.
  change ("@" ++ host ++ ":" ++ port ++ String c rest)%string
    with (String "@" (host ++ ":" ++ port ++ String c rest))%string.
  cbn [any_char]. rewrite any_char_app.
  change (":" ++ port ++ String c rest)%string
    with (String ":" (port ++ String c rest))%string.
  cbn [any_char]. rewrite any_char_app. cbn [any_char]. rewrite Hq.
  repeat rewrite orb_true_r. reflexivity.
Qed.

Lemma find_cred_none (s : string) :
  any_char (one_of ["?"; "#"]%char) s = false -> find cred_re s = None.
Proof.
  intros Hs. destruct (find cred_re s) as [[[skipped m] rest]|] eqn:F;
    [|reflexivity].
  apply find_sound in F. destruct F as (-> & Hm).
  apply cred_lang_form, cred_form_has_mark in Hm.
  rewrite !any_char_app, Hm, orb_true_r in Hs. discriminate Hs.
Qed.

(** ** parseLinks on ss and trojan links *)

(** C9: a link that parseLinks returns for a text that is not a URL is a
    vmess or ssr link, or has the form scheme://credential@host:port with
    scheme ss or trojan, a port of 2 to 5 digits and a non-empty suffix after
    ? or #; the text "ss://user@host:8388" is refused as invalid data, and so
    is every text that is not a URL, holds neither ? nor # and in which no
    vmess or ssr link is found. *)
Theorem parseLinks_ss_trojan_form
    (http_Get DecodeB64 : string -> result string) (fuel : nat) :
  parseLinks http_Get DecodeB64 (S fuel) "ss://user@host:8388"
  = Some (Err ErrInvalidData)
  /\ (forall message,
        MatchAnchored url_re message = false ->
        any_char (one_of ["?"; "#"]%char) message = false ->
        FindAllString token_re message = [] ->
        parseLinks http_Get DecodeB64 (S fuel) message
        = Some (Err ErrInvalidData))
  /\ (forall message links l,
        MatchAnchored url_re message = false ->
        parseLinks http_Get DecodeB64 (S fuel) message = Some (Ok links) ->
        In l links ->
        token_form l \/ cred_form l).
Proof.
  split; [vm_compute; reflexivity|]. split.
  - intros message Hurl Hmarks Htoken. cbn [parseLinks]. rewrite Hurl.
    rewrite (find_none_FindAllString link_re message); [reflexivity|].
    apply find_none_alt.
    + apply FindAllString_nil_find. exact Htoken.
    + apply find_cred_none. exact Hmarks.
  - intros message links l Hurl Hparse Hin. cbn [parseLinks] in Hparse.
    rewrite Hurl in Hparse.
    destruct (List.length (FindAllString link_re message) <? 1)%nat;
      [discriminate|].
    inversion Hparse; subst; clear Hparse.
    apply FindAll_from_sound in Hin. destruct Hin as [Hl _].
    apply lang_alt_inv in Hl. destruct Hl as [Hl|Hl].
    + left. exact Hl.
    + right. apply cred_lang_form. exact Hl.
Qed.

Lemma parseLinks_ss_trojan_form_witness :
  MatchAnchored url_re "ss://user@host:8388" = false
  /\ any_char (one_of ["?"; "#"]%char) "ss://user@host:8388" = false
  /\ FindAllString token_re "ss://user@host:8388" = []
  /\ parseLinks offline offline 1 "ss://user@host:8388"
     = Some (Err ErrInvalidData)
  /\ MatchAnchored url_re "see ss://user@host:8388#tag" = false
  /\ parseLinks offline offline 1 "see ss://user@host:8388#tag"
     = Some (Ok ["ss://user@host:8388#tag"])
  /\ (token_form "ss://user@host:8388#tag"
      \/ cred_form "ss://user@host:8388#tag").
Proof.
  assert (H1 : MatchAnchored url_re "ss://user@host:8388" = false)
    by (vm_compute; reflexivity).
  assert (H2 : any_char (one_of ["?"; "#"]%char) "ss://user@host:8388" = false)
    by (vm_compute; reflexivity).
  assert (H3 : FindAllString token_re "ss://user@host:8388" = [])
    by (vm_compute; reflexivity).
  assert (H4 : MatchAnchored url_re "see ss://user@host:8388#tag" = false)
    by (vm_compute; reflexivity).
  assert (H5 : parseLinks offline offline 1 "see ss://user@host:8388#tag"
               = Some (Ok ["ss://user@host:8388#tag"]))
    by (vm_compute; reflexivity).
  destruct (parseLinks_ss_trojan_form offline offline 0) as (_ & Hb & Hc).
  split; [exact H1|]. split; [exact H2|]. split; [exact H3|].
  split; [exact (Hb _ H1 H2 H3)|]. split; [exact H4|]. split; [exact H5|].
  exact (Hc _ _ "ss://user@host:8388#tag" H4 H5 (or_introl eq_refl)).
Defined.

(** * Further properties *)

(** ** The fields of the parameter segment *)

Lemma Split_cons (sep : ascii) (s : string) :
  exists h t, Split sep s = h :: t.
Proof.
  induction s as [|c s (h & t & IH)]; cbn [Split]; [eauto|].
  destruct (Ascii.eqb c sep); [eauto|]. rewrite IH. eauto.
Qed.

Lemma Split_length (sep : ascii) (s : string) :
  List.length (Split sep s) = S (count_char sep s).
Proof.
  induction s as [|c s IH]; cbn [Split count_char]; [reflexivity|].
  destruct (Ascii.eqb c sep).
  - cbn [List.length]. rewrite IH. reflexivity.
  - destruct (Split_cons sep s) as (h & t & E). rewrite E in *.
    cbn [List.length] in *. rewrite IH. reflexivity.
Qed.

Lemma Atoi_error (s : string) (e : error) :
  Atoi s = Err e -> e = NumErrSyntax \/ e = NumErrRange.
Proof.
  unfold Atoi.
  destruct (match s with
            | String "+"%char r => (false, r)
            | String "-"%char r => (true, r)
            | _ => (false, s)
            end) as [neg body].
  destruct body; [intros H; inversion H; auto|].
  destruct (parse_digits 0 (String a body)); [|intros H; inversion H; auto].
  destruct ((minInt64 <=? (if neg then - z else z))
            && ((if neg then - z else z) <=? maxInt64));
    intros H; inversion H; auto.
Qed.


Lemma Split_no_sep (s : string) :
  no_caret s = true -> Split "^" s = [s].
Proof.
  induction s as [|c s IH]; cbn; [reflexivity|].
  intros H. apply andb_prop in H. destruct H as [Hc Hs].
  apply negb_true_iff in Hc. rewrite Hc, (IH Hs). reflexivity.
Qed.

Lemma Split_app_sep (a r : string) :
  no_caret a = true ->
  Split "^" (a ++ String "^" r) = a :: Split "^" r.
Proof.
  induction a as [|c a IH]; cbn.
  - reflexivity.
  - intros H. apply andb_prop in H. destruct H as [Hc Ha].
    apply negb_true_iff in Hc. rewrite Hc.
    change (Split "^" (a ++ String "^" r)) with (Split "^" (a ++ String "^" r)).
    cbn in IH. rewrite (IH Ha). reflexivity.
Qed.

Lemma Split_join (fields : list string) :
  fields <> [] ->
  forallb no_caret fields = true ->
  Split "^" (join fields) = fields.
Proof.
  induction fields as [|f fields IH]; intros Hne Hall; [contradiction|].
  cbn in Hall. apply andb_prop in Hall. destruct Hall as [Hf Hall].
  destruct fields as [|g fields].
  - cbn. apply Split_no_sep. exact Hf.
  - change (join (f :: g :: fields))
      with (f ++ String "^" (join (g :: fields)))%string.
    rewrite Split_app_sep by exact Hf.
    rewrite IH; [reflexivity | discriminate | exact Hall].
Qed.

Lemma floor_max (lo z : Z) : (if z <? lo then lo else z) = Z.max lo z.
Proof. destruct (z <? lo) eqn:E; [apply Z.ltb_lt in E | apply Z.ltb_ge in E]; lia. Qed.

(** X2: for fields that hold no ^, parseOptions reads the group, the three
    modes, the concurrency and the timeout from the fields 1 to 4, 6 and 7 of
    the joined text; the fifth field and every field after the seventh are
    ignored; the concurrency is raised to 1 and the timeout to 20 before it
    is turned into seconds. *)
Theorem parseOptions_fields
    (group mode ping sort unused cs ts : string) (more : list string)
    (concurrency timeout : Z) :
  forallb no_caret (group :: mode :: ping :: sort :: unused :: cs :: ts :: more)
  = true ->
  Atoi cs = Ok concurrency ->
  Atoi ts = Ok timeout ->
  parseOptions
    (join (group :: mode :: ping :: sort :: unused :: cs :: ts :: more))
  = Ok (legacy_options group mode ping sort concurrency timeout).
Proof.
  intros Hall Hc Ht. unfold parseOptions.
  rewrite Split_join by (discriminate || exact Hall).
  cbn [List.length nth]. 
  replace (S (S (S (S (S (S (S (List.length more))))))) <? 7)%nat with false
    by (symmetry; apply Nat.ltb_ge; lia).
  rewrite Hc, Ht, !floor_max. reflexivity.
Qed.

Lemma parseOptions_fields_witness :
  forallb no_caret ["Group1"; "all"; "googleping"; "rspeed"; "x"; "0"; "5"; "tail"]
  = true
  /\ Atoi "0" = Ok 0
  /\ Atoi "5" = Ok 5
  /\ parseOptions "Group1^all^googleping^rspeed^x^0^5^tail"
     = Ok (legacy_options "Group1" "all" "googleping" "rspeed" 0 5).
Proof.
  assert (H1 : forallb no_caret
                 ["Group1"; "all"; "googleping"; "rspeed"; "x"; "0"; "5"; "tail"]
               = true) by reflexivity.
  assert (H2 : Atoi "0" = Ok 0) by reflexivity.
  assert (H3 : Atoi "5" = Ok 5) by reflexivity.
  split; [exact H1|]. split; [exact H2|]. split; [exact H3|].
  exact (parseOptions_fields "Group1" "all" "googleping" "rspeed" "x" "0" "5"
           ["tail"] 0 5 H1 H2 H3).
Defined.

(** X3: on the legacy path a timeout field of at most 9223372036 gives a
    timeout of that many seconds, 20 at least, without overflow; the
    concurrency is the field raised to 1. *)
Theorem parseOptions_timeout_seconds (message : string)
    (options : ProfileTestOptions) (concurrency timeout : Z) :
  parseOptions message = Ok options ->
  Atoi (nth 5 (Split "^" message) EmptyString) = Ok concurrency ->
  Atoi (nth 6 (Split "^" message) EmptyString) = Ok timeout ->
  timeout <= 9223372036 ->
  Concurrency options = Z.max 1 concurrency
  /\ Timeout options = Z.max 20 timeout * Second
  /\ 20 * Second <= Timeout options.
Proof.
  unfold parseOptions. intros H Hc Ht Hb.
  destruct (List.length (Split "^" message) <? 7)%nat; [discriminate|].
  rewrite Hc, Ht, !floor_max in H. inversion H; subst; clear H. cbn.
  assert (Hw : wrap64 (Z.max 20 timeout * Second) = Z.max 20 timeout * Second).
  { unfold wrap64, Second. rewrite Z.mod_small; lia. }
  rewrite Hw. unfold Second. repeat split; lia.
Qed.

Lemma parseOptions_timeout_seconds_witness :
  parseOptions "g^^^^^0^5"
  = Ok (legacy_options "g" EmptyString EmptyString EmptyString 0 5)
  /\ Timeout (legacy_options "g" EmptyString EmptyString EmptyString 0 5)
     = 20 * Second.
Proof.
  assert (H : parseOptions "g^^^^^0^5"
              = Ok (legacy_options "g" EmptyString EmptyString EmptyString 0 5))
    by reflexivity.
  split; [exact H|].
  destruct (parseOptions_timeout_seconds "g^^^^^0^5" _ 0 5 H eq_refl eq_refl
              ltac:(lia)) as (_ & Ht & _).
  exact Ht.
Defined.

(** ** What parseLinks and parseMessage return *)

Section ParsingMore.

Variable json_Unmarshal : string -> result ProfileTestOptions.
Variables http_Get DecodeB64 : string -> result string.

Local Abbreviation parseLinks := (Web.parseLinks http_Get DecodeB64).
Local Abbreviation parseRetestMessage := (Web.parseRetestMessage json_Unmarshal).
Local Abbreviation parseMessage :=
  (Web.parseMessage json_Unmarshal http_Get DecodeB64).

Lemma parseLinks_not_nil (fuel : nat) :
  forall message links,
    parseLinks fuel message = Some (Ok links) -> links <> [].
Proof.
  induction fuel as [|fuel IH]; intros message links H; [discriminate|].
  cbn [Web.parseLinks] in H.
  destruct (MatchAnchored url_re message).
  - unfold getSubscriptionLinks_with in H.
    destruct (http_Get message) as [data|]; [|discriminate].
    destruct (DecodeB64 data) as [msg|]; [|discriminate].
    exact (IH msg links H).
  - destruct (List.length (FindAllString link_re message) <? 1)%nat eqn:E;
      [discriminate|].
    inversion H; subst; clear H.
    intros Hnil. rewrite Hnil in E. discriminate E.
Qed.


Lemma default_group_named (group : string) :
  default_group group <> EmptyString /\ default_group group <> "?empty?".
Proof.
  unfold default_group.
  destruct (String.eqb group "?empty?") eqn:E1; cbn [orb];
    [split; discriminate|].
  destruct (String.eqb group EmptyString) eqn:E2; [split; discriminate|].
  apply String.eqb_neq in E1, E2. auto.
Qed.

(** X5: the options parseMessage returns are normalised on both paths: the
    group name is neither empty nor the placeholder ?empty?, the concurrency
    is at least 1, and either the mode is ALL, with no explicit ids or links
    and a non-empty list of links, or the mode is RETEST and the links are
    those of the options. *)
Theorem parseMessage_normalised (fuel : nat) (message : string)
    (links : list string) (options : ProfileTestOptions) :
  parseMessage fuel message = Some (Ok (links, options)) ->
  GroupName options <> EmptyString
  /\ GroupName options <> "?empty?"
  /\ 1 <= Concurrency options
  /\ ((TestMode options = ALLTEST
       /\ TestIDs options = [] /\ Links options = [] /\ links <> [])
      \/ (TestMode options = RETEST /\ links = Links options)).
Proof.
  unfold Web.parseMessage. intros H.
  destruct (parseRetestMessage message) as [[links0 o]|e] eqn:R.
  - inversion H; subst; clear H.
    pose proof (parseRetestMessage_floors _ _ _ _ R) as (Hmode & Hl & Hc & _).
    revert R. unfold Web.parseRetestMessage.
    destruct (json_Unmarshal message) as [d|]; [|discriminate].
    destruct (negb (TestMode d =? RETEST)); [discriminate|].
    intros R. inversion R; subst; clear R. cbn [GroupName].
    pose proof (default_group_named (GroupName d)) as [Hg1 Hg2].
    repeat split; auto.
  - destruct (SplitN2 "^" message) as [|linktext [|params [|x rest]]];
      try discriminate.
    destruct (parseLinks fuel linktext) as [[links0|]|] eqn:L;
      try discriminate.
    destruct (parseOptions params) as [o|] eqn:P; [|discriminate].
    inversion H; subst; clear H.
    apply parseLinks_not_nil in L. rename L into Hne.
    pose proof (parseOptions_floors _ _ P) as (Hmode & Hc & _).
    revert P. unfold parseOptions.
    destruct (List.length (Split "^" params) <? 7)%nat; [discriminate|].
    destruct (Atoi (nth 5 (Split "^" params) EmptyString)); [|discriminate].
    destruct (Atoi (nth 6 (Split "^" params) EmptyString)); [|discriminate].
    intros P. inversion P; subst; clear P. cbn [GroupName TestIDs Links TestMode].
    pose proof (default_group_named (nth 0 (Split "^" params) EmptyString))
      as [Hg1 Hg2].
    repeat split; auto.
Qed.

(** X6: a text that json.Unmarshal decodes to an envelope in RETEST mode is
    taken on the RETEST path whatever else it holds: nothing is fetched, even
    with no fetch allowed, and the links of the envelope are returned as
    they are, without a look at their form. *)
Theorem parseMessage_retest_verbatim (fuel : nat) (message : string)
    (decoded : ProfileTestOptions) :
  json_Unmarshal message = Ok decoded ->
  TestMode decoded = RETEST ->
  parseMessage fuel message
  = Some (Ok (Links decoded, retest_options decoded)).
Proof.
  intros Hjson Hmode.
  unfold Web.parseMessage, Web.parseRetestMessage.
  rewrite Hjson, Hmode. cbn [Z.eqb RETEST negb].
  rewrite !floor_max. reflexivity.
Qed.

Lemma cut_no_sep (s : string) :
  no_caret s = true -> cut "^" s = (s, None).
Proof.
  induction s as [|c s IH]; cbn; [reflexivity|].
  intros H. apply andb_prop in H. destruct H as [Hc Hs].
  apply negb_true_iff in Hc. rewrite Hc, (IH Hs). reflexivity.
Qed.

Lemma cut_app_sep (a r : string) :
  no_caret a = true -> cut "^" (a ++ String "^" r) = (a, Some r).
Proof.
  induction a as [|c a IH]; cbn; [reflexivity|].
  intros H. apply andb_prop in H. destruct H as [Hc Ha].
  apply negb_true_iff in Hc. rewrite Hc.
  cbn in IH. rewrite (IH Ha). reflexivity.
Qed.

(** X7: when the text is no RETEST envelope, parseMessage cuts it at its
    first ^: the part before goes to parseLinks, the whole rest to
    parseOptions; an error of parseLinks comes before an error of
    parseOptions. *)
Theorem parseMessage_legacy_compose (fuel : nat) (linktext params : string) e :
  parseRetestMessage (linktext ++ String "^" params) = Err e ->
  no_caret linktext = true ->
  parseMessage fuel (linktext ++ String "^" params)
  = match parseLinks fuel linktext with
    | None => None
    | Some (Err e) => Some (Err e)
    | Some (Ok links) =>
        match parseOptions params with
        | Err e => Some (Err e)
        | Ok options => Some (Ok (links, options))
        end
    end.
Proof.
  intros Hr Hno. unfold Web.parseMessage. rewrite Hr.
  unfold SplitN2. rewrite cut_app_sep by exact Hno. reflexivity.
Qed.

(** X8: a text without any ^ that is no RETEST envelope is refused as
    invalid data, before any link is looked for and without a fetch. *)
Theorem parseMessage_no_caret (fuel : nat) (message : string) e :
  parseRetestMessage message = Err e ->
  no_caret message = true ->
  parseMessage fuel message = Some (Err ErrInvalidData).
Proof.
  intros Hr Hno. unfold Web.parseMessage. rewrite Hr.
  unfold SplitN2. rewrite cut_no_sep by exact Hno. reflexivity.
Qed.

End ParsingMore.


Lemma parseMessage_normalised_witness :
  parseMessage json_rejects offline offline 1 "vmess://abc^?empty?^^^^^0^5"
  = Some (Ok (["vmess://abc"],
              legacy_options "?empty?" EmptyString EmptyString EmptyString 0 5))
  /\ GroupName
       (legacy_options "?empty?" EmptyString EmptyString EmptyString 0 5)
     <> "?empty?".
Proof.
  assert (H : parseMessage json_rejects offline offline 1
                "vmess://abc^?empty?^^^^^0^5"
              = Some (Ok (["vmess://abc"],
                          legacy_options "?empty?" EmptyString EmptyString
                            EmptyString 0 5)))
    by (vm_compute; reflexivity).
  split; [exact H|].
  destruct (parseMessage_normalised json_rejects offline offline 1 _ _ _ H)
    as (_ & Hg & _).
  exact Hg.
Defined.

Lemma parseMessage_retest_verbatim_witness :
  json_reads short_ids_envelope "http://example.com^x" = Ok short_ids_envelope
  /\ TestMode short_ids_envelope = RETEST
  /\ parseMessage (json_reads short_ids_envelope) offline offline 0
       "http://example.com^x"
     = Some (Ok (Links short_ids_envelope, retest_options short_ids_envelope)).
Proof.
  split; [reflexivity|]. split; [reflexivity|].
  exact (parseMessage_retest_verbatim (json_reads short_ids_envelope)
           offline offline 0 "http://example.com^x" short_ids_envelope
           eq_refl eq_refl).
Defined.

Lemma parseMessage_legacy_compose_witness :
  parseRetestMessage json_rejects ("vmess://abc" ++ String "^" "g^^^^^3^30")
  = Err (ErrLib "invalid character")
  /\ no_caret "vmess://abc" = true
  /\ parseMessage json_rejects offline offline 1
       ("vmess://abc" ++ String "^" "g^^^^^3^30")
     = match parseLinks offline offline 1 "vmess://abc" with
       | None => None
       | Some (Err e) => Some (Err e)
       | Some (Ok links) =>
           match parseOptions "g^^^^^3^30" with
           | Err e => Some (Err e)
           | Ok options => Some (Ok (links, options))
           end
       end.
Proof.
  split; [reflexivity|]. split; [reflexivity|].
  exact (parseMessage_legacy_compose json_rejects offline offline 1
           "vmess://abc" "g^^^^^3^30" _ eq_refl eq_refl).
Defined.

Lemma parseMessage_no_caret_witness :
  parseRetestMessage json_rejects "vmess://abc"
  = Err (ErrLib "invalid character")
  /\ no_caret "vmess://abc" = true
  /\ parseMessage json_rejects offline offline 0 "vmess://abc"
     = Some (Err ErrInvalidData).
Proof.
  split; [reflexivity|]. split; [reflexivity|].
  exact (parseMessage_no_caret json_rejects offline offline 0 "vmess://abc" _
           eq_refl eq_refl).
Defined.

(** ** The matcher finds every match the pattern allows *)

Lemma iter_mono (g : bool) (step : string -> list string) (n : nat) :
  forall m s x,
    (n <= m)%nat -> In x (iter g step n s) -> In x (iter g step m s).
Proof.
  induction n as [|n IH]; intros m s x Hle Hin; [contradiction|].
  destruct m as [|m]; [lia|].
  cbn [iter] in *. apply in_flat_map in Hin. destruct Hin as (s' & Hs' & Hin).
  apply in_flat_map. exists s'. split; [exact Hs'|].
  destruct (String.length s' <? String.length s)%nat; [|exact Hin].
  destruct g.
  - apply in_app_or in Hin. apply in_or_app.
    destruct Hin as [Hin|Hin]; [left; apply IH; [lia | exact Hin] | right; exact Hin].
  - destruct Hin as [Hin|Hin]; [left; exact Hin | right; apply IH; [lia | exact Hin]].
Qed.

Lemma iter_first (g : bool) (step : string -> list string) (n : nat)
    (s rest : string) :
  In rest (step s) -> In rest (iter g step (S n) s).
Proof.
  intros H. cbn [iter]. apply in_flat_map. exists rest. split; [exact H|].
  destruct (String.length rest <? String.length s)%nat; [|left; reflexivity].
  destruct g; [apply in_or_app; right|]; left; reflexivity.
Qed.

Lemma rmatch_complete (r : regex) (w : string) :
  lang r w -> forall rest, In rest (rmatch r (w ++ rest)).
Proof.
  intros H.
  induction H as [|q c Hc|a b u v _ IHu _ IHv|a b u _ IH|a b u _ IH
                 |a|a u _ IH|g a u _ IH|g a u v _ IHu _ IHv]; intros rest.
  - left. reflexivity.
  - cbn. rewrite Hc. left. reflexivity.
  - cbn [rmatch]. apply in_flat_map. exists (v ++ rest)%string.
    rewrite str_app_assoc. split; [apply IHu | apply IHv].
  - cbn [rmatch]. apply in_or_app. left. apply IH.
  - cbn [rmatch]. apply in_or_app. right. apply IH.
  - cbn [rmatch]. apply in_or_app. right. left. reflexivity.
  - cbn [rmatch]. apply in_or_app. left. apply IH.
  - cbn [rmatch]. apply iter_first. apply IH.
  - destruct u as [|c u]; [exact (IHv rest)|].
    rewrite str_app_assoc. cbn [rmatch]. cbn [iter]. apply in_flat_map.
    exists (v ++ rest)%string. split; [apply IHu|].
    assert (Hlt : (String.length (v ++ rest)
                   <? String.length (String c u ++ v ++ rest))%nat = true).
    { apply Nat.ltb_lt. cbn. rewrite (str_length_app u). lia. }
    rewrite Hlt.
    assert (Hin : In rest (iter g (rmatch a)
                             (String.length (String c u ++ v ++ rest))
                             (v ++ rest))).
    { eapply iter_mono; [|exact (IHv rest)].
      cbn. rewrite (str_length_app u). lia. }
    destruct g; [apply in_or_app; left | right]; exact Hin.
Qed.

Lemma find_unfold (r : regex) (s : string) :
  find r s
  = match rmatch r s with
    | rest :: _ => Some (EmptyString, matched s rest, rest)
    | [] =>
        match s with
        | EmptyString => None
        | String c s' =>
            match find r s' with
            | Some (skipped, m, rest) => Some (String c skipped, m, rest)
            | None => None
            end
        end
    end.
Proof. destruct s; reflexivity. Qed.

Lemma find_complete (r : regex) (w : string) :
  lang r w -> forall a b, find r (a ++ w ++ b) <> None.
Proof.
  intros Hw a b. induction a as [|c a IH].
  - rewrite find_unfold. cbn [append].
    pose proof (rmatch_complete r w Hw b) as Hin.
    destruct (rmatch r (w ++ b)); [contradiction | discriminate].
  - rewrite find_unfold.
    destruct (rmatch r (String c a ++ w ++ b)); [|discriminate].
    cbn [append].
    destruct (find r (a ++ w ++ b)) as [[[sk m] rest]|];
      [discriminate | contradiction].
Qed.

(** ** Where the links of parseLinks come from *)

Lemma in_order_gap (gap : string) (ms : list string) (s : string) :
  in_order ms s -> in_order ms (gap ++ s).
Proof.
  intros H. destruct H as [s|g m rest ms H].
  - constructor.
  - rewrite <- str_app_assoc. constructor. exact H.
Qed.

Lemma FindAll_from_in_order (r : regex) (fuel : nat) :
  forall abut s, in_order (FindAll_from r fuel abut s) s.
Proof.
  induction fuel as [|fuel IH]; intros abut s; [constructor|].
  cbn [FindAll_from].
  destruct (find r s) as [[[skipped m] rest]|] eqn:F; [|constructor].
  apply find_sound in F. destruct F as (-> & _).
  destruct m as [|c m].
  - assert (Htl : in_order
                    match rest with
                    | EmptyString => []
                    | String _ rest' => FindAll_from r fuel false rest'
                    end rest).
    { destruct rest as [|c rest']; [constructor|].
      apply (in_order_gap (String c EmptyString)). apply IH. }
    destruct abut; [destruct skipped|];
      first [exact Htl | apply in_order_cons; exact Htl].
  - constructor. apply IH.
Qed.

Lemma lang_link_nonempty (l : string) : lang link_re l -> l <> EmptyString.
Proof.
  intros H. apply lang_alt_inv in H. destruct H as [H|H].
  - unfold token_re in H.
    apply lang_seq_inv in H. destruct H as (u & v & -> & _ & H).
    apply lang_seq_inv in H. destruct H as (sep & t & -> & Hsep & _).
    apply lang_lit in Hsep. subst sep. destruct u; discriminate.
  - apply cred_lang_form in H.
    destruct H as (scheme & cred & host & port & c & rest & -> & _).
    destruct scheme; discriminate.
Qed.

Section LinkFacts.

Variables http_Get DecodeB64 : string -> result string.

Local Abbreviation parseLinks := (Web.parseLinks http_Get DecodeB64).

(** X9: for a text that is not a URL, the links parseLinks returns are
    pieces of the text, none of them empty, that follow one another in the
    text without overlapping, in the order in which they are returned. *)
Theorem parseLinks_in_order (fuel : nat) (message : string)
    (links : list string) :
  MatchAnchored url_re message = false ->
  parseLinks (S fuel) message = Some (Ok links) ->
  in_order links message /\ Forall (fun l => l <> EmptyString) links.
Proof.
  intros Hurl H. cbn [Web.parseLinks] in H. rewrite Hurl in H.
  destruct (List.length (FindAllString link_re message) <? 1)%nat;
    [discriminate|].
  inversion H; subst; clear H. split.
  - apply FindAll_from_in_order.
  - apply Forall_forall. intros l Hin.
    apply FindAll_from_sound in Hin. destruct Hin as [Hl _].
    apply lang_link_nonempty. exact Hl.
Qed.

(** X10: for a text that is not a URL, parseLinks answers with the
    invalid-data error exactly when no piece of the text is a link of one of
    the four families, that is when no piece is in the language of the
    pattern. *)
Theorem parseLinks_invalid_iff (fuel : nat) (message : string) :
  MatchAnchored url_re message = false ->
  (parseLinks (S fuel) message = Some (Err ErrInvalidData)
   <-> ~ exists a l b, message = (a ++ l ++ b)%string /\ lang link_re l).
Proof.
  intros Hurl. cbn [Web.parseLinks]. rewrite Hurl. split.
  - intros H (a & l & b & -> & Hl).
    destruct (FindAllString link_re (a ++ l ++ b)) as [|x xs] eqn:E.
    + apply FindAllString_nil_find in E.
      exact (find_complete link_re l Hl a b E).
    + cbn in H. discriminate H.
  - intros Hno.
    destruct (find link_re message) as [[[skipped m] rest]|] eqn:F.
    + exfalso. apply Hno. apply find_sound in F. destruct F as (-> & Hm).
      eauto.
    + rewrite (find_none_FindAllString _ _ F). reflexivity.
Qed.

Lemma lang_lit_intro (s : string) : lang (lit s) s.
Proof.
  induction s as [|c s IH]; [constructor|].
  destruct s as [|c' s].
  - cbn. constructor. apply Ascii.eqb_refl.
  - change (lit (String c (String c' s)))
      with (Seq (chr c) (lit (String c' s))).
    apply (L_seq _ _ (String c EmptyString) (String c' s)); [|exact IH].
    constructor. apply Ascii.eqb_refl.
Qed.

Lemma url_re_http (m : string) :
  MatchAnchored url_re m = true ->
  starts_with "http://" m = true \/ starts_with "https://" m = true.
Proof.
  unfold MatchAnchored. intros H.
  destruct (rmatch url_re m) as [|rest l] eqn:E; [discriminate|].
  destruct (rmatch_sound url_re m rest) as (w & -> & Hw);
    [rewrite E; left; reflexivity|].
  unfold url_re in Hw.
  apply lang_seq_inv in Hw. destruct Hw as (h & w1 & -> & Hh & Hw).
  apply lang_lit in Hh. subst h.
  apply lang_seq_inv in Hw. destruct Hw as (s & w2 & -> & Hs & Hw).
  apply lang_seq_inv in Hw. destruct Hw as (sep & w3 & -> & Hsep & _).
  apply lang_lit in Hsep. subst sep.
  apply lang_opt_inv in Hs. destruct Hs as [->|Hs].
  - left. reflexivity.
  - apply (lang_lit "s") in Hs. subst s. right. reflexivity.
Qed.

Lemma url_re_host (secure : bool) (c : ascii) (r : string) :
  none_of [":"; "/"; nl]%char c = true ->
  MatchAnchored url_re
    ((if secure then "https://" else "http://") ++ String c r) = true.
Proof.
  intros Hc.
  assert (Hl : lang url_re
                 ("http" ++ (if secure then "s" else EmptyString) ++ "://"
                    ++ EmptyString ++ EmptyString ++ String c EmptyString)).
  { unfold url_re.
    apply L_seq; [apply lang_lit_intro|].
    apply L_seq.
    { destruct secure; [apply L_opt_some; apply (lang_lit_intro "s")
                       | apply L_opt_none]. }
    apply L_seq; [apply lang_lit_intro|].
    apply L_seq; [apply L_opt_none|].
    apply L_seq; [apply L_opt_none|].
    apply L_plus_one. constructor. exact Hc. }
  pose proof (rmatch_complete _ _ Hl r) as Hin.
  unfold MatchAnchored.
  replace ((if secure then "https://" else "http://") ++ String c r)%string
    with (("http" ++ (if secure then "s" else EmptyString) ++ "://"
             ++ EmptyString ++ EmptyString ++ String c EmptyString) ++ r)%string
    by (destruct secure; reflexivity).
  destruct (rmatch url_re _); [contradiction | reflexivity].
Qed.

(** X11: parseLinks goes to the network only for a text that begins with
    http:// or https://: any other text is searched for links on the spot,
    whatever the servers would answer; and a text that begins with http://
    or https:// followed by a character other than a colon, a slash and a
    newline is always fetched as a subscription. *)
Theorem parseLinks_fetches_http_only (fuel : nat) :
  (forall message,
      starts_with "http://" message = false ->
      starts_with "https://" message = false ->
      parseLinks (S fuel) message
      = match FindAllString link_re message with
        | [] => Some (Err ErrInvalidData)
        | links => Some (Ok links)
        end)
  /\ (forall (secure : bool) c r,
        none_of [":"; "/"; nl]%char c = true ->
        parseLinks (S fuel)
          ((if secure then "https://" else "http://") ++ String c r)
        = getSubscriptionLinks http_Get DecodeB64 fuel
            ((if secure then "https://" else "http://") ++ String c r)).
Proof.
  split.
  - intros message H1 H2. cbn [Web.parseLinks].
    destruct (MatchAnchored url_re message) eqn:E.
    + apply url_re_http in E. destruct E as [E|E]; congruence.
    + destruct (FindAllString link_re message); reflexivity.
  - intros secure c r Hc. cbn [Web.parseLinks].
    rewrite (url_re_host secure c r Hc). reflexivity.
Qed.

End LinkFacts.

Lemma parseLinks_in_order_witness :
  MatchAnchored url_re "a vmess://abc b ss://u@h:80#x" = false
  /\ parseLinks offline offline 1 "a vmess://abc b ss://u@h:80#x"
     = Some (Ok ["vmess://abc"; "ss://u@h:80#x"])
  /\ in_order ["vmess://abc"; "ss://u@h:80#x"] "a vmess://abc b ss://u@h:80#x".
Proof.
  assert (H1 : MatchAnchored url_re "a vmess://abc b ss://u@h:80#x" = false)
    by (vm_compute; reflexivity).
  assert (H2 : parseLinks offline offline 1 "a vmess://abc b ss://u@h:80#x"
               = Some (Ok ["vmess://abc"; "ss://u@h:80#x"]))
    by (vm_compute; reflexivity).
  split; [exact H1|]. split; [exact H2|].
  exact (proj1 (parseLinks_in_order offline offline 0 _ _ H1 H2)).
Defined.

Lemma parseLinks_invalid_iff_witness :
  MatchAnchored url_re "ss://user@host:8388" = false
  /\ parseLinks offline offline 1 "ss://user@host:8388"
     = Some (Err ErrInvalidData)
  /\ ~ exists a l b,
         "ss://user@host:8388" = (a ++ l ++ b)%string /\ lang link_re l.
Proof.
  assert (H1 : MatchAnchored url_re "ss://user@host:8388" = false)
    by (vm_compute; reflexivity).
  assert (H2 : parseLinks offline offline 1 "ss://user@host:8388"
               = Some (Err ErrInvalidData))
    by (vm_compute; reflexivity).
  split; [exact H1|]. split; [exact H2|].
  exact (proj1 (parseLinks_invalid_iff offline offline 0 _ H1) H2).
Defined.

Lemma parseLinks_fetches_http_only_witness :
  starts_with "http://" "vmess://abc" = false
  /\ starts_with "https://" "vmess://abc" = false
  /\ parseLinks offline offline 1 "vmess://abc" = Some (Ok ["vmess://abc"])
  /\ parseLinks offline offline 1 "https://example.com/sub"
     = Some (Err (ErrLib "no route to host")).
Proof.
  destruct (parseLinks_fetches_http_only offline offline 0) as [Hlocal Hnet].
  split; [reflexivity|]. split; [reflexivity|]. split.
  - etransitivity; [exact (Hlocal "vmess://abc" eq_refl eq_refl)|].
    vm_compute. reflexivity.
  - etransitivity; [exact (Hnet true "e"%char "xample.com/sub" eq_refl)|].
    reflexivity.
Defined.

(** ** The frames of the consumer, one by one *)

Lemma running_max_snoc (speeds : list Z) (s : Z) :
  running_max (speeds ++ [s]) = Z.max (running_max speeds) s.
Proof. unfold running_max. rewrite fold_left_app. reflexivity. Qed.

Lemma max_if (max s : Z) : (if max <? s then s else max) = Z.max max s.
Proof.
  destruct (max <? s) eqn:E; [apply Z.ltb_lt in E | apply Z.ltb_ge in E]; lia.
Qed.

Lemma consume_frames_from (received : list Z) :
  forall index speeds,
    consume index (running_max speeds) speeds received
    = map (fun n =>
             consumer_frame index
               (speeds ++ firstn (S n) (nonneg_prefix received)))
        (seq 0 (List.length (nonneg_prefix received))).
Proof.
  induction received as [|s received IH]; intros index speeds;
    cbn [consume nonneg_prefix]; [reflexivity|].
  destruct (s <? 0); [reflexivity|].
  cbn [List.length seq map firstn]. rewrite max_if, <- running_max_snoc.
  f_equal.
  - unfold consumer_frame. rewrite last_last. reflexivity.
  - rewrite <- seq_shift, map_map, IH. apply map_ext. intros n.
    rewrite <- app_assoc. reflexivity.
Qed.

(** X12: the consumer writes one gotspeed frame for each sample that comes
    before the first negative one and nothing after it; the n-th frame
    carries the average computed from the first n samples, the largest of
    them (0 at least) as max, and the n-th sample itself as the current
    speed. *)
Theorem consume_frames (index : Z) (samples : list Z) :
  consume index 0 [] samples
  = map (fun n => consumer_frame index (firstn (S n) (nonneg_prefix samples)))
      (seq 0 (List.length (nonneg_prefix samples))).
Proof. exact (consume_frames_from samples index []). Qed.

(** ** One pipeline, case by case *)

Ltac pipeline_cases :=
  cbv beta iota zeta delta [worker testOne pingLink];
  repeat (match goal with
          | |- context [match ?x with _ => _ end] =>
              lazymatch x with
              | context [match _ with _ => _ end] => fail
              | _ => destruct x eqn:?
              end
          end;
          cbv beta iota zeta).

Ltac absurd_link :=
  match goal with
  | H : String.eqb ?l EmptyString = true, N : ?l <> EmptyString |- _ =>
      apply String.eqb_eq in H; contradiction
  | H : String.eqb ?l EmptyString = false, E : ?l = EmptyString |- _ =>
      rewrite E in H; discriminate H
  | H : ?x = None, N : ?x <> None |- _ => contradiction
  | H : ?x = Some _, E : ?x = None |- _ => rewrite E in H; discriminate H
  end.

Section PipelineMore.

Variable PingLink : string -> Z -> Z * option error.
Variable Download : string -> Z -> list Z * Z * option error.
Variable p : ProfileTest.t.

Local Abbreviation worker := (Web.worker PingLink Download p).

(** X13: a pipeline panics in one case only, when it is started without a
    link for an id outside the links of the batch, and then right after
    lowering the counter; in every other case it does nothing but write its
    own frames, start its consumer and call the probe and the download, it
    lowers the counter once when it was started without a link and never
    when it was given one, and it ends by writing endone and giving its
    token back. *)
Theorem worker_endone_last (id : Z) (link : string) :
  (link = EmptyString -> elem (ProfileTest.Links p) id = None ->
   worker id link = [WgDone; Panic])
  /\ (link <> EmptyString \/ elem (ProfileTest.Links p) id <> None ->
      exists acts,
        worker id link = acts ++ [Write (MsgByte id "endone" []); Release]
        /\ Forall (pipeline_action p id) acts
        /\ List.length (filter is_done acts)
           = if String.eqb link EmptyString then 1%nat else 0%nat).
Proof.
  split.
  - intros -> Hnone. unfold Web.worker, testOne. cbn [String.eqb].
    rewrite Hnone. reflexivity.
  - intros Hcase.
    assert (Hok : String.eqb link EmptyString = true ->
                  elem (ProfileTest.Links p) id = None -> False).
    { intros E Hn. apply String.eqb_eq in E. destruct Hcase; contradiction. }
    pipeline_cases;
      try (exfalso; apply Hok; [reflexivity | first [assumption | reflexivity]]);
      try discriminate;
      (eexists; split; [reflexivity|]; split;
       [repeat first [apply Forall_nil | apply Forall_app; split
                     | apply Forall_cons]; cbn; auto 8
       | rewrite ?filter_app; cbn; reflexivity]).
Qed.

(** X14: the frames of a pipeline that does not panic all carry its id, end
    with endone and come in the order startping, gotping, sentinel gotspeed,
    startspeed, sentinel gotspeed, endone, some of them left out; in
    speed-only mode there is no startping and the probe is not called; in
    any other mode the first two frames are startping and gotping. *)
Theorem worker_frame_order (id : Z) (link : string) :
  link <> EmptyString \/ elem (ProfileTest.Links p) id <> None ->
  subseq (map typ_of (frames (worker id link))) pipeline_order = true
  /\ last (frames (worker id link)) (Text EmptyString)
     = MsgByte id "endone" []
  /\ Forall (fun f => exists typ args, f = MsgByte id typ args)
       (frames (worker id link))
  /\ (SpeedTestMode (ProfileTest.Options p) = SpeedOnly ->
      hd EmptyString (map typ_of (frames (worker id link))) = "startspeed"
      /\ forall l n, ~ In (CallPing l n) (worker id link))
  /\ (SpeedTestMode (ProfileTest.Options p) <> SpeedOnly ->
      firstn 2 (map typ_of (frames (worker id link)))
      = ["startping"; "gotping"]).
Proof.
  intros Hcase.
  assert (Hok : String.eqb link EmptyString = true ->
                elem (ProfileTest.Links p) id = None -> False).
  { intros E Hn. apply String.eqb_eq in E. destruct Hcase; contradiction. }
  pipeline_cases;
    try (exfalso; apply Hok; [reflexivity | first [assumption | reflexivity]]);
    try discriminate;
    match goal with
    | E : String.eqb (SpeedTestMode _) SpeedOnly = true |- _ =>
        apply String.eqb_eq in E
    | E : String.eqb (SpeedTestMode _) SpeedOnly = false |- _ =>
        apply String.eqb_neq in E
    end;
    (split; [reflexivity|]); (split; [reflexivity|]);
    (split;
     [cbn;
      repeat first [apply Forall_nil
                   | apply Forall_cons; [do 2 eexists; reflexivity|]]|]);
    (split;
     [intros Hm;
      first [contradiction
            | split; [reflexivity|];
              intros l' n' Hin; cbn in Hin;
              repeat (destruct Hin as [Hin|Hin]; [discriminate Hin|]);
              exact Hin]
     | intros Hm; first [contradiction | reflexivity]]).
Qed.

End PipelineMore.

Lemma worker_endone_last_witness :
  ("vmess://abc" <> EmptyString
   \/ elem (ProfileTest.Links (example_batch EmptyString [])) 3 <> None)
  /\ exists acts,
       worker ping_42 download_three (example_batch EmptyString []) 3
         "vmess://abc"
       = acts ++ [Write (MsgByte 3 "endone" []); Release]
       /\ List.length (filter is_done acts) = 0%nat.
Proof.
  assert (H : "vmess://abc" <> EmptyString
              \/ elem (ProfileTest.Links (example_batch EmptyString [])) 3
                 <> None) by (left; discriminate).
  split; [exact H|].
  destruct (proj2 (worker_endone_last ping_42 download_three
                     (example_batch EmptyString []) 3 "vmess://abc") H)
    as (acts & Hw & _ & Hd).
  exists acts. split; [exact Hw | exact Hd].
Defined.

Lemma worker_frame_order_witness :
  (EmptyString <> EmptyString
   \/ elem (ProfileTest.Links (example_batch EmptyString ["vmess://abc"])) 0
      <> None)
  /\ map typ_of
       (frames (worker ping_42 download_three
                  (example_batch EmptyString ["vmess://abc"]) 0 EmptyString))
     = ["startping"; "gotping"; "startspeed"; "endone"]
  /\ subseq
       (map typ_of
          (frames (worker ping_42 download_three
                     (example_batch EmptyString ["vmess://abc"]) 0 EmptyString)))
       pipeline_order = true.
Proof.
  assert (H : EmptyString <> EmptyString
              \/ elem (ProfileTest.Links
                         (example_batch EmptyString ["vmess://abc"])) 0
                 <> None) by (right; discriminate).
  split; [exact H|]. split; [reflexivity|].
  exact (proj1 (worker_frame_order ping_42 download_three
                  (example_batch EmptyString ["vmess://abc"]) 0 EmptyString H)).
Defined.

(** ** Invariants of every run *)

Lemma total_cons (weight : action -> Z) (a : action) (t : list action) :
  total weight (a :: t) = weight a + total weight t.
Proof. reflexivity. Qed.

Lemma total_all_cons (weight : action -> Z) (t : list action) ts :
  total_all weight (t :: ts) = total weight t + total_all weight ts.
Proof. reflexivity. Qed.

Lemma total_app (weight : action -> Z) (t u : list action) :
  total weight (t ++ u) = total weight t + total weight u.
Proof.
  induction t as [|a t IH]; [reflexivity|].
  cbn [app]. rewrite !total_cons, IH. lia.
Qed.

Lemma total_all_app (weight : action -> Z) (ts us : list (list action)) :
  total_all weight (ts ++ us) = total_all weight ts + total_all weight us.
Proof.
  induction ts as [|t ts IH]; [reflexivity|].
  cbn [app]. rewrite !total_all_cons, IH. lia.
Qed.

Lemma covered_tail (weight : action -> Z) (a : action) (t : list action) :
  covered weight (a :: t) -> covered weight t.
Proof. intros [_ H]. exact H. Qed.

Lemma covered_total (weight : action -> Z) (t : list action) :
  covered weight t -> 0 <= total weight t.
Proof. destruct t; [cbn; lia | intros [H _]; exact H]. Qed.

Lemma covered_nonneg (weight : action -> Z) (t : list action) :
  (forall a, 0 <= weight a) -> covered weight t.
Proof.
  intros Hw. induction t as [|a t IH]; [exact I|].
  split; [|exact IH]. pose proof (covered_total _ _ IH). pose proof (Hw a).
  rewrite total_cons. lia.
Qed.

Lemma covered_app_zero (weight : action -> Z) (t u : list action) :
  Forall (fun a => weight a = 0) t -> covered weight u ->
  covered weight (t ++ u).
Proof.
  intros Ht Hu. induction Ht as [|a t Ha _ IH]; [exact Hu|].
  cbn [app covered]. split; [|exact IH].
  pose proof (covered_total _ _ IH). rewrite total_cons. lia.
Qed.

Lemma total_all_covered (weight : action -> Z) (ts : list (list action)) :
  Forall (covered weight) ts -> 0 <= total_all weight ts.
Proof.
  induction 1 as [|t ts Ht _ IH]; [cbn; lia|].
  rewrite total_all_cons. pose proof (covered_total _ _ Ht). lia.
Qed.

Section Invariants.

Variable SPEEDTEST_ERROR_NONODES : string.
Variable PingLink : string -> Z -> Z * option error.
Variable Download : string -> Z -> list Z * Z * option error.
Variable p : ProfileTest.t.

Local Abbreviation step := (Web.step PingLink Download p).
Local Abbreviation exec := (Web.exec PingLink Download p).
Local Abbreviation reachable :=
  (Web.reachable SPEEDTEST_ERROR_NONODES PingLink Download p).
Local Abbreviation worker := (Web.worker PingLink Download p).
Local Abbreviation testAll := (Web.testAll SPEEDTEST_ERROR_NONODES p).
Local Abbreviation init := (Web.init SPEEDTEST_ERROR_NONODES p).

Lemma exec_rest a rest m rest' new m' :
  exec a rest m rest' new m' -> rest' = rest \/ rest' = [].
Proof. intros H. inversion H; subst; auto. Qed.

Lemma exec_new a rest m rest' new m' :
  exec a rest m rest' new m' ->
  new = []
  \/ (exists id link, a = GoTest id link /\ new = [worker id link])
  \/ (exists index samples,
         a = GoConsume index samples /\ new = [consumer index samples]).
Proof. intros H. inversion H; subst; eauto 6. Qed.

(** A property of threads that holds for [testAll], passes to what is left
    of a thread after a step and to the threads it starts holds for all the
    threads of every state of a run. *)
Section Threads.

Variable P : list action -> Prop.
Hypothesis P_tail : forall a t, P (a :: t) -> P t.
Hypothesis P_nil : P [].
Hypothesis P_worker : forall id link t, P (GoTest id link :: t) -> P (worker id link).
Hypothesis P_consumer :
  forall index samples t, P (GoConsume index samples :: t) ->
                          P (consumer index samples).
Hypothesis P_testAll : P testAll.

Lemma threads_step (s s' : state) :
  Forall P (threads s) -> step s s' -> Forall P (threads s').
Proof.
  intros Hall Hst.
  inversion Hst as [before a rest after m rest' new m' Hc Hex Hs Hs'
                   | ts m Hc Hs Hs']; subst; cbn [threads] in *; [|exact Hall].
  apply Forall_app in Hall. destruct Hall as [Hb Hta].
  inversion Hta as [|? ? Ht Ha]; subst.
  apply Forall_app. split; [exact Hb|]. constructor.
  - destruct (exec_rest _ _ _ _ _ _ Hex) as [-> | ->];
      [exact (P_tail _ _ Ht) | exact P_nil].
  - apply Forall_app. split; [exact Ha|].
    destruct (exec_new _ _ _ _ _ _ Hex)
      as [-> | [(id & link & -> & ->) | (index & samples & -> & ->)]].
    + constructor.
    + constructor; [exact (P_worker _ _ _ Ht) | constructor].
    + constructor; [exact (P_consumer _ _ _ Ht) | constructor].
Qed.

Lemma threads_reachable (s : state) : reachable s -> Forall P (threads s).
Proof.
  intros Hs. unfold Web.reachable in Hs.
  remember init as s0 eqn:E0.
  induction Hs as [s|s1 s2 s3 _ IH Hst]; subst.
  - cbn. constructor; [exact P_testAll | constructor].
  - eapply threads_step; [apply IH; reflexivity | exact Hst].
Qed.

End Threads.

(** A quantity of the memory plus the weights still to come never grows,
    once every step pays for what it adds. *)
Section Budget.

Variable weight : action -> Z.
Variable value : shared -> Z.

Hypothesis exec_pays :
  forall a rest m rest' new m',
    exec a rest m rest' new m' ->
    covered weight (a :: rest) ->
    value m' + total weight rest' + total_all weight new
    <= value m + total weight (a :: rest).
Hypothesis cancel_free : forall m, value (with_cancelled m) = value m.
Hypothesis worker_covered :
  forall id link t, covered weight (GoTest id link :: t) ->
                    covered weight (worker id link).
Hypothesis consumer_covered :
  forall index samples, covered weight (consumer index samples).
Hypothesis testAll_covered : covered weight testAll.

Lemma budget_covered (s : state) :
  reachable s -> Forall (covered weight) (threads s).
Proof.
  apply threads_reachable.
  - apply covered_tail.
  - exact I.
  - exact worker_covered.
  - intros index samples t _. apply consumer_covered.
  - exact testAll_covered.
Qed.

Lemma budget_step (s s' : state) :
  Forall (covered weight) (threads s) -> step s s' ->
  value (mem s') + total_all weight (threads s')
  <= value (mem s) + total_all weight (threads s).
Proof.
  intros Hall Hst.
  inversion Hst as [before a rest after m rest' new m' Hc Hex Hs Hs'
                   | ts m Hc Hs Hs']; subst; cbn [threads mem] in *.
  - apply Forall_app in Hall. destruct Hall as [_ Hta].
    inversion Hta as [|? ? Ht _]; subst.
    pose proof (exec_pays _ _ _ _ _ _ Hex Ht) as Hpay.
    rewrite !total_all_app, !total_all_cons, !total_all_app. lia.
  - rewrite cancel_free. lia.
Qed.

Lemma budget_reachable (s : state) :
  reachable s ->
  value (mem s) + total_all weight (threads s)
  <= value (mem init) + total weight testAll.
Proof.
  intros Hs. pose proof Hs as Hr. unfold Web.reachable in Hs.
  remember init as s0 eqn:E0.
  induction Hs as [s|s1 s2 s3 H12 IH Hst]; subst.
  - cbn. lia.
  - pose proof (budget_step s2 s3 (budget_covered s2 H12) Hst).
    specialize (IH eq_refl H12). lia.
Qed.

End Budget.

End Invariants.

(** ** How many eof and endone frames a run can write *)

Lemma count_frames_snoc (q : frame -> bool) (fs : list frame) (f : frame) :
  count_frames q (fs ++ [f]) = count_frames q fs + (if q f then 1 else 0).
Proof.
  unfold count_frames. rewrite filter_app, length_app. cbn [filter].
  destruct (q f); cbn [List.length]; lia.
Qed.

Lemma count_frames_nonneg (q : frame -> bool) (fs : list frame) :
  0 <= count_frames q fs.
Proof. unfold count_frames. lia. Qed.

Ltac pays :=
  match goal with
  | Hex : Web.exec _ _ _ _ _ _ _ _ _, Hcov : covered ?w (?a :: ?rest) |- _ =>
      let H0 := fresh "H0" in
      let H1 := fresh "H1" in
      pose proof (covered_total _ _ Hcov) as H0;
      pose proof (covered_total _ _ (covered_tail _ _ _ Hcov)) as H1;
      rewrite total_cons in H0;
      inversion Hex; subst; clear Hex;
      rewrite ?total_cons in *
  end.

Section FrameCounts.

Variable SPEEDTEST_ERROR_NONODES : string.
Variable PingLink : string -> Z -> Z * option error.
Variable Download : string -> Z -> list Z * Z * option error.
Variable p : ProfileTest.t.

Local Abbreviation exec := (Web.exec PingLink Download p).
Local Abbreviation reachable :=
  (Web.reachable SPEEDTEST_ERROR_NONODES PingLink Download p).
Local Abbreviation worker := (Web.worker PingLink Download p).
Local Abbreviation testAll := (Web.testAll SPEEDTEST_ERROR_NONODES p).

Lemma consume_weightless (weight : action -> Z) (samples : list Z) :
  (forall i args, weight (Recv (MsgByte i "gotspeed" args)) = 0) ->
  forall index max speeds,
    total weight (map Recv (consume index max speeds samples)) = 0.
Proof.
  intros Hw. induction samples as [|s samples IH]; intros index max speeds;
    cbn [consume map]; [reflexivity|].
  destruct (s <? 0); [reflexivity|].
  cbn [map]. rewrite total_cons, Hw, IH. reflexivity.
Qed.

Lemma consumer_weightless (weight : action -> Z) (index : Z) (samples : list Z) :
  (forall i args, weight (Recv (MsgByte i "gotspeed" args)) = 0) ->
  total weight (consumer index samples) = 0.
Proof. intros Hw. apply consume_weightless. exact Hw. Qed.

Lemma worker_eof_weight (id : Z) (link : string) :
  total eof_weight (worker id link) = 0.
Proof. pipeline_cases; reflexivity. Qed.

Lemma worker_endone_weight (id : Z) (link : string) :
  0 <= total endone_weight (worker id link) <= 1.
Proof. pipeline_cases; cbn; lia. Qed.

Lemma total_zero (weight : action -> Z) (t : list action) :
  Forall (fun a => weight a = 0) t -> total weight t = 0.
Proof.
  induction 1 as [|a t Ha _ IH]; [reflexivity|].
  rewrite total_cons, Ha, IH. reflexivity.
Qed.

Lemma gotservers_weightless (weight : action -> Z) (links : list string) :
  (forall i l g, weight (Write (GotserverMsg i l g)) = 0) ->
  forall i, Forall (fun a => weight a = 0) (gotservers p i links).
Proof.
  intros Hw. induction links as [|l links IH]; intros i; cbn [gotservers];
    constructor; [apply Hw | apply IH].
Qed.

Lemma dispatch_eof_weight (links : list string) :
  forall i, 0 <= total eof_weight (dispatch p i links) <= 1.
Proof.
  induction links as [|l links IH]; intros i; cbn [dispatch].
  - cbn. lia.
  - destruct (dispatchArgs p i) as [[id link]|]; [|cbn; lia].
    rewrite !total_cons. cbn [eof_weight]. specialize (IH (i + 1)). lia.
Qed.

Lemma dispatch_endone_weight (links : list string) :
  forall i, 0 <= total endone_weight (dispatch p i links)
            <= Z.of_nat (List.length links).
Proof.
  induction links as [|l links IH]; intros i; cbn [dispatch].
  - cbn. lia.
  - destruct (dispatchArgs p i) as [[id link]|]; [|cbn; lia].
    rewrite !total_cons. cbn [endone_weight List.length].
    specialize (IH (i + 1)). lia.
Qed.

Lemma testAll_eof_weight : total eof_weight testAll <= 1.
Proof.
  unfold Web.testAll.
  destruct (List.length (ProfileTest.Links p) <? 1)%nat; [cbn; lia|].
  rewrite total_cons, total_app.
  change (eof_weight (Write (MsgByte (-1) "started" []))) with 0.
  assert (Hg : total eof_weight (gotservers p 0 (ProfileTest.Links p)) = 0).
  { apply total_zero, gotservers_weightless. reflexivity. }
  rewrite Hg.
  destruct (Concurrency (ProfileTest.Options p) <? 0); [cbn; lia|].
  pose proof (dispatch_eof_weight (ProfileTest.Links p) 0). lia.
Qed.

Lemma testAll_endone_weight :
  total endone_weight testAll <= Z.of_nat (List.length (ProfileTest.Links p)).
Proof.
  unfold Web.testAll.
  destruct (List.length (ProfileTest.Links p) <? 1)%nat; [cbn; lia|].
  rewrite total_cons, total_app.
  change (endone_weight (Write (MsgByte (-1) "started" []))) with 0.
  assert (Hg : total endone_weight (gotservers p 0 (ProfileTest.Links p)) = 0).
  { apply total_zero, gotservers_weightless. reflexivity. }
  rewrite Hg.
  destruct (Concurrency (ProfileTest.Options p) <? 0); [cbn; lia|].
  pose proof (dispatch_endone_weight (ProfileTest.Links p) 0). lia.
Qed.

(** X15: no run writes eof more than once, whatever the batch, the schedule,
    the answers of the primitives and the moment of a cancellation. *)
Theorem eof_at_most_once (s : state) :
  reachable s -> count_frames is_eof (sent (mem s)) <= 1.
Proof.
  intros Hs.
  assert (Hcov : forall t, covered eof_weight t).
  { intros t. apply covered_nonneg. intros [f| | | | | | | |f| | | |]; cbn;
      try lia; destruct (is_eof f); lia. }
  pose proof (budget_reachable SPEEDTEST_ERROR_NONODES PingLink Download p
                eof_weight (fun m => count_frames is_eof (sent m))) as Hb.
  assert (Hle : count_frames is_eof (sent (mem s))
                + total_all eof_weight (threads s)
                <= 0 + total eof_weight testAll).
  { apply Hb; auto.
    intros a rest m rest' new m' Hex Hc. pays;
      cbn [eof_weight sent with_frame with_wg with_guard with_crashed
           with_call with_returned with_cancelled total_all fold_right total];
      rewrite ?count_frames_snoc, ?worker_eof_weight;
      rewrite ?(consumer_weightless eof_weight) by reflexivity;
      cbn [eof_weight] in *; try lia;
      destruct (is_eof f); lia. }
  pose proof testAll_eof_weight.
  assert (0 <= total_all eof_weight (threads s)).
  { apply total_all_covered. apply Forall_forall. intros t _. apply Hcov. }
  lia.
Qed.

(** X16: no run writes more endone frames than the batch has links. *)
Theorem endone_at_most_links (s : state) :
  reachable s ->
  count_frames is_endone (sent (mem s))
  <= Z.of_nat (List.length (ProfileTest.Links p)).
Proof.
  intros Hs.
  assert (Hcov : forall t, covered endone_weight t).
  { intros t. apply covered_nonneg. intros [f| | | | | | | |f| | | |]; cbn;
      try lia; destruct (is_endone f); lia. }
  pose proof (budget_reachable SPEEDTEST_ERROR_NONODES PingLink Download p
                endone_weight (fun m => count_frames is_endone (sent m))) as Hb.
  assert (Hle : count_frames is_endone (sent (mem s))
                + total_all endone_weight (threads s)
                <= 0 + total endone_weight testAll).
  { apply Hb; auto.
    intros a rest m rest' new m' Hex Hc. pays;
      cbn [endone_weight sent with_frame with_wg with_guard with_crashed
           with_call with_returned with_cancelled total_all fold_right total];
      rewrite ?count_frames_snoc;
      rewrite ?(consumer_weightless endone_weight) by reflexivity;
      cbn [endone_weight] in *;
      try (pose proof (worker_endone_weight id link));
      try lia;
      destruct (is_endone f); lia. }
  pose proof testAll_endone_weight.
  assert (0 <= total_all endone_weight (threads s)).
  { apply total_all_covered. apply Forall_forall. intros t _. apply Hcov. }
  lia.
Qed.

End FrameCounts.

Lemma eof_at_most_once_witness :
  reachable "no nodes" ping_42 download_nothing retest_batch retest_blocked
  /\ count_frames is_eof (sent (mem retest_blocked)) <= 1.
Proof.
  assert (H : reachable "no nodes" ping_42 download_nothing retest_batch
                retest_blocked)
    by (apply (run_steps _ _ _ retest_schedule); vm_compute; reflexivity).
  split; [exact H|].
  exact (eof_at_most_once "no nodes" ping_42 download_nothing retest_batch
           retest_blocked H).
Defined.

Lemma endone_at_most_links_witness :
  reachable "no nodes" ping_42 download_nothing retest_batch retest_blocked
  /\ count_frames is_endone (sent (mem retest_blocked)) = 2
  /\ count_frames is_endone (sent (mem retest_blocked))
     <= Z.of_nat (List.length (ProfileTest.Links retest_batch)).
Proof.
  assert (H : reachable "no nodes" ping_42 download_nothing retest_batch
                retest_blocked)
    by (apply (run_steps _ _ _ retest_schedule); vm_compute; reflexivity).
  split; [exact H|]. split; [reflexivity|].
  exact (endone_at_most_links "no nodes" ping_42 download_nothing retest_batch
           retest_blocked H).
Defined.

(** ** The tokens of the channel guard *)

Lemma covered_forall_nonneg (weight : action -> Z) (t : list action) :
  Forall (fun a => 0 <= weight a) t -> covered weight t.
Proof.
  induction 1 as [|a t Ha _ IH]; [exact I|].
  split; [|exact IH]. pose proof (covered_total _ _ IH).
  rewrite total_cons. lia.
Qed.

Lemma plain_total (t : list action) :
  Forall (fun a => match a with Acquire _ | GoTest _ _ => False | _ => True end) t ->
  0 <= total token_weight t
  /\ (has_release t = true -> 1 <= total token_weight t).
Proof.
  induction 1 as [|a t Ha _ [IH0 IH1]]; [cbn; split; [lia | discriminate]|].
  rewrite total_cons. unfold has_release in *. cbn [existsb].
  destruct a; try contradiction; cbn [token_weight orb]; split; try lia;
    intros H; try (specialize (IH1 H)); lia.
Qed.

Lemma active_le_total (ts : list (list action)) :
  Forall (covered token_weight) ts ->
  Forall one_sided ts ->
  Z.of_nat (List.length (filter has_release ts)) <= total_all token_weight ts.
Proof.
  intros Hc Ho. induction Hc as [|t ts Ht _ IH]; [cbn; lia|].
  inversion Ho as [|? ? Hot Hots]; subst. specialize (IH Hots).
  rewrite total_all_cons. cbn [filter].
  pose proof (covered_total _ _ Ht) as H0.
  destruct (has_release t) eqn:E; [|lia].
  cbn [List.length]. destruct Hot as [Hp|Hn].
  - pose proof (proj2 (plain_total t Hp) E). lia.
  - exfalso. unfold has_release in E. apply existsb_exists in E.
    destruct E as (a & Hin & Ha).
    pose proof (proj1 (Forall_forall _ _) Hn a Hin) as Hna.
    destruct a; try discriminate Ha. exact Hna.
Qed.

Section Tokens.

Variable SPEEDTEST_ERROR_NONODES : string.
Variable PingLink : string -> Z -> Z * option error.
Variable Download : string -> Z -> list Z * Z * option error.
Variable p : ProfileTest.t.

Local Abbreviation step := (Web.step PingLink Download p).
Local Abbreviation exec := (Web.exec PingLink Download p).
Local Abbreviation reachable :=
  (Web.reachable SPEEDTEST_ERROR_NONODES PingLink Download p).
Local Abbreviation worker := (Web.worker PingLink Download p).
Local Abbreviation testAll := (Web.testAll SPEEDTEST_ERROR_NONODES p).
Local Abbreviation init := (Web.init SPEEDTEST_ERROR_NONODES p).

Lemma worker_plain (id : Z) (link : string) :
  Forall (fun a => match a with Acquire _ | GoTest _ _ => False | _ => True end)
    (worker id link)
  /\ total token_weight (worker id link) <= 1.
Proof.
  pipeline_cases;
    (split;
     [repeat first [apply Forall_nil | apply Forall_app; split
                   | apply Forall_cons; [exact I|]]
     | cbn; lia]).
Qed.

Lemma consumer_plain (index : Z) (samples : list Z) :
  Forall (fun a => match a with Acquire _ | GoTest _ _ => False | _ => True end)
    (consumer index samples).
Proof.
  unfold consumer. apply Forall_map. apply Forall_forall. intros f _. exact I.
Qed.

Lemma gotservers_forall (P : action -> Prop) (links : list string) :
  (forall i l g, P (Write (GotserverMsg i l g))) ->
  forall i, Forall P (gotservers p i links).
Proof.
  intros HP. induction links as [|l links IH]; intros i; cbn [gotservers];
    constructor; [apply HP | apply IH].
Qed.

Lemma dispatch_tokens (links : list string) :
  forall i,
    covered token_weight (dispatch p i links)
    /\ total token_weight (dispatch p i links) = 0
    /\ Forall (fun a => match a with Release => False | _ => True end)
         (dispatch p i links).
Proof.
  induction links as [|l links IH]; intros i; cbn [dispatch].
  - cbn. repeat split; try lia. repeat constructor.
  - destruct (dispatchArgs p i) as [[id link]|].
    + destruct (IH (i + 1)) as (Hc & Ht & Hn).
      cbn [covered]. rewrite !total_cons, Ht. cbn [token_weight].
      repeat split; try lia; try exact Hc. repeat constructor. exact Hn.
    + cbn. repeat split; try lia. repeat constructor.
Qed.

Lemma testAll_tokens :
  covered token_weight testAll
  /\ total token_weight testAll = 0
  /\ Forall (fun a => match a with Release => False | _ => True end) testAll.
Proof.
  unfold Web.testAll.
  destruct (List.length (ProfileTest.Links p) <? 1)%nat.
  - cbn. repeat split; try lia. repeat constructor.
  - assert (Hg : Forall (fun a => token_weight a = 0)
                   (gotservers p 0 (ProfileTest.Links p)))
      by (apply gotservers_weightless; reflexivity).
    assert (Hgn : Forall (fun a => match a with Release => False | _ => True end)
                    (gotservers p 0 (ProfileTest.Links p))).
    { apply gotservers_forall. intros i l g. exact I. }
    assert (Hbody : covered token_weight
                      (if Concurrency (ProfileTest.Options p) <? 0 then [Panic]
                       else dispatch p 0 (ProfileTest.Links p))
                    /\ total token_weight
                         (if Concurrency (ProfileTest.Options p) <? 0 then [Panic]
                          else dispatch p 0 (ProfileTest.Links p)) = 0
                    /\ Forall (fun a => match a with Release => False | _ => True end)
                         (if Concurrency (ProfileTest.Options p) <? 0 then [Panic]
                          else dispatch p 0 (ProfileTest.Links p))).
    { destruct (Concurrency (ProfileTest.Options p) <? 0);
        [cbn; repeat split; try lia; repeat constructor | apply dispatch_tokens]. }
    destruct Hbody as (Hc & Ht & Hn).
    split; [|split].
    + apply (covered_app_zero token_weight
               (Write (MsgByte (-1) "started" [])
                  :: gotservers p 0 (ProfileTest.Links p))); [|exact Hc].
      constructor; [reflexivity | exact Hg].
    + rewrite total_cons, total_app, (total_zero _ _ Hg), Ht. reflexivity.
    + constructor; [exact I|]. apply Forall_app. split; assumption.
Qed.

Lemma guard_bounds (s : state) :
  reachable s ->
  0 <= guard (mem s) <= Z.max 0 (Concurrency (ProfileTest.Options p)).
Proof.
  intros Hs. unfold Web.reachable in Hs.
  remember init as s0 eqn:E0.
  induction Hs as [s|s1 s2 s3 _ IH Hst]; subst; [cbn; lia|].
  specialize (IH eq_refl).
  inversion Hst as [before a rest after m rest' new m' Hc Hex Hs Hs'
                   | ts m Hc Hs Hs']; subst; cbn [threads mem] in *;
    [|exact IH].
  inversion Hex; subst; cbn [guard with_frame with_wg with_guard with_crashed
                             with_call with_returned] in *; lia.
Qed.

(** X17: at every moment of every run the number of pipelines that hold a
    token, started and not yet past their last step, is at most the number of
    tokens in the channel guard, which is at most the concurrency of the
    options (and 0 when that is negative). *)
Theorem concurrency_bound (s : state) :
  reachable s ->
  active s <= guard (mem s)
  /\ guard (mem s) <= Z.max 0 (Concurrency (ProfileTest.Options p)).
Proof.
  intros Hs. split; [|apply guard_bounds; exact Hs].
  destruct testAll_tokens as (Hc & Ht & Hn).
  assert (Hcov : Forall (covered token_weight) (threads s)).
  { apply (budget_covered SPEEDTEST_ERROR_NONODES PingLink Download p);
      try assumption.
    - intros id link t _. apply covered_forall_nonneg.
      eapply Forall_impl; [|exact (proj1 (worker_plain id link))].
      intros a Ha. destruct a; try contradiction; cbn; lia.
    - intros index samples. apply covered_forall_nonneg.
      eapply Forall_impl; [|exact (consumer_plain index samples)].
      intros a Ha. destruct a; try contradiction; cbn; lia. }
  assert (Hone : Forall one_sided (threads s)).
  { apply (threads_reachable SPEEDTEST_ERROR_NONODES PingLink Download p);
      try assumption.
    - intros a t [H|H]; [left | right]; inversion H; assumption.
    - left. constructor.
    - intros id link t _. left. exact (proj1 (worker_plain id link)).
    - intros index samples t _. left. apply consumer_plain.
    - right. exact Hn. }
  pose proof (active_le_total _ Hcov Hone) as Hact.
  pose proof (budget_reachable SPEEDTEST_ERROR_NONODES PingLink Download p
                token_weight (fun m => - guard m)) as Hb.
  assert (Hle : - guard (mem s) + total_all token_weight (threads s)
                <= - guard (mem init) + total token_weight testAll).
  { apply Hb; auto.
    - intros a rest m rest' new m' Hex Hcv. pays;
        cbn [token_weight guard with_frame with_wg with_guard with_crashed
             with_call with_returned total_all fold_right total] in *;
        try (pose proof (proj2 (worker_plain id link)));
        rewrite ?(consumer_weightless token_weight) by reflexivity;
        lia.
    - intros id link t _. apply covered_forall_nonneg.
      eapply Forall_impl; [|exact (proj1 (worker_plain id link))].
      intros a Ha. destruct a; try contradiction; cbn; lia.
    - intros index samples. apply covered_forall_nonneg.
      eapply Forall_impl; [|exact (consumer_plain index samples)].
      intros a Ha. destruct a; try contradiction; cbn; lia. }
  rewrite Ht in Hle. cbn [Web.init mem guard] in Hle. unfold active. lia.
Qed.

End Tokens.

Lemma concurrency_bound_witness :
  reachable "no nodes" ping_42 download_nothing retest_batch retest_blocked
  /\ active retest_blocked <= guard (mem retest_blocked)
  /\ guard (mem retest_blocked)
     <= Z.max 0 (Concurrency (ProfileTest.Options retest_batch)).
Proof.
  assert (H : reachable "no nodes" ping_42 download_nothing retest_batch
                retest_blocked)
    by (apply (run_steps _ _ _ retest_schedule); vm_compute; reflexivity).
  split; [exact H|].
  exact (concurrency_bound "no nodes" ping_42 download_nothing retest_batch
           retest_blocked H).
Defined.

(** ** A batch without explicit links never panics *)

Section NoPanic.

Variable SPEEDTEST_ERROR_NONODES : string.
Variable PingLink : string -> Z -> Z * option error.
Variable Download : string -> Z -> list Z * Z * option error.
Variable p : ProfileTest.t.

Local Abbreviation step := (Web.step PingLink Download p).
Local Abbreviation exec := (Web.exec PingLink Download p).
Local Abbreviation steps := (Web.steps PingLink Download p).
Local Abbreviation reachable :=
  (Web.reachable SPEEDTEST_ERROR_NONODES PingLink Download p).
Local Abbreviation worker := (Web.worker PingLink Download p).
Local Abbreviation testAll := (Web.testAll SPEEDTEST_ERROR_NONODES p).
Local Abbreviation init := (Web.init SPEEDTEST_ERROR_NONODES p).

Lemma worker_done_weight (id : Z) (link : string) :
  total done_weight (worker id link)
  = (if String.eqb link EmptyString then 1 else 0)
  /\ Forall (fun a => 0 <= done_weight a) (worker id link).
Proof.
  pipeline_cases;
    (split;
     [reflexivity
     | repeat first [apply Forall_nil | apply Forall_app; split
                    | apply Forall_cons; [cbn; lia|]]]).
Qed.

Lemma worker_calm (id : Z) :
  elem (ProfileTest.Links p) id <> None -> calm p (worker id EmptyString).
Proof.
  intros Hid. unfold calm. pipeline_cases; try contradiction;
    try discriminate;
    repeat first [apply Forall_nil | apply Forall_app; split
                 | apply Forall_cons; [exact I|]].
Qed.

Lemma consumer_calm (index : Z) (samples : list Z) :
  calm p (consumer index samples).
Proof.
  unfold calm, consumer. apply Forall_map. apply Forall_forall.
  intros f _. exact I.
Qed.

Hypothesis no_explicit :
  TestIDs (ProfileTest.Options p) = [] \/ Links (ProfileTest.Options p) = [].
Hypothesis concurrency_nonneg : 0 <= Concurrency (ProfileTest.Options p).

Lemma dispatchArgs_default (i : Z) : dispatchArgs p i = Some (i, EmptyString).
Proof.
  unfold dispatchArgs.
  destruct no_explicit as [-> | ->]; cbn; [reflexivity|].
  rewrite andb_false_r. reflexivity.
Qed.

Lemma dispatch_default (links : list string) :
  forall before,
    ProfileTest.Links p = before ++ links ->
    covered done_weight (dispatch p (Z.of_nat (List.length before)) links)
    /\ total done_weight (dispatch p (Z.of_nat (List.length before)) links) = 0
    /\ calm p (dispatch p (Z.of_nat (List.length before)) links).
Proof.
  induction links as [|l links IH]; intros before Hsplit; cbn [dispatch].
  - cbn. repeat split; try lia. repeat constructor.
  - rewrite dispatchArgs_default.
    destruct (IH (before ++ [l])) as (Hc & Ht & Hcalm).
    { rewrite <- app_assoc. exact Hsplit. }
    rewrite length_app in Hc, Ht, Hcalm. cbn [List.length] in Hc, Ht, Hcalm.
    replace (Z.of_nat (List.length before + 1))
      with (Z.of_nat (List.length before) + 1) in Hc, Ht, Hcalm by lia.
    cbn [covered]. rewrite !total_cons, Ht. cbn [done_weight String.eqb].
    repeat split; try lia; try exact Hc.
    constructor; [exact I|]. constructor; [exact I|].
    constructor; [|exact Hcalm]. split; [reflexivity|].
    unfold elem. replace (Z.of_nat (List.length before) <? 0) with false
      by (symmetry; apply Z.ltb_ge; lia).
    rewrite Nat2Z.id, Hsplit, nth_error_app2 by lia.
    rewrite Nat.sub_diag. discriminate.
Qed.

Lemma testAll_default :
  covered done_weight testAll
  /\ total done_weight testAll = 0
  /\ calm p testAll.
Proof.
  unfold Web.testAll.
  destruct (List.length (ProfileTest.Links p) <? 1)%nat.
  - cbn. repeat split; try lia. repeat constructor.
  - replace (Concurrency (ProfileTest.Options p) <? 0) with false
      by (symmetry; apply Z.ltb_ge; exact concurrency_nonneg).
    destruct (dispatch_default (ProfileTest.Links p) [] eq_refl)
      as (Hc & Ht & Hcalm).
    cbn [List.length Z.of_nat] in Hc, Ht, Hcalm.
    assert (Hg : Forall (fun a => done_weight a = 0)
                   (gotservers p 0 (ProfileTest.Links p)))
      by (apply gotservers_weightless; reflexivity).
    split; [|split].
    + apply (covered_app_zero done_weight
               (Write (MsgByte (-1) "started" [])
                  :: gotservers p 0 (ProfileTest.Links p))); [|exact Hc].
      constructor; [reflexivity | exact Hg].
    + rewrite total_cons, total_app, (total_zero _ _ Hg), Ht. reflexivity.
    + constructor; [exact I|]. apply Forall_app. split; [|exact Hcalm].
      apply gotservers_forall. intros i l g. exact I.
Qed.

Lemma default_calm (s : state) : reachable s -> Forall (calm p) (threads s).
Proof.
  apply threads_reachable.
  - intros a t H. inversion H; assumption.
  - constructor.
  - intros id link t H. inversion H as [|? ? Hh _]; subst.
    cbn in Hh. destruct Hh as [-> Hid]. apply worker_calm. exact Hid.
  - intros index samples t _. apply consumer_calm.
  - exact (proj2 (proj2 testAll_default)).
Qed.

Lemma default_counter (s : state) :
  reachable s ->
  Forall (covered done_weight) (threads s)
  /\ total_all done_weight (threads s) <= wg (mem s).
Proof.
  intros Hs.
  destruct testAll_default as (Hc & Ht & _).
  assert (Hw : forall id link t,
             covered done_weight (GoTest id link :: t) ->
             covered done_weight (worker id link)).
  { intros id link t _. apply covered_forall_nonneg.
    exact (proj2 (worker_done_weight id link)). }
  assert (Hcons : forall index samples,
             covered done_weight (consumer index samples)).
  { intros index samples. apply covered_forall_nonneg.
    unfold consumer. apply Forall_map. apply Forall_forall.
    intros f _. cbn. lia. }
  split.
  - apply (budget_covered SPEEDTEST_ERROR_NONODES PingLink Download p);
      assumption.
  - pose proof (budget_reachable SPEEDTEST_ERROR_NONODES PingLink Download p
                  done_weight (fun m => - wg m)) as Hb.
    assert (Hle : - wg (mem s) + total_all done_weight (threads s)
                  <= - wg (mem init) + total done_weight testAll).
    { apply Hb; auto.
      intros a rest m rest' new m' Hex Hcv. pays;
        cbn [done_weight wg with_frame with_wg with_guard with_crashed
             with_call with_returned total_all fold_right total] in *;
        try (rewrite (proj1 (worker_done_weight id link)));
        rewrite ?(consumer_weightless done_weight) by reflexivity;
        lia. }
    rewrite Ht in Hle. cbn [Web.init mem wg] in Hle. lia.
Qed.

Lemma total_in_all (weight : action -> Z) before (t : list action) after :
  Forall (covered weight) (before ++ t :: after) ->
  total weight t <= total_all weight (before ++ t :: after).
Proof.
  intros H. apply Forall_app in H. destruct H as [Hb Hta].
  inversion Hta as [|? ? _ Ha]; subst.
  rewrite total_all_app, total_all_cons.
  pose proof (total_all_covered _ _ Hb). pose proof (total_all_covered _ _ Ha).
  lia.
Qed.


End NoPanic.


(** ** The frames every run begins with *)

Section Header.

Variable SPEEDTEST_ERROR_NONODES : string.
Variable PingLink : string -> Z -> Z * option error.
Variable Download : string -> Z -> list Z * Z * option error.
Variable p : ProfileTest.t.

Local Abbreviation step := (Web.step PingLink Download p).
Local Abbreviation exec := (Web.exec PingLink Download p).
Local Abbreviation reachable :=
  (Web.reachable SPEEDTEST_ERROR_NONODES PingLink Download p).
Local Abbreviation testAll := (Web.testAll SPEEDTEST_ERROR_NONODES p).
Local Abbreviation init := (Web.init SPEEDTEST_ERROR_NONODES p).

Lemma exec_sent a rest m rest' new m' :
  exec a rest m rest' new m' -> exists more, sent m' = sent m ++ more.
Proof.
  intros H. inversion H; subst; cbn;
    first [exists []; rewrite app_nil_r; reflexivity | eexists; reflexivity].
Qed.

Lemma gotservers_frames (links : list string) :
  forall i,
    gotservers p i links
    = map Write
        (gotserver_frames (GroupName (ProfileTest.Options p)) i links).
Proof.
  induction links as [|l links IH]; intros i; cbn; [reflexivity|].
  rewrite IH. reflexivity.
Qed.

Lemma testAll_header :
  ProfileTest.Links p <> [] ->
  exists body, testAll = map Write (header p) ++ body.
Proof.
  intros Hne. unfold Web.testAll, header.
  destruct (ProfileTest.Links p) as [|l links]; [contradiction|].
  cbn [List.length Nat.ltb Nat.leb]. rewrite gotservers_frames.
  eexists. reflexivity.
Qed.

(** X19: in every run of a batch that has links the frames written begin
    with started and then one gotserver frame for each link, in the order of
    the links and numbered from 0, each with the link and the group name: at
    any moment what has been written is a beginning of that header or
    begins with the whole of it, so that no frame of a pipeline and no eof
    comes before the last gotserver. *)
Theorem header_first (s : state) :
  ProfileTest.Links p <> [] ->
  reachable s ->
  exists fs,
    sent (mem s) ++ fs = header p \/ sent (mem s) = header p ++ fs.
Proof.
  intros Hne Hs. destruct (testAll_header Hne) as (body & Hbody).
  assert (Hinv : (exists fs, threads s = [map Write fs ++ body]
                             /\ sent (mem s) ++ fs = header p)
                 \/ exists fs, sent (mem s) = header p ++ fs).
  { unfold Web.reachable in Hs. remember init as s0 eqn:E0.
    induction Hs as [s|s1 s2 s3 _ IH Hst]; subst.
    - left. exists (header p). cbn. rewrite Hbody. auto.
    - specialize (IH eq_refl).
      inversion Hst as [before a rest after m rest' new m' Hc Hex Hs2 Hs3
                       | ts m Hc Hs2 Hs3]; subst; cbn [threads mem] in *.
      + destruct (exec_sent _ _ _ _ _ _ Hex) as (more & Hmore).
        destruct IH as [(fs & Ht & Hsent)|(fs & Hsent)].
        * apply app_cons_single in Ht. destruct Ht as (-> & Ht & ->).
          destruct fs as [|f fs].
          -- right. exists more. rewrite Hmore, <- Hsent, app_nil_r.
             reflexivity.
          -- cbn [map app] in Ht. inversion Ht; subst; clear Ht.
             inversion Hex; subst. left. exists fs. cbn [app sent with_frame].
             split; [reflexivity|]. rewrite <- app_assoc. exact Hsent.
        * right. exists (fs ++ more). rewrite Hmore, Hsent, app_assoc.
          reflexivity.
      + destruct IH as [(fs & Ht & Hsent)|(fs & Hsent)];
          [left | right]; exists fs; cbn; auto. }
  destruct Hinv as [(fs & _ & H)|(fs & H)]; exists fs; auto.
Qed.

End Header.

Lemma header_first_witness :
  ProfileTest.Links retest_batch <> []
  /\ reachable "no nodes" ping_42 download_nothing retest_batch retest_blocked
  /\ header retest_batch
     = [MsgByte (-1) "started" [];
        GotserverMsg 0 "ss://x" "Default Group";
        GotserverMsg 1 "trojan://y" "Default Group"]
  /\ exists fs,
       sent (mem retest_blocked) ++ fs = header retest_batch
       \/ sent (mem retest_blocked) = header retest_batch ++ fs.
Proof.
  assert (H1 : ProfileTest.Links retest_batch <> []) by discriminate.
  assert (H2 : reachable "no nodes" ping_42 download_nothing retest_batch
                 retest_blocked)
    by (apply (run_steps _ _ _ retest_schedule); vm_compute; reflexivity).
  split; [exact H1|]. split; [exact H2|]. split; [reflexivity|].
  exact (header_first "no nodes" ping_42 download_nothing retest_batch
           retest_blocked H1 H2).
Defined.

(** ** eof comes after every pipeline has returned from testOne *)

Lemma settled_winding (t : list action) : settled t -> winding t.
Proof.
  induction 1 as [|a t Ha Ht IH]; [exact I|].
  cbn [winding]. split; [|split; [exact IH|]].
  - destruct a; try contradiction; try exact I; cbn in *.
    + destruct f as [i typ args| |]; try discriminate. cbn in *.
      destruct (String.eqb typ "eof") eqn:E; [|reflexivity].
      apply String.eqb_eq in E. subst. discriminate Ha.
    + exact Ha.
  - intros ->. contradiction.
Qed.

Lemma settled_pipeline_thread (t : list action) :
  settled t -> pipeline_thread t.
Proof. intros H. split; [apply settled_winding; exact H | right; exact H]. Qed.

Lemma pipeline_thread_tail (a : action) (t : list action) :
  pipeline_thread (a :: t) -> pipeline_thread t.
Proof.
  intros [(Hq & Hw & Hd) [Hp|Hs]].
  - split; [exact Hw|]. cbn [existsb] in Hp.
    destruct a; cbn [is_done orb] in Hp; try (left; exact Hp).
    right. apply Hd. reflexivity.
  - inversion Hs; subst. apply settled_pipeline_thread. assumption.
Qed.

Lemma winding_weights (t : list action) :
  winding t ->
  0 <= total done_weight t
  /\ (total done_weight t = 0 -> existsb is_done t = false).
Proof.
  induction t as [|a t IH]; [cbn; split; [lia | reflexivity]|].
  intros (Hq & Hw & _). destruct (IH Hw) as [H0 H1].
  rewrite total_cons. cbn [existsb].
  destruct a; try contradiction; cbn [done_weight is_done orb];
    split; try lia; try (intros; apply H1; lia).
Qed.

Lemma pipeline_thread_settled (t : list action) :
  pipeline_thread t -> total done_weight t = 0 -> settled t.
Proof.
  intros [Hw [Hp|Hs]] Ht; [|exact Hs].
  rewrite (proj2 (winding_weights t Hw) Ht) in Hp. discriminate Hp.
Qed.

Lemma all_settled (ts : list (list action)) :
  Forall pipeline_thread ts ->
  total_all done_weight ts <= 0 ->
  Forall settled ts.
Proof.
  induction 1 as [|t ts Ht Hts IH]; intros Hle; [constructor|].
  rewrite total_all_cons in Hle.
  pose proof (proj1 (winding_weights t (proj1 Ht))) as H0.
  assert (H1 : 0 <= total_all done_weight ts).
  { clear - Hts. induction Hts as [|u us Hu _ IHu]; [cbn; lia|].
    rewrite total_all_cons.
    pose proof (proj1 (winding_weights u (proj1 Hu))). lia. }
  constructor; [apply pipeline_thread_settled; [exact Ht | lia] | apply IH; lia].
Qed.

Section EofLast.

Variable SPEEDTEST_ERROR_NONODES : string.
Variable PingLink : string -> Z -> Z * option error.
Variable Download : string -> Z -> list Z * Z * option error.
Variable p : ProfileTest.t.

Local Abbreviation step := (Web.step PingLink Download p).
Local Abbreviation exec := (Web.exec PingLink Download p).
Local Abbreviation reachable :=
  (Web.reachable SPEEDTEST_ERROR_NONODES PingLink Download p).
Local Abbreviation worker := (Web.worker PingLink Download p).
Local Abbreviation testAll := (Web.testAll SPEEDTEST_ERROR_NONODES p).
Local Abbreviation init := (Web.init SPEEDTEST_ERROR_NONODES p).

Lemma worker_pipeline_thread (id : Z) :
  elem (ProfileTest.Links p) id <> None ->
  pipeline_thread (worker id EmptyString).
Proof.
  intros Hid. unfold Web.worker, testOne. cbn [String.eqb].
  pipeline_cases; try contradiction; try discriminate;
    (split;
     [cbn; repeat split; try reflexivity; try (intros; discriminate);
      repeat constructor
     | left; reflexivity]).
Qed.

Lemma consumer_pipeline_thread (index : Z) (samples : list Z) :
  pipeline_thread (consumer index samples).
Proof.
  apply settled_pipeline_thread. unfold settled, consumer.
  apply Forall_map. eapply Forall_impl; [|apply consume_no_eof]. auto.
Qed.

Hypothesis no_explicit :
  TestIDs (ProfileTest.Options p) = [] \/ Links (ProfileTest.Options p) = [].
Hypothesis concurrency_nonneg : 0 <= Concurrency (ProfileTest.Options p).

Lemma dispatch_quiet (links : list string) :
  forall before,
    ProfileTest.Links p = before ++ links ->
    exists pre,
      dispatch p (Z.of_nat (List.length before)) links = pre ++ closing
      /\ Forall (quiet_main p) pre.
Proof.
  induction links as [|l links IH]; intros before Hsplit; cbn [dispatch].
  - exists []. split; [reflexivity | constructor].
  - rewrite (dispatchArgs_default p no_explicit).
    destruct (IH (before ++ [l])) as (pre & E & Hpre).
    { rewrite <- app_assoc. exact Hsplit. }
    rewrite length_app in E. cbn [List.length] in E.
    replace (Z.of_nat (List.length before + 1))
      with (Z.of_nat (List.length before) + 1) in E by lia.
    exists (WgAdd :: Acquire (Z.of_nat (List.length before))
              :: GoTest (Z.of_nat (List.length before)) EmptyString :: pre).
    split; [rewrite E; reflexivity|].
    constructor; [exact I|]. constructor; [exact I|].
    constructor; [|exact Hpre]. split; [reflexivity|].
    unfold elem. replace (Z.of_nat (List.length before) <? 0) with false
      by (symmetry; apply Z.ltb_ge; lia).
    rewrite Nat2Z.id, Hsplit, nth_error_app2 by lia.
    rewrite Nat.sub_diag. discriminate.
Qed.

Lemma testAll_quiet :
  (exists pre, testAll = pre ++ closing /\ Forall (quiet_main p) pre)
  \/ Forall (quiet_main p) testAll.
Proof.
  unfold Web.testAll.
  destruct (List.length (ProfileTest.Links p) <? 1)%nat.
  - right. repeat constructor.
  - left.
    replace (Concurrency (ProfileTest.Options p) <? 0) with false
      by (symmetry; apply Z.ltb_ge; exact concurrency_nonneg).
    destruct (dispatch_quiet (ProfileTest.Links p) [] eq_refl)
      as (pre & E & Hpre).
    cbn [List.length Z.of_nat] in E.
    exists (Write (MsgByte (-1) "started" [])
              :: gotservers p 0 (ProfileTest.Links p) ++ pre).
    split; [rewrite E, app_comm_cons, app_assoc; reflexivity|].
    constructor; [reflexivity|]. apply Forall_app. split; [|exact Hpre].
    apply gotservers_forall. intros i l g. reflexivity.
Qed.

(** What holds of the threads at every moment of a run: [testAll] comes
    first, the pipelines and consumers after it. *)
Lemma eof_last_states (s : state) :
  reachable s ->
  exists main others,
    threads s = main :: others
    /\ Forall pipeline_thread others
    /\ ((no_eof (sent (mem s))
         /\ ((exists pre, main = pre ++ closing /\ Forall (quiet_main p) pre)
             \/ Forall (quiet_main p) main))
        \/ (no_eof (sent (mem s))
            /\ main = [Write eof; Return None]
            /\ Forall settled others)
        \/ ((main = [Return None] \/ main = [])
            /\ Forall settled others)).
Proof.
  intros Hs. pose proof Hs as Hr. unfold Web.reachable in Hs.
  remember init as s0 eqn:E0.
  induction Hs as [s|s1 s2 s3 H12 IH Hst]; subst.
  - exists testAll, []. split; [reflexivity|]. split; [constructor|].
    left. split; [reflexivity | exact testAll_quiet].
  - specialize (IH eq_refl H12).
    destruct IH as (main & others & Hth & Hothers & Hcase).
    pose proof (default_counter SPEEDTEST_ERROR_NONODES PingLink Download p
                  no_explicit concurrency_nonneg s2 H12) as [_ Hwg].
    inversion Hst as [before a rest after m rest' new m' Hc Hex Hs2 Hs3
                     | ts m Hc Hs2 Hs3]; subst; cbn [threads mem] in *.
    2: { exists main, others. auto. }
    destruct before as [|b before]; cbn [app] in Hth;
      inversion Hth; subst; clear Hth.
    + (* testAll takes the step *)
      exists rest', (others ++ new). split; [reflexivity|].
      destruct Hcase as [[Hno [(pre & Hmain & Hpre)|Hq]]
                        |[(Hno & Hmain & Hset)|([Hmain|Hmain] & Hset)]].
      * destruct pre as [|b pre]; cbn [app] in Hmain;
          inversion Hmain; subst; clear Hmain.
        -- inversion Hex; subst. rewrite app_nil_r.
           split; [exact Hothers|]. right. left.
           split; [exact Hno|]. split; [reflexivity|].
           apply all_settled; [exact Hothers|].
           cbn [app] in Hwg. rewrite total_all_cons in Hwg.
           match goal with Hz : wg _ = 0 |- _ => rewrite Hz in Hwg end.
           cbn in Hwg. lia.
        -- inversion Hpre as [|? ? Hb Hpre']; subst.
           inversion Hex; subst; cbn [quiet_main] in Hb; try contradiction;
             try match type of Hb with
                 | ?l = EmptyString /\ _ => destruct Hb as [Hb Hid]; subst l
                 end;
             rewrite ?app_nil_r;
             (split;
              [first [exact Hothers
                     | apply Forall_app; split; [exact Hothers|];
                       constructor;
                       [first [apply worker_pipeline_thread; exact Hid
                              | apply consumer_pipeline_thread]
                       | constructor]]
              | left; split;
                [first [exact Hno | apply no_eof_snoc; assumption]
                | first [left; exists pre; split; [reflexivity | exact Hpre']
                        | right; constructor]]]).
      * inversion Hq as [|? ? Hb Hq']; subst.
        inversion Hex; subst; cbn [quiet_main] in Hb; try contradiction;
          try match type of Hb with
                 | ?l = EmptyString /\ _ => destruct Hb as [Hb Hid]; subst l
                 end;
          rewrite ?app_nil_r;
          (split;
           [first [exact Hothers
                  | apply Forall_app; split; [exact Hothers|];
                    constructor;
                    [first [apply worker_pipeline_thread; exact Hid
                           | apply consumer_pipeline_thread]
                    | constructor]]
           | left; split;
             [first [exact Hno | apply no_eof_snoc; assumption]
             | right; first [exact Hq' | constructor]]]).
      * inversion Hmain; subst. inversion Hex; subst. rewrite app_nil_r.
        split; [exact Hothers|]. right. right. split; [left; reflexivity|].
        exact Hset.
      * inversion Hmain; subst. inversion Hex; subst. rewrite app_nil_r.
        split; [exact Hothers|]. right. right. split; [right; reflexivity|].
        exact Hset.
      * discriminate Hmain.
    + (* a pipeline or a consumer takes the step *)
      eexists. exists (before ++ rest' :: after ++ new).
      split; [reflexivity|].
      apply Forall_app in Hothers. destruct Hothers as [Hbefore Hta].
      inversion Hta as [|? ? Ht Hafter]; subst.
      assert (Hrest : pipeline_thread rest').
      { destruct (exec_rest _ _ _ _ _ _ _ _ _ Hex) as [-> | ->];
          [exact (pipeline_thread_tail _ _ Ht)
          | apply settled_pipeline_thread; constructor]. }
      pose proof (proj1 (proj1 Ht)) as Hqa.
      assert (Hnew : Forall pipeline_thread new
                     /\ (settled (a :: rest) -> new = [])).
      { inversion Hex; subst; cbn [quiet] in Hqa; try contradiction;
          (split;
           [first [apply Forall_nil
                  | apply Forall_cons;
                    [apply consumer_pipeline_thread | apply Forall_nil]]
           | intros Hs'; inversion Hs' as [|? ? Ha _]; subst;
             first [reflexivity | contradiction]]). }
      destruct Hnew as [Hnew Hnone].
      assert (Hsent : no_eof (sent m) -> no_eof (sent m')).
      { intros Hno. inversion Hex; subst; cbn [quiet] in Hqa;
          try contradiction; cbn;
          first [exact Hno | apply no_eof_snoc; assumption]. }
      split.
      { apply Forall_app. split; [exact Hbefore|].
        constructor; [exact Hrest|]. apply Forall_app. split; assumption. }
      assert (Hsettle : Forall settled (before ++ (a :: rest) :: after) ->
                        Forall settled (before ++ rest' :: after ++ new)).
      { intros Hall. apply Forall_app in Hall. destruct Hall as [Hb' Hta'].
        inversion Hta' as [|? ? Ht' Ha']; subst.
        rewrite (Hnone Ht'), app_nil_r.
        apply Forall_app. split; [exact Hb'|]. constructor; [|exact Ha'].
        destruct (exec_rest _ _ _ _ _ _ _ _ _ Hex) as [-> | ->];
          [inversion Ht'; assumption | constructor]. }
      destruct Hcase as [[Hno Hmain]
                        |[(Hno & Hmain & Hset)|(Hmain & Hset)]].
      * left. split; [exact (Hsent Hno) | exact Hmain].
      * right. left. split; [exact (Hsent Hno)|]. split; [exact Hmain|].
        exact (Hsettle Hset).
      * right. right. split; [exact Hmain | exact (Hsettle Hset)].
Qed.

(** X20: in a batch without explicit ids or links and with a concurrency of
    0 or more, once eof has been written every pipeline has returned from
    testOne: no goroutine has anything left to do but write its endone frame,
    give its token back, take samples in a consumer or return from testAll,
    so that every startping, gotping, startspeed and sentinel frame of the
    run comes before eof. *)
Theorem eof_after_pipelines (s : state) :
  reachable s ->
  1 <= count_frames is_eof (sent (mem s)) ->
  Forall settled (threads s).
Proof.
  intros Hs Heof.
  destruct (eof_last_states s Hs) as (main & others & Hth & _ & Hcase).
  assert (Hcontra : no_eof (sent (mem s)) -> False).
  { unfold no_eof, count_frames in *. intros Hno.
    assert (Hnil : filter is_eof (sent (mem s)) = []).
    { clear - Hno. induction (sent (mem s)) as [|f fs IH]; [reflexivity|].
      cbn in *. destruct (is_eof f); [discriminate|]. apply IH. exact Hno. }
    rewrite Hnil in Heof. cbn in Heof. lia. }
  rewrite Hth.
  destruct Hcase as [[Hno _]|[(Hno & _)|([-> | ->] & Hset)]];
    try (exfalso; exact (Hcontra Hno)).
  - constructor; [repeat constructor | exact Hset].
  - constructor; [constructor | exact Hset].
Qed.

End EofLast.

Lemma eof_after_pipelines_witness :
  reachable "no nodes" ping_42 download_nothing
    (example_batch EmptyString ["vmess://abc"]) eof_written
  /\ 1 <= count_frames is_eof (sent (mem eof_written))
  /\ Forall settled (threads eof_written).
Proof.
  assert (H1 : TestIDs (ProfileTest.Options
                          (example_batch EmptyString ["vmess://abc"])) = []
               \/ Links (ProfileTest.Options
                           (example_batch EmptyString ["vmess://abc"])) = [])
    by (left; reflexivity).
  assert (H2 : 0 <= Concurrency
                      (ProfileTest.Options
                         (example_batch EmptyString ["vmess://abc"])))
    by (cbn; lia).
  assert (H3 : reachable "no nodes" ping_42 download_nothing
                 (example_batch EmptyString ["vmess://abc"]) eof_written)
    by (apply (run_steps _ _ _ (firstn 16 racy_schedule));
        vm_compute; reflexivity).
  assert (H4 : 1 <= count_frames is_eof (sent (mem eof_written)))
    by (vm_compute; discriminate).
  split; [exact H3|]. split; [exact H4|].
  exact (eof_after_pipelines "no nodes" ping_42 download_nothing
           (example_batch EmptyString ["vmess://abc"]) H1 H2
           eof_written H3 H4).
Defined.

(** ** A batch without explicit ids can run to its end *)

Lemma extends_trans (m1 m2 m3 : shared) (d1 d2 t1 t2 : Z)
    (f1 f2 : list frame) :
  extends m1 m2 d1 t1 f1 ->
  extends m2 m3 d2 t2 f2 ->
  extends m1 m3 (d1 + d2) (t1 + t2) (f1 ++ f2).
Proof.
  unfold extends. intros (A1 & A2 & A3 & A4 & A5) (B1 & B2 & B3 & B4 & B5).
  rewrite B1, B2, B3, B4, B5, A1, A2, A3, A4, A5, app_assoc.
  repeat split; lia.
Qed.

Lemma pipeline_step_nonneg (t : list action) :
  Forall pipeline_step t ->
  0 <= total done_weight t /\ 0 <= total token_weight t.
Proof.
  induction 1 as [|a t Ha _ IH]; [cbn; lia|].
  rewrite !total_cons.
  destruct a; try contradiction; cbn [done_weight token_weight]; lia.
Qed.

Lemma served_writes (fs : list frame) : served (map Write fs) = fs.
Proof. induction fs as [|f fs IH]; cbn; [|rewrite IH]; reflexivity. Qed.

Section Serial.

Variable SPEEDTEST_ERROR_NONODES : string.
Variable PingLink : string -> Z -> Z * option error.
Variable Download : string -> Z -> list Z * Z * option error.
Variable p : ProfileTest.t.

Local Abbreviation step := (Web.step PingLink Download p).
Local Abbreviation steps := (Web.steps PingLink Download p).
Local Abbreviation exec := (Web.exec PingLink Download p).
Local Abbreviation reachable :=
  (Web.reachable SPEEDTEST_ERROR_NONODES PingLink Download p).
Local Abbreviation worker := (Web.worker PingLink Download p).
Local Abbreviation serial := (Web.serial PingLink Download p).
Local Abbreviation testAll := (Web.testAll SPEEDTEST_ERROR_NONODES p).
Local Abbreviation init := (Web.init SPEEDTEST_ERROR_NONODES p).

Lemma step_plain a rest before after m m' :
  crashed m = false ->
  exec a rest m rest [] m' ->
  step {| threads := before ++ (a :: rest) :: after; mem := m |}
       {| threads := before ++ rest :: after; mem := m' |}.
Proof.
  intros Hc Hex.
  pose proof (step_thread PingLink Download p before a rest after m rest []
                m' Hc Hex) as H.
  rewrite app_nil_r in H. exact H.
Qed.

Lemma steps_one s1 s2 : step s1 s2 -> steps s1 s2.
Proof. intros H. eapply steps_step; [apply steps_refl | exact H]. Qed.

(** One action of a pipeline that starts nothing. *)
Lemma run_one a rest before after m :
  pipeline_step a ->
  (forall i s, a <> GoConsume i s) ->
  crashed m = false ->
  (a = WgDone -> 1 <= wg m) ->
  (a = Release -> 1 <= guard m) ->
  exists m',
    step {| threads := before ++ (a :: rest) :: after; mem := m |}
         {| threads := before ++ rest :: after; mem := m' |}
    /\ extends m m' (done_weight a) (token_weight a) (served [a]).
Proof.
  intros Ha Hng Hc Hd Ht.
  destruct a; try contradiction.
  - exists (with_frame m f). split; [apply step_plain; [exact Hc | constructor]|].
    unfold extends. cbn. repeat split; lia.
  - exists (with_wg m (wg m - 1)).
    split; [apply step_plain; [exact Hc | constructor; exact (Hd eq_refl)]|].
    unfold extends. cbn. rewrite app_nil_r. repeat split; lia.
  - exists (with_guard m (guard m - 1)).
    split; [apply step_plain; [exact Hc | constructor; exact (Ht eq_refl)]|].
    unfold extends. cbn. rewrite app_nil_r. repeat split; lia.
  - exfalso. exact (Hng index samples eq_refl).
  - exists (with_frame m f). split; [apply step_plain; [exact Hc | constructor]|].
    unfold extends. cbn. repeat split; lia.
  - exists (with_call m link).
    split; [apply step_plain; [exact Hc | constructor]|].
    unfold extends. cbn. rewrite app_nil_r. repeat split; lia.
  - exists (with_call m link).
    split; [apply step_plain; [exact Hc | constructor]|].
    unfold extends. cbn. rewrite app_nil_r. repeat split; lia.
Qed.

(** A consumer takes all its samples. *)
Lemma run_consumer (index : Z) (samples : list Z) (ts : list (list action))
    (m : shared) :
  crashed m = false ->
  exists m',
    steps {| threads := ts ++ [consumer index samples]; mem := m |}
          {| threads := ts ++ [[]]; mem := m' |}
    /\ extends m m' 0 0 (consume index 0 [] samples).
Proof.
  unfold consumer. generalize (consume index 0 [] samples) as fs.
  intros fs. revert m. induction fs as [|f fs IH]; intros m Hc.
  - exists m. split; [apply steps_refl|].
    unfold extends. rewrite app_nil_r. repeat split; lia.
  - cbn [map].
    destruct (run_one (Recv f) (map Recv fs) ts [] m I
                ltac:(intros; discriminate) Hc)
      as (m1 & Hst & He1); [discriminate.. |].
    destruct (IH m1) as (m2 & Hsts & He2).
    { destruct He1 as (_ & _ & -> & _). exact Hc. }
    exists m2. split.
    + eapply steps_trans; [apply steps_one; exact Hst | exact Hsts].
    + exact (extends_trans _ _ _ _ _ _ _ _ _ He1 He2).
Qed.

(** A pipeline that does not panic runs to its end, and so do the consumers
    it starts, when the counter and the channel hold what it takes from
    them. *)
Lemma run_pipeline (t : list action) :
  Forall pipeline_step t ->
  forall before after rest m,
    crashed m = false ->
    total done_weight t <= wg m ->
    total token_weight t <= guard m ->
    exists m' extra,
      steps {| threads := before ++ (t ++ rest) :: after; mem := m |}
            {| threads := before ++ rest :: after ++ extra; mem := m' |}
      /\ Forall (eq []) extra
      /\ extends m m' (total done_weight t) (total token_weight t) (served t).
Proof.
  induction 1 as [|a t Ha Ht IH]; intros before after rest m Hc Hd Hk.
  - exists m, []. rewrite app_nil_r. split; [apply steps_refl|].
    split; [constructor|]. unfold extends. cbn. rewrite app_nil_r.
    repeat split; lia.
  - rewrite total_cons in Hd, Hk.
    destruct (pipeline_step_nonneg t Ht) as [Hd0 Hk0].
    assert (Hcase : (exists i s, a = GoConsume i s)
                    \/ (forall i s, a <> GoConsume i s)).
    { destruct a; try (right; intros; discriminate). left. eauto. }
    destruct Hcase as [(index & samples & ->)|Hng].
    + cbn [done_weight token_weight] in Hd, Hk.
      assert (H1 : step
                     {| threads := before
                                     ++ (GoConsume index samples :: t ++ rest)
                                     :: after;
                        mem := m |}
                     {| threads := before ++ (t ++ rest)
                                     :: after ++ [consumer index samples];
                        mem := m |})
        by (apply step_thread; [exact Hc | constructor]).
      destruct (run_consumer index samples (before ++ (t ++ rest) :: after) m Hc)
        as (m1 & H2 & He1).
      destruct (IH before (after ++ [[]]) rest m1) as (m2 & extra & H3 & Hex & He2).
      { destruct He1 as (_ & _ & -> & _). exact Hc. }
      { destruct He1 as (-> & _). lia. }
      { destruct He1 as (_ & -> & _). lia. }
      exists m2, ([] :: extra). split; [|split].
      * cbn [app].
        eapply steps_trans; [apply steps_one; exact H1|].
        replace (before ++ (t ++ rest) :: after ++ [consumer index samples])
          with ((before ++ (t ++ rest) :: after) ++ [consumer index samples])
          by (rewrite <- app_assoc; reflexivity).
        eapply steps_trans; [exact H2|].
        replace ((before ++ (t ++ rest) :: after) ++ [[]])
          with (before ++ (t ++ rest) :: after ++ [[]])
          by (rewrite <- app_assoc; reflexivity).
        replace (before ++ rest :: after ++ [] :: extra)
          with (before ++ rest :: (after ++ [[]]) ++ extra)
          by (rewrite <- (app_assoc after); reflexivity).
        exact H3.
      * constructor; [reflexivity | exact Hex].
      * rewrite !total_cons. cbn [done_weight token_weight served].
        exact (extends_trans _ _ _ _ _ _ _ _ _ He1 He2).
    + destruct (run_one a (t ++ rest) before after m Ha Hng Hc)
        as (m1 & H1 & He1);
        [intros ->; cbn [done_weight token_weight] in *; lia.. |].
      destruct (IH before after rest m1) as (m2 & extra & H3 & Hex & He2).
      { destruct He1 as (_ & _ & -> & _). exact Hc. }
      { destruct He1 as (-> & _). lia. }
      { destruct He1 as (_ & -> & _). lia. }
      exists m2, extra. split; [|split; [exact Hex|]].
      * cbn [app].
        eapply steps_trans; [apply steps_one; exact H1 | exact H3].
      * rewrite !total_cons.
        replace (served (a :: t)) with (served [a] ++ served t)
          by (destruct a; try contradiction; cbn; rewrite ?app_nil_r;
              reflexivity).
        exact (extends_trans _ _ _ _ _ _ _ _ _ He1 He2).
Qed.

(** A pipeline started without a link for an id inside the batch returns. *)
Lemma worker_returns (id : Z) :
  elem (ProfileTest.Links p) id <> None ->
  Forall pipeline_step (worker id EmptyString)
  /\ total token_weight (worker id EmptyString) = 1.
Proof.
  intros Hid. unfold Web.worker, testOne. cbn [String.eqb].
  pipeline_cases; try contradiction; try discriminate;
    (split;
     [repeat first [apply Forall_nil | apply Forall_app; split
                   | apply Forall_cons; [exact I|]]
     | reflexivity]).
Qed.

Hypothesis no_explicit :
  TestIDs (ProfileTest.Options p) = [] \/ Links (ProfileTest.Options p) = [].
Hypothesis room : 1 <= Concurrency (ProfileTest.Options p).

(** The second loop of [testAll] and what follows it, each pipeline running
    to its end before the next one is started. *)
Lemma run_dispatch (links : list string) :
  forall done others m,
    ProfileTest.Links p = done ++ links ->
    Forall (eq []) others ->
    crashed m = false ->
    wg m = 0 ->
    guard m = 0 ->
    exists m' others',
      steps {| threads := dispatch p (Z.of_nat (List.length done)) links
                            :: others;
               mem := m |}
            {| threads := [] :: others'; mem := m' |}
      /\ Forall (eq []) others'
      /\ wg m' = 0
      /\ guard m' = 0
      /\ crashed m' = false
      /\ returned m' = Some None
      /\ sent m' = sent m
                     ++ serial (Z.of_nat (List.length done)) links ++ [eof].
Proof.
  induction links as [|l links IH]; intros done others m Hsplit Hoth Hc Hw Hg;
    cbn [dispatch Web.serial].
  - exists (with_returned (with_frame m eof) None), others.
    split; [|cbn; repeat split; auto].
    eapply steps_trans;
      [apply steps_one;
       apply (step_plain WgWait [Write eof; Return None] [] others m m Hc);
       constructor; exact Hw|].
    eapply steps_trans;
      [apply steps_one;
       apply (step_plain (Write eof) [Return None] [] others m
                (with_frame m eof) Hc); constructor|].
    apply steps_one.
    apply (step_plain (Return None) [] [] others (with_frame m eof)
             (with_returned (with_frame m eof) None) Hc); constructor.
  - rewrite (dispatchArgs_default p no_explicit).
    set (i := Z.of_nat (List.length done)).
    set (rest := dispatch p (i + 1) links).
    set (m1 := with_wg m (wg m + 1)).
    set (m2 := with_guard m1 (guard m1 + 1)).
    assert (Hid : elem (ProfileTest.Links p) i <> None).
    { unfold elem, i. replace (Z.of_nat (List.length done) <? 0) with false
        by (symmetry; apply Z.ltb_ge; lia).
      rewrite Nat2Z.id, Hsplit, nth_error_app2 by lia.
      rewrite Nat.sub_diag. discriminate. }
    destruct (worker_returns i Hid) as [Hsteps Htok].
    pose proof (proj1 (worker_done_weight PingLink Download p i EmptyString))
      as Hdone.
    cbn [String.eqb] in Hdone.
    destruct (run_pipeline (worker i EmptyString) Hsteps (rest :: others) []
                [] m2)
      as (m3 & extra & H4 & Hex & He); [exact Hc | cbn; lia | cbn; lia |].
    rewrite Hdone, Htok in He. destruct He as (E1 & E2 & E3 & E4 & E5).
    destruct (IH (done ++ [l]) (others ++ [] :: extra) m3)
      as (m4 & others' & H5 & Hoth' & F1 & F2 & F3 & F4 & F5).
    { rewrite <- app_assoc. exact Hsplit. }
    { apply Forall_app. split; [exact Hoth|].
      constructor; [reflexivity | exact Hex]. }
    { rewrite E3. exact Hc. }
    { rewrite E1. cbn. lia. }
    { rewrite E2. cbn. lia. }
    rewrite length_app in H5, F5. cbn [List.length] in H5, F5.
    replace (Z.of_nat (List.length done + 1)) with (i + 1) in H5, F5
      by (unfold i; lia).
    exists m4, others'.
    split; [|repeat split; try assumption;
             rewrite F5, E5; cbn; rewrite <- !app_assoc; reflexivity].
    eapply steps_trans;
      [apply steps_one;
       apply (step_plain WgAdd (Acquire i :: GoTest i EmptyString :: rest) []
                others m m1 Hc); constructor|].
    eapply steps_trans;
      [apply steps_one;
       apply (step_plain (Acquire i) (GoTest i EmptyString :: rest) []
                others m1 m2 Hc); constructor; cbn; lia|].
    eapply steps_trans;
      [apply steps_one;
       apply (step_thread PingLink Download p [] (GoTest i EmptyString) rest
                others m2 rest [worker i EmptyString] m2 Hc); constructor|].
    cbn [app].
    replace (rest :: others ++ [worker i EmptyString])
      with ((rest :: others) ++ (worker i EmptyString ++ []) :: [])
      by (rewrite app_nil_r; reflexivity).
    eapply steps_trans; [exact H4|].
    cbn [app] in H5 |- *. exact H5.
Qed.


End Serial.

